(** * Energy Insight: the frontend logic and the core contracts, verified

    The repository is a Next.js frontend talking to a FastAPI backend.
    The frontend sources (report export, upload error handling, chat
    page, history page, recommendation panel) are embedded from the
    TypeScript code.  The backend services (metric aggregation, insight
    generation, fingerprinting, the SQL sandbox) are modelled from the
    specification; every such definition says so in its doc comment. *)

From Stdlib Require Import ZArith NArith QArith Qcanon List String Ascii Lia Bool.
From Stdlib Require Import DecimalString.
From stdpp Require Import base list sorting finite.

Local Open Scope N_scope.

(** ** JavaScript strings

    A JavaScript string is a finite sequence of UTF-16 code units.  The
    functions below follow ECMAScript for the string methods the
    sources call. *)

Module JS.

Abbreviation jsstring := (list N) (only parsing).

(** Code units of an ASCII literal. *)
Definition lit (s : string) : jsstring :=
  map N_of_ascii (list_ascii_of_string s).
Arguments lit : simpl never.

Definition TAB : N := 9.
Definition LF : N := 10.
Definition CR : N := 13.
Definition SPACE : N := 32.
Definition DQUOTE : N := 34.
Definition COMMA : N := 44.
Definition SEMICOLON : N := 59.

(** ECMAScript [WhiteSpace] and [LineTerminator] code points, the ones
    [String.prototype.trim] strips.  All of them are in the basic
    plane, hence single code units. *)
Definition is_js_space (c : N) : bool :=
  (c =? 9) || (c =? 10) || (c =? 11) || (c =? 12) || (c =? 13) || (c =? 32)
  || (c =? 160) || (c =? 5760) || ((8192 <=? c) && (c <=? 8202))
  || (c =? 8232) || (c =? 8233) || (c =? 8239) || (c =? 8287)
  || (c =? 12288) || (c =? 65279).

Fixpoint trimStart (s : jsstring) : jsstring :=
  match s with
  | [] => []
  | c :: s' => if is_js_space c then trimStart s' else s
  end.

Definition trimEnd (s : jsstring) : jsstring := rev (trimStart (rev s)).

Definition trim (s : jsstring) : jsstring := trimEnd (trimStart s).

(** [s.startsWith(p)] *)
Fixpoint startsWith (p s : jsstring) : bool :=
  match p, s with
  | [], _ => true
  | _ :: _, [] => false
  | a :: p', b :: s' => (a =? b) && startsWith p' s'
  end.

(** [s.includes(p)] *)
Fixpoint includes (p s : jsstring) : bool :=
  startsWith p s ||
  match s with
  | [] => false
  | _ :: s' => includes p s'
  end.

(** [parts.join(sep)] *)
Fixpoint join (sep : jsstring) (parts : list jsstring) : jsstring :=
  match parts with
  | [] => []
  | [p] => p
  | p :: ps => p ++ sep ++ join sep ps
  end.

(** A string is truthy when it is not empty. *)
Definition truthy (s : jsstring) : bool :=
  match s with [] => false | _ :: _ => true end.

(** Lower-casing of the ASCII letters, every other code unit kept. *)
Definition ascii_lower (c : N) : N :=
  if (65 <=? c) && (c <=? 90) then c + 32 else c.

Definition lower (s : jsstring) : jsstring := map ascii_lower s.

Lemma startsWith_app p s : startsWith p (p ++ s) = true.
Proof. induction p as [|c p IH]; simpl; [done|]. by rewrite N.eqb_refl, IH. Qed.

Lemma includes_app p a b : includes p (a ++ p ++ b) = true.
Proof.
  induction a as [|c a IH]; simpl.
  - destruct (p ++ b) eqn:E; simpl.
    + apply app_eq_nil in E as [-> _]. done.
    + rewrite <- E, startsWith_app. done.
  - rewrite IH. apply orb_true_r.
Qed.

Lemma includes_spec p s :
  includes p s = true <-> exists a b, s = a ++ p ++ b.
Proof.
  split; [|intros (a & b & ->); apply includes_app].
  assert (Hsw : forall p s, startsWith p s = true -> exists b, s = p ++ b).
  { clear. induction p as [|c p IH]; intros s H; [by exists s|].
    destruct s as [|d s]; [done|]. simpl in H.
    apply andb_true_iff in H as [Hc H]. apply N.eqb_eq in Hc as ->.
    destruct (IH _ H) as [b ->]. by exists b. }
  induction s as [|c s IH]; simpl; intros H.
  - apply orb_true_iff in H as [H|H]; [|done].
    destruct (Hsw _ _ H) as [b Hb]. by exists [], b.
  - apply orb_true_iff in H as [H|H].
    + destruct (Hsw _ _ H) as [b Hb]. by exists [], b.
    + destruct (IH H) as (a & b & ->). by exists (c :: a), b.
Qed.

End JS.

Import JS.

(** ** History page: removing a deleted dataset from the list

    [app/analytics/history/page.tsx] and
    [components/delete-dataset-button.tsx]. *)

Module History.

(** [DatasetRecord] of [types/analytics.ts].  The identifier is the
    integer key of the stored dataset; the totals are JavaScript
    numbers, of a type [num] the list update never inspects. *)
Record DatasetRecord {num : Type} := {
  id : Z;
  original_filename : jsstring;
  uploaded_at : jsstring;
  total_kwh : num;
  total_cost : num;
  total_co2 : num;
  row_count : num;
}.
Arguments DatasetRecord : clear implicits.

Section Deletion.
Context {num : Type}.
Implicit Types (prev history : list (DatasetRecord num)) (x : DatasetRecord num).

(** The state updater handed to [setHistory] by the row of [entry_id]:
    [prev.filter((item) => item.id !== entry.id)]. *)
Definition onDeleted (entry_id : Z) prev : list (DatasetRecord num) :=
  List.filter (fun item => negb (Z.eqb (id item) entry_id)) prev.

(** What [deleteDataset] did with the request. *)
Inductive delete_outcome :=
| Deleted
| DeleteFailed (message : jsstring).

Inductive toast :=
| ToastSuccess
| ToastError (description : jsstring).

(** [onDelete] of [DeleteDatasetButton]: nothing happens unless the
    user confirms; on success the success toast is shown and the
    [onDeleted] callback runs; on failure only the error toast is
    shown. *)
Definition onDelete (confirmed : bool) (outcome : delete_outcome)
    (datasetId : Z) history
  : list (DatasetRecord num) * option toast :=
  if confirmed then
    match outcome with
    | Deleted => (onDeleted datasetId history, Some ToastSuccess)
    | DeleteFailed m => (history, Some (ToastError m))
    end
  else (history, None).

Lemma onDeleted_elem d prev x :
  x ∈ onDeleted d prev <-> x ∈ prev /\ id x <> d.
Proof.
  unfold onDeleted. rewrite !list_elem_of_In, filter_In.
  rewrite negb_true_iff, Z.eqb_neq. reflexivity.
Qed.

Lemma onDeleted_sublist d prev : sublist (onDeleted d prev) prev.
Proof.
  unfold onDeleted. induction prev as [|x prev IH]; simpl.
  - constructor.
  - destruct (negb (id x =? d)%Z); [by apply sublist_skip | by apply sublist_cons].
Qed.

Lemma onDeleted_app d (l1 l2 : list (DatasetRecord num)) :
  onDeleted d (l1 ++ l2) = onDeleted d l1 ++ onDeleted d l2.
Proof. unfold onDeleted. apply List.filter_app. Qed.

Lemma onDeleted_keep d x : id x <> d -> onDeleted d [x] = [x].
Proof.
  intros H. unfold onDeleted. simpl.
  apply Z.eqb_neq in H. by rewrite H.
Qed.

Lemma onDeleted_drop d x : id x = d -> onDeleted d [x] = [].
Proof.
  intros H. unfold onDeleted. simpl.
  apply Z.eqb_eq in H. by rewrite H.
Qed.

Lemma onDeleted_all_kept d (l : list (DatasetRecord num)) :
  Forall (fun x => id x <> d) l -> onDeleted d l = l.
Proof.
  induction 1 as [|x l Hx _ IH]; [done|].
  change (x :: l) with ([x] ++ l).
  by rewrite onDeleted_app, onDeleted_keep, IH.
Qed.

Lemma onDeleted_none_left d prev :
  Forall (fun x => id x <> d) (onDeleted d prev).
Proof.
  apply Forall_forall. intros x Hx.
  by apply onDeleted_elem in Hx as [_ ?].
Qed.

Lemma onDeleted_greatest d prev (k : list (DatasetRecord num)) :
  sublist k prev -> Forall (fun x => id x <> d) k -> sublist k (onDeleted d prev).
Proof.
  induction 1 as [|x k prev Hs IH|x k prev Hs IH]; intros Hk.
  - constructor.
  - apply Forall_cons in Hk as [Hx Hk].
    change (x :: prev) with ([x] ++ prev).
    rewrite onDeleted_app, onDeleted_keep by done.
    simpl. apply sublist_skip. auto.
  - change (x :: prev) with ([x] ++ prev). rewrite onDeleted_app.
    apply sublist_inserts_l. auto.
Qed.

(** A cancelled or failed deletion leaves the list as it was. *)
Lemma onDelete_cancelled outcome d history :
  onDelete false outcome d history = (history, None).
Proof. reflexivity. Qed.

Lemma onDelete_failed m d history :
  onDelete true (DeleteFailed m) d history = (history, Some (ToastError m)).
Proof. reflexivity. Qed.

(** C10. After a successful deletion of dataset [d] the displayed list
    is the old list with exactly the entries of id [d] removed: no
    entry of id [d] is left, nothing is added or reordered (the new
    list is a subsequence of the old one), and every run of other
    entries of the old list, in their old order, is still there. *)
Theorem delete_success_frame d history :
  let history' := fst (onDelete true Deleted d history) in
  Forall (fun x => id x <> d) history'
  /\ sublist history' history
  /\ (forall k, sublist k history -> Forall (fun x => id x <> d) k ->
        sublist k history')
  /\ (forall x, x ∈ history' <-> x ∈ history /\ id x <> d).
Proof.
  simpl. split; [apply onDeleted_none_left|].
  split; [apply onDeleted_sublist|].
  split; [apply onDeleted_greatest|].
  apply onDeleted_elem.
Qed.

End Deletion.

End History.

(** ** Report export: CSV escaping

    [escapeCsvValue], [csvLine] and [buildReportCsv] of
    [app/analytics/page.tsx]. *)

Module Csv.

(** The [replace] with the pattern [/\r?\n|\r/g] and a single space as
    replacement: scanning left to right, a CR LF pair, a lone LF or a
    lone CR becomes one space. *)
Fixpoint replace_newlines (s : jsstring) : jsstring :=
  match s with
  | [] => []
  | c :: s' =>
      if c =? CR then
        match s' with
        | d :: s'' =>
            if d =? LF then SPACE :: replace_newlines s''
            else SPACE :: replace_newlines s'
        | [] => [SPACE]
        end
      else if c =? LF then SPACE :: replace_newlines s'
      else c :: replace_newlines s'
  end.

(** The [replace] that puts two double quotes for every double quote. *)
Fixpoint double_quotes (s : jsstring) : jsstring :=
  match s with
  | [] => []
  | c :: s' =>
      if c =? DQUOTE then DQUOTE :: DQUOTE :: double_quotes s'
      else c :: double_quotes s'
  end.

(** The test for a comma, a double quote or a semicolon. *)
Definition needs_quoting (s : jsstring) : bool :=
  existsb (fun c => (c =? COMMA) || (c =? DQUOTE) || (c =? SEMICOLON)) s.

Section Escape.

(** A field value is a string or a number; [String(value)] of a number
    is ECMAScript's number-to-string conversion, a parameter here. *)
Context {num : Type} (Number_toString : num -> jsstring).

Inductive value :=
| VStr (s : jsstring)
| VNum (n : num).

Definition String_ (v : value) : jsstring :=
  match v with
  | VStr s => s
  | VNum n => Number_toString n
  end.

(** The text of a field: [String(value)], line breaks replaced, trimmed. *)
Definition field_text (v : value) : jsstring :=
  trim (replace_newlines (String_ v)).

Definition escapeCsvValue (v : value) : jsstring :=
  let text := field_text v in
  if negb (truthy text) then []
  else
    let escaped := double_quotes text in
    if needs_quoting escaped then DQUOTE :: escaped ++ [DQUOTE] else escaped.

Definition csvLine (values : list value) : jsstring :=
  join [COMMA] (map escapeCsvValue values).

End Escape.

Arguments value : clear implicits.

(** *** Reading a record back

    The reader of one CSV record under the usual quoting rules
    (RFC 4180): fields are separated by commas; a field that starts
    with a double quote runs to the closing double quote, a doubled
    double quote inside standing for one; a field that does not start
    with a double quote holds no double quote and no line break.  The
    reader is a four-state machine; its result lists the fields of the
    rest of the record, the first of them being the rest of the field
    under way. *)

Inductive reader_state := AtStart | InPlain | InQuoted | AfterQuote.

Definition push (c : N) (k : option (list jsstring)) : option (list jsstring) :=
  match k with
  | Some (f :: fs) => Some ((c :: f) :: fs)
  | _ => None
  end.

Definition next_field (k : option (list jsstring)) : option (list jsstring) :=
  match k with
  | Some fs => Some ([] :: fs)
  | None => None
  end.

Definition line_break (c : N) : bool := (c =? CR) || (c =? LF).

Fixpoint read (st : reader_state) (s : jsstring) : option (list jsstring) :=
  match s with
  | [] =>
      match st with
      | InQuoted => None
      | _ => Some [[]]
      end
  | c :: s' =>
      match st with
      | AtStart =>
          if c =? DQUOTE then read InQuoted s'
          else if c =? COMMA then next_field (read AtStart s')
          else if line_break c then None
          else push c (read InPlain s')
      | InPlain =>
          if c =? COMMA then next_field (read AtStart s')
          else if (c =? DQUOTE) || line_break c then None
          else push c (read InPlain s')
      | InQuoted =>
          if c =? DQUOTE then read AfterQuote s'
          else push c (read InQuoted s')
      | AfterQuote =>
          if c =? DQUOTE then push DQUOTE (read InQuoted s')
          else if c =? COMMA then next_field (read AtStart s')
          else None
      end
  end.

Definition parse_record (s : jsstring) : option (list jsstring) := read AtStart s.

(** A whole field put in front of the fields that follow it. *)
Definition field_then (f : jsstring) (k : option (list jsstring)) : option (list jsstring) :=
  match k with
  | Some fs => Some (f :: fs)
  | None => None
  end.

(** What may follow a field in a record: the end, or a comma and the
    rest of the record. *)
Inductive tail_of_record : jsstring -> option (list jsstring) -> Prop :=
| tail_end : tail_of_record [] (Some [])
| tail_more r : tail_of_record (COMMA :: r) (read AtStart r).

(** A character an unquoted field may hold. *)
Definition plain (c : N) : Prop :=
  c <> COMMA /\ c <> DQUOTE /\ c <> CR /\ c <> LF.

Lemma push_field_then c f k : push c (field_then f k) = field_then (c :: f) k.
Proof. by destruct k. Qed.

Lemma next_field_then k : next_field k = field_then [] k.
Proof. by destruct k. Qed.

Lemma read_plain_field t r k :
  Forall plain t -> tail_of_record r k ->
  read InPlain (t ++ r) = field_then t k.
Proof.
  intros Ht Hr. induction Ht as [|c t (Hc & Hq & Hcr & Hlf) _ IH]; simpl.
  - destruct Hr; simpl; [done|]. apply next_field_then.
  - apply N.eqb_neq in Hc, Hq, Hcr, Hlf. unfold line_break.
    rewrite Hc, Hq, Hcr, Hlf. simpl. by rewrite IH, push_field_then.
Qed.

Lemma read_plain_field_start t r k :
  Forall plain t -> tail_of_record r k ->
  read AtStart (t ++ r) = field_then t k.
Proof.
  intros Ht Hr. destruct Ht as [|c t (Hc & Hq & Hcr & Hlf) Ht]; simpl.
  - destruct Hr; simpl; [done|]. apply next_field_then.
  - apply N.eqb_neq in Hc, Hq, Hcr, Hlf. unfold line_break.
    rewrite Hc, Hq, Hcr, Hlf. simpl.
    by rewrite (read_plain_field t r k), push_field_then.
Qed.

Lemma read_quoted_field t r k :
  tail_of_record r k ->
  read InQuoted (double_quotes t ++ DQUOTE :: r) = field_then t k.
Proof.
  intros Hr. induction t as [|c t IH]; simpl.
  - destruct Hr; simpl; [done|]. apply next_field_then.
  - destruct (c =? DQUOTE) eqn:Hc; simpl.
    + apply N.eqb_eq in Hc as ->. by rewrite IH, push_field_then.
    + by rewrite Hc, IH, push_field_then.
Qed.

(** *** The text of a field holds no line break *)

Definition no_break (c : N) : Prop := c <> CR /\ c <> LF.

Lemma replace_newlines_no_break s : Forall no_break (replace_newlines s).
Proof.
  remember (length s) as n eqn:Hn. revert s Hn.
  induction n as [n IH] using lt_wf_ind. intros s ->.
  destruct s as [|c s]; simpl; [constructor|].
  assert (Hsp : no_break SPACE) by (by split).
  destruct (c =? CR) eqn:Hcr.
  - destruct s as [|d s]; [by repeat constructor|].
    destruct (d =? LF); constructor; try done;
      (eapply IH; [|reflexivity]; simpl; lia).
  - destruct (c =? LF) eqn:Hlf; constructor; try done;
      try (eapply IH; [|reflexivity]; simpl; lia).
    apply N.eqb_neq in Hcr, Hlf. by split.
Qed.

Lemma trimStart_suffix s : exists p, s = p ++ trimStart s.
Proof.
  induction s as [|c s [p Hp]]; simpl.
  - by exists [].
  - destruct (is_js_space c).
    + exists (c :: p). simpl. by rewrite <- Hp.
    + by exists [].
Qed.

Lemma trimStart_Forall (P : N -> Prop) s : Forall P s -> Forall P (trimStart s).
Proof.
  intros H. destruct (trimStart_suffix s) as [p Hp].
  rewrite Hp in H. by apply Forall_app in H as [_ ?].
Qed.

Lemma trim_Forall (P : N -> Prop) s : Forall P s -> Forall P (trim s).
Proof.
  intros H. unfold trim, trimEnd.
  apply Forall_rev, trimStart_Forall, Forall_rev, trimStart_Forall, H.
Qed.

Lemma double_quotes_Forall (P : N -> Prop) s :
  P DQUOTE -> Forall P s -> Forall P (double_quotes s).
Proof.
  intros Hq. induction 1 as [|c s Hc _ IH]; simpl; [constructor|].
  destruct (c =? DQUOTE); repeat constructor; done.
Qed.

Lemma needs_quoting_false t :
  needs_quoting (double_quotes t) = false ->
  double_quotes t = t /\ Forall (fun c => c <> COMMA /\ c <> DQUOTE) t.
Proof.
  unfold needs_quoting. induction t as [|c t IH]; simpl; [by split|].
  destruct (c =? DQUOTE) eqn:Hq; simpl.
  - discriminate.
  - rewrite Hq. destruct (c =? COMMA) eqn:Hc; simpl; [discriminate|].
    rewrite orb_false_iff. intros [_ H]. destruct (IH H) as [-> Ht].
    split; [done|]. constructor; [|done].
    apply N.eqb_neq in Hq, Hc. by split.
Qed.

(** *** The shape of a cleaned text and of an escaped field *)

Lemma trimStart_head s :
  trimStart s = [] \/ exists c t, trimStart s = c :: t /\ is_js_space c = false.
Proof.
  induction s as [|c s IH]; simpl; [by left|].
  destruct (is_js_space c) eqn:Hc; [done|]. right. by exists c, s.
Qed.

Lemma trimStart_snoc l c :
  is_js_space c = false -> exists l', trimStart (l ++ [c]) = l' ++ [c].
Proof.
  intros Hc. induction l as [|x l IH]; simpl.
  - rewrite Hc. by exists [].
  - destruct (is_js_space x); [done|]. by exists (x :: l).
Qed.

Lemma trimStart_idem s : trimStart (trimStart s) = trimStart s.
Proof.
  destruct (trimStart_head s) as [->|(c & t & -> & Hc)]; [done|].
  simpl. by rewrite Hc.
Qed.

(** Trimming the end leaves a string that starts as it did. *)
Lemma trimStart_trimEnd s : trimStart (trimEnd (trimStart s)) = trimEnd (trimStart s).
Proof.
  destruct (trimStart_head s) as [->|(c & t & -> & Hc)]; [done|].
  unfold trimEnd. change (rev (c :: t)) with (rev t ++ [c]).
  destruct (trimStart_snoc (rev t) c Hc) as [l' ->].
  rewrite rev_app_distr. change (rev [c] ++ rev l') with (c :: rev l').
  cbn [trimStart]. by rewrite Hc.
Qed.

(** [trim] is idempotent. *)
Lemma trim_idem s : trim (trim s) = trim s.
Proof.
  unfold trim. rewrite trimStart_trimEnd.
  unfold trimEnd. by rewrite rev_involutive, trimStart_idem.
Qed.

(** A string without line breaks is left as it is. *)
Lemma replace_newlines_id s : Forall no_break s -> replace_newlines s = s.
Proof.
  induction 1 as [|c s [Hcr Hlf] _ IH]; [done|].
  apply N.eqb_neq in Hcr, Hlf.
  cbn [replace_newlines]. by rewrite Hcr, Hlf, IH.
Qed.

(** A trimmed text neither starts nor ends with white space. *)
Lemma trim_ends s c :
  head (trim s) = Some c \/ last (trim s) = Some c -> is_js_space c = false.
Proof.
  intros [H|H].
  - pose proof (trimStart_trimEnd s) as Hfix. fold (trim s) in Hfix.
    destruct (trimStart_head (trim s)) as [Hnil|(c' & t & Hct & Hc)].
    + rewrite Hfix in Hnil. by rewrite Hnil in H.
    + rewrite Hfix in Hct. rewrite Hct in H. by injection H as <-.
  - unfold trim, trimEnd in H.
    destruct (trimStart_head (rev (trimStart s))) as [Hnil|(c' & t & Hct & Hc)].
    + by rewrite Hnil in H.
    + rewrite Hct in H. change (rev (c' :: t)) with (rev t ++ [c']) in H.
      rewrite last_snoc in H. by injection H as <-.
Qed.

(** Line breaks collapsed: reading from the left, a CR LF pair, a CR
    alone and a LF alone each become one space, and every other
    character stays. *)
Inductive collapsed : jsstring -> jsstring -> Prop :=
| collapsed_nil : collapsed [] []
| collapsed_crlf s t : collapsed s t -> collapsed (CR :: LF :: s) (SPACE :: t)
| collapsed_cr s t : head s <> Some LF -> collapsed s t -> collapsed (CR :: s) (SPACE :: t)
| collapsed_lf s t : collapsed s t -> collapsed (LF :: s) (SPACE :: t)
| collapsed_other c s t :
    c <> CR -> c <> LF -> collapsed s t -> collapsed (c :: s) (c :: t).

Lemma replace_newlines_collapsed s : collapsed s (replace_newlines s).
Proof.
  remember (length s) as n eqn:Hn. revert s Hn.
  induction n as [n IH] using lt_wf_ind. intros s ->.
  destruct s as [|c s]; [constructor|]. cbn [replace_newlines].
  destruct (N.eqb_spec c CR) as [->|Hcr].
  - destruct s as [|d s]; [by repeat constructor|].
    destruct (N.eqb_spec d LF) as [->|Hlf].
    + constructor. eapply IH; [|reflexivity]. simpl. lia.
    + apply collapsed_cr; [simpl; congruence|].
      eapply IH; [|reflexivity]. simpl. lia.
  - destruct (N.eqb_spec c LF) as [->|Hlf].
    + constructor. eapply IH; [|reflexivity]. simpl. lia.
    + constructor; [done..|]. eapply IH; [|reflexivity]. simpl. lia.
Qed.

(** What trimming takes away is white space, at the two ends. *)
Lemma trimStart_spaces s :
  exists before, s = before ++ trimStart s /\ Forall (fun c => is_js_space c = true) before.
Proof.
  induction s as [|c s (before & Hs & Hb)]; simpl.
  - by exists [].
  - destruct (is_js_space c) eqn:Hc.
    + exists (c :: before). split; [simpl; by rewrite <- Hs|by constructor].
    + by exists [].
Qed.

Lemma trim_spaces s :
  exists before after,
    s = before ++ trim s ++ after
    /\ Forall (fun c => is_js_space c = true) before
    /\ Forall (fun c => is_js_space c = true) after.
Proof.
  destruct (trimStart_spaces s) as (before & Hs & Hb).
  destruct (trimStart_spaces (rev (trimStart s))) as (after & Hr & Ha).
  exists before, (rev after). split; [|split; [done|by apply Forall_rev]].
  unfold trim, trimEnd. rewrite <- rev_app_distr, <- Hr, rev_involutive. exact Hs.
Qed.

(** The three characters that make a field quoted. *)
Definition delimiter (c : N) : Prop := c = COMMA \/ c = DQUOTE \/ c = SEMICOLON.

Lemma needs_quoting_spec s : needs_quoting s = true <-> exists c, In c s /\ delimiter c.
Proof.
  unfold needs_quoting, delimiter. rewrite existsb_exists.
  split; intros (c & Hin & Hc); exists c; (split; [done|]).
  - apply orb_true_iff in Hc as [Hc|Hc]; [apply orb_true_iff in Hc as [Hc|Hc]|];
      apply N.eqb_eq in Hc; auto.
  - destruct Hc as [-> | [-> | ->]]; done.
Qed.

(** Doubling, character by character. *)
Lemma double_quotes_concat t :
  double_quotes t
  = concat (map (fun c => if c =? DQUOTE then [DQUOTE; DQUOTE] else [c]) t).
Proof.
  induction t as [|c t IH]; [done|]. cbn [double_quotes map concat].
  rewrite IH. by destruct (c =? DQUOTE).
Qed.

Section EscapeFacts.
Context {num : Type} (Number_toString : num -> jsstring).
Implicit Types (v : value num) (vs : list (value num)).

Local Abbreviation field_text := (field_text Number_toString).
Local Abbreviation escapeCsvValue := (escapeCsvValue Number_toString).
Local Abbreviation csvLine := (csvLine Number_toString).

Lemma field_text_no_break v : Forall no_break (field_text v).
Proof. apply trim_Forall, replace_newlines_no_break. Qed.

(** The three shapes of an escaped field. *)
Lemma escapeCsvValue_shape v :
  let text := field_text v in
  let escaped := double_quotes text in
  (text = [] /\ escapeCsvValue v = [])
  \/ (text <> [] /\ needs_quoting escaped = true
      /\ escapeCsvValue v = DQUOTE :: escaped ++ [DQUOTE])
  \/ (text <> [] /\ needs_quoting escaped = false
      /\ escapeCsvValue v = escaped).
Proof.
  unfold escapeCsvValue. simpl.
  destruct (field_text v) as [|c t] eqn:Ht; simpl; [by left|].
  right. change (needs_quoting (double_quotes (c :: t))) with
    (needs_quoting (if c =? DQUOTE then DQUOTE :: DQUOTE :: double_quotes t
                    else c :: double_quotes t)).
  destruct (needs_quoting _) eqn:Hn; [left|right]; done.
Qed.

Lemma read_escaped v r k :
  tail_of_record r k ->
  read AtStart (escapeCsvValue v ++ r) = field_then (field_text v) k.
Proof.
  intros Hr.
  destruct (escapeCsvValue_shape v) as [[Ht ->]|[(_ & Hn & ->)|(_ & Hn & ->)]].
  - rewrite Ht. by apply (read_plain_field_start []).
  - simpl. rewrite <- app_assoc. simpl. by apply read_quoted_field.
  - apply needs_quoting_false in Hn as [-> Hn].
    apply read_plain_field_start; [|done].
    pose proof (field_text_no_break v) as Hb.
    rewrite Forall_forall in *. intros c Hc.
    destruct (Hn c Hc), (Hb c Hc). by repeat split.
Qed.

Lemma csvLine_cons v v' vs :
  csvLine (v :: v' :: vs) = escapeCsvValue v ++ COMMA :: csvLine (v' :: vs).
Proof. reflexivity. Qed.

(** Reading back a record of at least one field. *)
Lemma parse_csvLine v vs :
  parse_record (csvLine (v :: vs)) = Some (map field_text (v :: vs)).
Proof.
  unfold parse_record. revert v. induction vs as [|v' vs IH]; intros v.
  - change (csvLine [v]) with (escapeCsvValue v).
    rewrite <- (app_nil_r (escapeCsvValue v)).
    by rewrite (read_escaped v [] (Some [])) by constructor.
  - rewrite csvLine_cons.
    rewrite (read_escaped v _ _ (tail_more _)). by rewrite IH.
Qed.

Lemma escapeCsvValue_no_break v : Forall no_break (escapeCsvValue v).
Proof.
  assert (Hq : no_break DQUOTE) by (by split).
  pose proof (double_quotes_Forall no_break _ Hq (field_text_no_break v)) as Hd.
  destruct (escapeCsvValue_shape v) as [[_ ->]|[(_ & _ & ->)|(_ & _ & ->)]].
  - constructor.
  - constructor; [done|]. apply Forall_app. split; [done|by constructor].
  - done.
Qed.

Lemma csvLine_no_break vs : Forall no_break (csvLine vs).
Proof.
  unfold csvLine. induction vs as [|v [|v' vs] IH]; simpl.
  - constructor.
  - apply escapeCsvValue_no_break.
  - apply Forall_app. split; [apply escapeCsvValue_no_break|].
    constructor; [by split|]. apply IH.
Qed.

End EscapeFacts.

(** *** Records joined by CR LF, and split again *)

Definition CRLF : jsstring := [CR; LF].

Definition cons_head (c : N) (ls : list jsstring) : list jsstring :=
  match ls with
  | l :: ls' => (c :: l) :: ls'
  | [] => [[c]]
  end.

(** The records of a text whose records are separated by CR LF. *)
Fixpoint split_crlf (s : jsstring) : list jsstring :=
  match s with
  | [] => [[]]
  | c :: s' =>
      match s' with
      | d :: s'' =>
          if (c =? CR) && (d =? LF) then [] :: split_crlf s''
          else cons_head c (split_crlf s')
      | [] => [[c]]
      end
  end.

Lemma split_crlf_cons c s :
  c <> CR -> s <> [] -> split_crlf (c :: s) = cons_head c (split_crlf s).
Proof.
  intros Hc Hs. destruct s as [|d s']; [done|].
  apply N.eqb_neq in Hc. cbn [split_crlf]. by rewrite Hc.
Qed.

Lemma split_crlf_last l : Forall no_break l -> split_crlf l = [l].
Proof.
  induction 1 as [|c l [Hc _] Hl IH]; [done|].
  destruct l as [|d l']; [done|].
  by rewrite split_crlf_cons, IH.
Qed.

Lemma split_crlf_line l rest :
  Forall no_break l -> split_crlf (l ++ CRLF ++ rest) = l :: split_crlf rest.
Proof.
  induction 1 as [|c l [Hc _] Hl IH]; [done|].
  change ((c :: l) ++ CRLF ++ rest) with (c :: (l ++ CRLF ++ rest)).
  rewrite split_crlf_cons, IH; [done..|]. by destruct l.
Qed.

Lemma split_crlf_join l ls :
  Forall (Forall no_break) (l :: ls) ->
  split_crlf (join CRLF (l :: ls)) = l :: ls.
Proof.
  revert l. induction ls as [|l' ls IH]; intros l Hall.
  - apply split_crlf_last. by apply Forall_cons in Hall as [? _].
  - apply Forall_cons in Hall as [Hl Hall].
    change (join CRLF (l :: l' :: ls)) with (l ++ CRLF ++ join CRLF (l' :: ls)).
    rewrite split_crlf_line by done. by rewrite IH.
Qed.

End Csv.

(** ** The analytics payload

    [types/analytics.ts].  JavaScript numbers are of a type [num] that
    is a parameter of every record.  Field names carry the record's
    prefix; the source's names are given in the comments. *)

Module Analytics.

Inductive ChangeType := increase | decrease | neutral.

Section Types.
Context {num : Type}.

Record StatCardData := {
  stat_title : jsstring;             (* title *)
  stat_value : num + jsstring;       (* value: number | string *)
  stat_unit : jsstring;              (* unit *)
  stat_change : jsstring;            (* change *)
  stat_change_type : ChangeType;     (* change_type *)
  stat_trend : jsstring;             (* trend *)
}.

Record UsagePoint := {
  usage_date : jsstring;             (* date *)
  usage_kwh : num;                   (* kwh *)
}.

Record CostSegment := {
  segment : jsstring;
  segment_value : num;               (* value *)
}.

Record SummaryBadge := {
  badge_label : jsstring;            (* label *)
  badge_value : jsstring;            (* value *)
}.

Record RecommendationImpact := {
  impact_value : jsstring;           (* value *)
  impact_period : jsstring;          (* period *)
}.

Record RecommendationLocalizedText := {
  loc_title : jsstring;              (* title *)
  loc_impact : jsstring;             (* impact *)
  loc_tips : list jsstring;          (* tips *)
}.

(** Either language may be missing at run time: the readers of
    [content] guard both with [??]. *)
Record RecommendationContent := {
  content_en : option RecommendationLocalizedText;   (* en *)
  content_fr : option RecommendationLocalizedText;   (* fr *)
}.

Record Recommendation := {
  category : jsstring;
  rec_impact : RecommendationImpact;                 (* impact *)
  rec_tips : list jsstring;                          (* tips *)
  rec_content : option RecommendationContent;        (* content *)
}.

Record DailyCostSnapshot := {
  day_date : jsstring;               (* date *)
  day_kwh : num;                     (* kwh *)
  day_cost : num;                    (* cost *)
}.

Record WeekendWeekdayComparison := {
  weekend_avg_cost_per_kwh : num;
  weekday_avg_cost_per_kwh : num;
  weekend_avg_daily_cost : num;
  weekday_avg_daily_cost : num;
  weekend_days : num;
  weekday_days : num;
}.

Record QuarterUsageComparison := {
  start_label : jsstring;
  start_kwh : num;
  end_label : jsstring;
  end_kwh : num;
  delta_kwh : num;
  delta_percent : option num;
}.

Record PeakWindowInsight := {
  start_hour : num;
  end_hour : num;
  avg_kwh_per_day : num;
}.

Record SummaryInsights := {
  peak_day : DailyCostSnapshot;
  weekend_vs_weekday : option WeekendWeekdayComparison;
  top_expensive_days : list DailyCostSnapshot;
  quarter_usage : option QuarterUsageComparison;
  peak_window : option PeakWindowInsight;
  average_cost_per_kwh : num;
  shift_kwh : num;
  days_covered : num;
  co2_factor : num;
}.

Record AnalyticsSummary := {
  stats : list StatCardData;
  usage : list UsagePoint;
  cost_breakdown : list CostSegment;
  badges : list SummaryBadge;
  recommendations : list Recommendation;
  insights : option SummaryInsights;
}.

End Types.

Arguments StatCardData : clear implicits.
Arguments UsagePoint : clear implicits.
Arguments CostSegment : clear implicits.
Arguments DailyCostSnapshot : clear implicits.
Arguments WeekendWeekdayComparison : clear implicits.
Arguments QuarterUsageComparison : clear implicits.
Arguments PeakWindowInsight : clear implicits.
Arguments SummaryInsights : clear implicits.
Arguments AnalyticsSummary : clear implicits.

End Analytics.

(** ** Locale-aware formatting

    [lib/format.ts].  The [Intl] formatters are the platform's; they
    are parameters.  A date formatter raises a [RangeError] on a value
    that is not a date: its result is optional. *)

Module Format.

Inductive Language := fr | en.

Definition getLocale (language : Language) : jsstring :=
  match language with
  | fr => lit "fr-FR"
  | en => lit "en-GB"
  end.

(** The options the sources pass to [Intl.NumberFormat]. *)
Record NumberFormatOptions := {
  currency : option jsstring;        (* style: currency, with this currency *)
  maximumFractionDigits : nat;
}.

(** The options the sources pass to [Intl.DateTimeFormat]. *)
Record DateTimeFormatOptions := {
  dateStyle : jsstring;
  timeStyle : jsstring;
}.

Section Formatters.
Context {num : Type}.
Context (Intl_NumberFormat : jsstring -> NumberFormatOptions -> num -> jsstring).
Context (Intl_DateTimeFormat : jsstring -> DateTimeFormatOptions -> jsstring -> option jsstring).

(** [formatCurrency(value, language, options)]; the only option the
    sources pass is [maximumFractionDigits]. *)
Definition formatCurrencyWith (options : option nat) (value : num) (language : Language)
  : jsstring :=
  Intl_NumberFormat (getLocale language)
    {| currency := Some (lit "EUR");
       maximumFractionDigits := match options with Some d => d | None => 2 end |}
    value.

(** [formatCurrency(value, language)], no options given. *)
Definition formatCurrency : num -> Language -> jsstring := formatCurrencyWith None.

(** [formatNumber(value, language, options)]; the only option the
    sources pass is [maximumFractionDigits]. *)
Definition formatNumber (value : num) (language : Language) (options : option nat) : jsstring :=
  Intl_NumberFormat (getLocale language)
    {| currency := None;
       maximumFractionDigits := match options with Some d => d | None => 2 end |}
    value.

(** [formatDate(value, language, options)] of a string value; the only
    option the sources pass overrides [dateStyle]. *)
Definition formatDate (value : jsstring) (language : Language) (options : option jsstring)
  : option jsstring :=
  Intl_DateTimeFormat (getLocale language)
    {| dateStyle := match options with Some d => d | None => lit "medium" end;
       timeStyle := lit "short" |}
    value.

End Formatters.

End Format.

(** ** Report export: the report

    [buildReportCsv] of [app/analytics/page.tsx]. *)

Module Report.

Import Analytics Format Csv.

Definition EM_DASH : N := 8212.
Definition ARROW : N := 8594.
Definition DELTA : N := 916.
Definition SUBSCRIPT_TWO : N := 8322.

(** [\d], a full stop or a hyphen: what [/[^\d.-]/g] leaves in place. *)
Definition numeric_char (c : N) : bool :=
  ((48 <=? c) && (c <=? 57)) || (c =? 46) || (c =? 45).

Section Build.
Context {num : Type}.
Context (Number_toString : num -> jsstring).     (* String(n) and n in a template *)
Context (Number_ : jsstring -> num).             (* Number(s) *)
Context (isFinite : num -> bool).                (* Number.isFinite(n) *)
Context (of_nat : nat -> num).                   (* an array index plus one *)
Context (toLowerCase : jsstring -> jsstring).    (* s.toLowerCase() *)
Context (Intl_NumberFormat : jsstring -> NumberFormatOptions -> num -> jsstring).
Context (Intl_DateTimeFormat : jsstring -> DateTimeFormatOptions -> jsstring -> option jsstring).

Local Abbreviation formatCurrency := (formatCurrency Intl_NumberFormat).
Local Abbreviation formatNumber := (formatNumber Intl_NumberFormat).
Local Abbreviation formatDate := (formatDate Intl_DateTimeFormat).

(** [csvLine(a, b, c)] of three strings. *)
Definition row (a b c : jsstring) : jsstring :=
  csvLine Number_toString [VStr a; VStr b; VStr c].

Definition stat_lines (language : Language) (stat : StatCardData num) : list jsstring :=
  let numericValue :=
    match stat_value stat with
    | inl n => n
    | inr s => Number_ (List.filter numeric_char s)
    end in
  let isCost := includes (lit "cost") (toLowerCase (stat_title stat)) in
  let valueString :=
    if isFinite numericValue then
      if isCost then formatCurrency numericValue language
      else formatNumber numericValue language None
    else
      match stat_value stat with
      | inl n => Number_toString n
      | inr s => s
      end in
  let metricValue :=
    if truthy (stat_unit stat) then trim (valueString ++ lit " " ++ stat_unit stat)
    else valueString in
  [ row (lit "Stat") (stat_title stat) metricValue;
    row (lit "Stat") (stat_title stat ++ lit " change")
        (stat_change stat ++ lit " (" ++ stat_trend stat ++ lit ")") ].

Definition badge_lines (bs : list SummaryBadge) : list jsstring :=
  match bs with
  | [] => []
  | _ =>
      [] :: row (lit "Badges") (lit "Label") (lit "Value")
         :: map (fun badge => row (lit "Badge") (badge_label badge) (badge_value badge)) bs
  end.

Definition cost_lines (language : Language) (cs : list (CostSegment num)) : list jsstring :=
  match cs with
  | [] => []
  | _ =>
      [] :: row (lit "Cost Breakdown") (lit "Segment") (lit "Value")
         :: map (fun seg => row (lit "Cost Breakdown") (segment seg)
                                (formatCurrency (segment_value seg) language)) cs
  end.

Definition usage_lines (language : Language) (us : list (UsagePoint num)) : list jsstring :=
  match us with
  | [] => []
  | _ =>
      [] :: row (lit "Usage") (lit "Date") (lit "kWh")
         :: map (fun point => row (lit "Usage") (usage_date point)
                                  (formatNumber (usage_kwh point) language None)) us
  end.

(** [rec.content?.[language] ?? rec.content?.en] *)
Definition localized_of (language : Language) (rec : Recommendation)
  : option RecommendationLocalizedText :=
  match rec_content rec with
  | Some content =>
      match (match language with fr => content_fr content | en => content_en content end) with
      | Some l => Some l
      | None => content_en content
      end
  | None => None
  end.

Definition recommendation_lines (language : Language) (index : nat) (rec : Recommendation)
  : list jsstring :=
  let localized := localized_of language rec in
  let title :=
    match localized with
    | Some l => loc_title l
    | None => category rec ++ lit " #" ++ Number_toString (of_nat (index + 1))
    end in
  let impact :=
    match localized with
    | Some l => loc_impact l
    | None => impact_value (rec_impact rec)
    end in
  let tips :=
    join (lit " | ")
      (match localized with Some l => loc_tips l | None => rec_tips rec end) in
  row (lit "Recommendation") title impact
  :: (if truthy tips then [row (lit "Recommendation") (title ++ lit " tips") tips] else []).

Definition recommendations_lines (language : Language) (rs : list Recommendation)
  : list jsstring :=
  match rs with
  | [] => []
  | _ =>
      [] :: row (lit "Recommendation") (lit "Title") (lit "Details")
         :: concat (imap (recommendation_lines language) rs)
  end.

Definition medium : option jsstring := Some (lit "medium").

Definition weekend_lines (language : Language) (cmp : WeekendWeekdayComparison num)
  : list jsstring :=
  [ row (lit "Insight") (lit "Weekend avg cost per kWh")
        (formatCurrency (weekend_avg_cost_per_kwh cmp) language);
    row (lit "Insight") (lit "Weekday avg cost per kWh")
        (formatCurrency (weekday_avg_cost_per_kwh cmp) language);
    row (lit "Insight") (lit "Weekend avg daily cost")
        (formatCurrency (weekend_avg_daily_cost cmp) language);
    row (lit "Insight") (lit "Weekday avg daily cost")
        (formatCurrency (weekday_avg_daily_cost cmp) language) ].

Definition quarter_line (language : Language) (q : QuarterUsageComparison num) : jsstring :=
  row (lit "Insight") (lit "Quarter usage delta")
    ((start_label q ++ lit ": " ++ formatNumber (start_kwh q) language None
      ++ lit " kWh " ++ [ARROW] ++ lit " " ++ end_label q ++ lit ": "
      ++ formatNumber (end_kwh q) language None
      ++ lit " kWh (" ++ [DELTA] ++ lit " " ++ formatNumber (delta_kwh q) language None
      ++ lit " kWh)")
     ++ match delta_percent q with
        | Some p => lit " (" ++ formatNumber p language None ++ lit "%)"
        | None => []
        end).

Definition expensive_day_line (language : Language) (idx : nat) (day : DailyCostSnapshot num)
  : option jsstring :=
  d ← formatDate (day_date day) language medium;
  Some (row (lit "Insight")
            (lit "Top expensive day #" ++ Number_toString (of_nat (idx + 1)))
            (d ++ lit " " ++ [EM_DASH] ++ lit " " ++ formatCurrency (day_cost day) language)).

Definition peak_window_line (language : Language) (window : PeakWindowInsight num) : jsstring :=
  row (lit "Insight") (lit "Peak window")
    (Number_toString (start_hour window) ++ lit "h-"
     ++ Number_toString (end_hour window) ++ lit "h " ++ [EM_DASH] ++ lit " "
     ++ formatNumber (avg_kwh_per_day window) language None ++ lit " kWh/day").

Definition of_option {A} (f : A -> list jsstring) (o : option A) : list jsstring :=
  match o with
  | Some a => f a
  | None => []
  end.

Definition insights_lines (language : Language) (o : option (SummaryInsights num))
  : option (list jsstring) :=
  match o with
  | None => Some []
  | Some insights =>
      d ← formatDate (day_date (peak_day insights)) language medium;
      days ← mapM id (imap (expensive_day_line language) (top_expensive_days insights));
      Some
        ([ [];
           row (lit "Insights") (lit "Metric") (lit "Value");
           row (lit "Insight") (lit "Peak day")
             (d ++ lit " " ++ [EM_DASH] ++ lit " "
              ++ formatNumber (day_kwh (peak_day insights)) language None
              ++ lit " kWh / " ++ formatCurrency (day_cost (peak_day insights)) language) ]
         ++ of_option (weekend_lines language) (weekend_vs_weekday insights)
         ++ of_option (fun q => [quarter_line language q]) (quarter_usage insights)
         ++ days
         ++ of_option (fun w => [peak_window_line language w]) (peak_window insights)
         ++ [ row (lit "Insight") (lit "Average cost per kWh")
                (formatCurrency (average_cost_per_kwh insights) language);
              row (lit "Insight") (lit "Shift opportunity (kWh)")
                (formatNumber (shift_kwh insights) language None);
              row (lit "Insight") (lit "Days covered")
                (formatNumber (days_covered insights) language None);
              row (lit "Insight") (lit "CO" ++ [SUBSCRIPT_TWO] ++ lit " factor (kg/kWh)")
                (formatNumber (co2_factor insights) language (Some 3%nat)) ])
  end.

(** The array [lines] at the end of [buildReportCsv]. *)
Definition report_lines (summary : AnalyticsSummary num) (language : Language)
  : option (list jsstring) :=
  tail ← insights_lines language (insights summary);
  Some (row (lit "Section") (lit "Metric") (lit "Value")
        :: concat (map (stat_lines language) (stats summary))
        ++ badge_lines (badges summary)
        ++ cost_lines language (cost_breakdown summary)
        ++ usage_lines language (usage summary)
        ++ recommendations_lines language (recommendations summary)
        ++ tail).

(** [buildReportCsv(summary, language)]: [lines.join] with CR LF, or
    nothing when a date formatter raised. *)
Definition buildReportCsv (summary : AnalyticsSummary num) (language : Language)
  : option jsstring :=
  lines ← report_lines summary language;
  Some (join CRLF lines).

(** *** Every line of the report is blank or a record of three fields *)

Inductive report_line : jsstring -> Prop :=
| blank_line : report_line []
| row_line a b c : report_line (row a b c).

Local Hint Constructors report_line : core.

Lemma report_line_no_break l : report_line l -> Forall no_break l.
Proof. destruct 1; [constructor | apply csvLine_no_break]. Qed.

Lemma parse_row a b c :
  parse_record (row a b c) =
  Some [trim (replace_newlines a); trim (replace_newlines b); trim (replace_newlines c)].
Proof. unfold row. by rewrite parse_csvLine. Qed.

Lemma Forall_map_line {A} (f : A -> jsstring) (l : list A) :
  (forall x, report_line (f x)) -> Forall report_line (map f l).
Proof. intros H. apply Forall_map, Forall_forall. auto. Qed.

Lemma Forall_concat_line (ls : list (list jsstring)) :
  Forall (Forall report_line) ls -> Forall report_line (concat ls).
Proof. induction 1; simpl; [constructor | by apply Forall_app]. Qed.

Lemma stat_lines_ok language stat : Forall report_line (stat_lines language stat).
Proof. unfold stat_lines. repeat constructor. Qed.

Lemma badge_lines_ok bs : Forall report_line (badge_lines bs).
Proof.
  destruct bs; simpl; [constructor|].
  repeat (constructor; [done|]). by apply Forall_map_line.
Qed.

Lemma cost_lines_ok language cs : Forall report_line (cost_lines language cs).
Proof.
  destruct cs; simpl; [constructor|].
  repeat (constructor; [done|]). by apply Forall_map_line.
Qed.

Lemma usage_lines_ok language us : Forall report_line (usage_lines language us).
Proof.
  destruct us; simpl; [constructor|].
  repeat (constructor; [done|]). by apply Forall_map_line.
Qed.

Lemma recommendation_lines_ok language i rec :
  Forall report_line (recommendation_lines language i rec).
Proof.
  unfold recommendation_lines. constructor; [done|].
  destruct (truthy _); repeat constructor.
Qed.

Lemma imap_Forall {A B} (P : B -> Prop) (f : nat -> A -> B) (l : list A) :
  (forall i x, P (f i x)) -> Forall P (imap f l).
Proof.
  revert f. induction l as [|x l IH]; intros f H; simpl; constructor; [done|].
  apply IH. intros i y. apply H.
Qed.

Lemma recommendations_lines_ok language rs :
  Forall report_line (recommendations_lines language rs).
Proof.
  destruct rs as [|r rs]; [constructor|].
  unfold recommendations_lines.
  do 2 (constructor; [done|]).
  apply Forall_concat_line, imap_Forall. intros. apply recommendation_lines_ok.
Qed.

Lemma expensive_days_ok language (ds : list (DailyCostSnapshot num)) days :
  mapM id (imap (expensive_day_line language) ds) = Some days ->
  Forall report_line days.
Proof.
  rewrite mapM_Some. intros H.
  assert (Hall : Forall (fun o => forall d, o = Some d -> report_line d)
                        (imap (expensive_day_line language) ds)).
  { apply imap_Forall. intros i x d. unfold expensive_day_line.
    destruct (formatDate _ _ _); simpl; [|done]. by intros [= <-]. }
  induction H as [|o d os days Ho _ IH]; [constructor|].
  apply Forall_cons in Hall as [Hd Hall]. constructor; auto.
Qed.

Lemma of_option_ok {A} (f : A -> list jsstring) o :
  (forall a, Forall report_line (f a)) -> Forall report_line (of_option f o).
Proof. intros H. destruct o; simpl; [done | constructor]. Qed.

Lemma insights_lines_ok language o ls :
  insights_lines language o = Some ls -> Forall report_line ls.
Proof.
  destruct o as [insights|]; simpl; [|intros [= <-]; constructor].
  destruct (formatDate _ _ _) as [d|]; simpl; [|done].
  destruct (mapM _ _) as [days|] eqn:Hdays; simpl; [|done].
  intros [= <-]. repeat (constructor; [done|]).
  apply Forall_app; split.
  { apply of_option_ok. intros. unfold weekend_lines. repeat constructor. }
  apply Forall_app; split.
  { apply of_option_ok. intros. unfold quarter_line. repeat constructor. }
  apply Forall_app; split.
  { by eapply expensive_days_ok. }
  apply Forall_app; split.
  { apply of_option_ok. intros. unfold peak_window_line. repeat constructor. }
  repeat constructor.
Qed.

Lemma report_lines_ok summary language ls :
  report_lines summary language = Some ls ->
  Forall report_line ls /\ ls <> [].
Proof.
  unfold report_lines.
  destruct (insights_lines _ _) as [t|] eqn:Ht; simpl; [|done].
  intros [= <-]. split; [|done].
  constructor; [done|].
  repeat (apply Forall_app; split).
  - apply Forall_concat_line, Forall_map, Forall_forall.
    intros. apply stat_lines_ok.
  - apply badge_lines_ok.
  - apply cost_lines_ok.
  - apply usage_lines_ok.
  - apply recommendations_lines_ok.
  - by eapply insights_lines_ok.
Qed.

Lemma buildReportCsv_records summary language out :
  buildReportCsv summary language = Some out ->
  exists ls, report_lines summary language = Some ls
    /\ out = join CRLF ls
    /\ split_crlf out = ls
    /\ Forall report_line ls.
Proof.
  unfold buildReportCsv.
  destruct (report_lines _ _) as [ls|] eqn:Hls; simpl; [|done].
  intros [= <-]. exists ls.
  destruct (report_lines_ok _ _ _ Hls) as [Hok Hne].
  repeat split; [|done].
  destruct ls as [|l ls]; [done|].
  apply split_crlf_join.
  eapply Forall_impl; [exact Hok|]. apply report_line_no_break.
Qed.

(** The report is produced whenever the date formatter accepts the
    dates of the insights; with no insights it always is. *)
Lemma buildReportCsv_no_insights summary language :
  insights summary = None -> is_Some (buildReportCsv summary language).
Proof.
  intros H. unfold buildReportCsv, report_lines. rewrite H. simpl. eauto.
Qed.

(** C9 (amended to records of at least one field).  The text of a
    field is the value with its line breaks collapsed, each to one
    space, and the white space at its two ends taken away: it holds
    no line break and neither starts nor ends with white space.  An
    escaped field is that text with every double
    quote doubled, between two double quotes exactly when the doubled
    text holds a comma, a double quote or a semicolon, and as it is
    otherwise.  Reading a record of at least one field back under the
    usual quoting rules gives the texts of its fields, in order.  The
    report is its lines joined with CR LF, which occurs nowhere inside
    a line: splitting at CR LF gives the lines back, and every line is
    blank or the record of three fields, which it reads back as. *)
Theorem csv_export_round_trip :
  (forall v : value num,
     let text := field_text Number_toString v in
     let doubled :=
       concat (map (fun c => if c =? DQUOTE then [DQUOTE; DQUOTE] else [c]) text) in
     Forall no_break text
     /\ (forall c, head text = Some c \/ last text = Some c -> is_js_space c = false)
     /\ (exists spaced before after,
           collapsed (String_ Number_toString v) spaced
           /\ spaced = before ++ text ++ after
           /\ Forall (fun c => is_js_space c = true) before
           /\ Forall (fun c => is_js_space c = true) after)
     /\ ((exists c, In c doubled /\ (c = COMMA \/ c = DQUOTE \/ c = SEMICOLON)) ->
         escapeCsvValue Number_toString v = DQUOTE :: doubled ++ [DQUOTE])
     /\ (~ (exists c, In c doubled /\ (c = COMMA \/ c = DQUOTE \/ c = SEMICOLON)) ->
         escapeCsvValue Number_toString v = doubled))
  /\ (forall values : list (value num),
        values <> [] ->
        parse_record (csvLine Number_toString values)
        = Some (map (field_text Number_toString) values))
  /\ (forall summary language out,
        buildReportCsv summary language = Some out ->
        exists ls,
          report_lines summary language = Some ls
          /\ out = join CRLF ls
          /\ split_crlf out = ls
          /\ Forall (Forall no_break) ls
          /\ Forall (fun l => l = [] \/
                 exists a b c, l = row a b c /\
                   parse_record l = Some [trim (replace_newlines a);
                                          trim (replace_newlines b);
                                          trim (replace_newlines c)]) ls).
Proof.
  split; [|split].
  - intros v text doubled.
    split; [apply field_text_no_break|].
    split; [intros c; apply trim_ends|].
    split.
    { destruct (trim_spaces (replace_newlines (String_ Number_toString v)))
        as (before & after & Hs & Hb & Ha).
      exists (replace_newlines (String_ Number_toString v)), before, after.
      split; [apply replace_newlines_collapsed|]. by repeat split. }
    assert (Hd : double_quotes text = doubled) by apply double_quotes_concat.
    pose proof (needs_quoting_spec (double_quotes text)) as Hspec.
    unfold delimiter in Hspec. rewrite Hd in Hspec.
    destruct (escapeCsvValue_shape Number_toString v)
      as [[Ht ->]|[(Hne & Hn & ->)|(Hne & Hn & ->)]].
    + fold text in Ht. subst doubled. rewrite Ht. simpl.
      split; [by intros (c & [] & _)|done].
    + fold text in Hn |- *. rewrite Hd in Hn |- *.
      split; [done|]. intros Hno. destruct Hno. by apply Hspec.
    + fold text in Hn |- *. rewrite Hd in Hn |- *.
      split; [|done]. intros Hsome. apply Hspec in Hsome. congruence.
  - intros [|v vs] Hne; [done|]. apply parse_csvLine.
  - intros summary language out Hout.
    destruct (buildReportCsv_records _ _ _ Hout) as (ls & Hls & Hj & Hs & Hok).
    exists ls. repeat split; try done.
    + eapply Forall_impl; [exact Hok|]. apply report_line_no_break.
    + eapply Forall_impl; [exact Hok|]. intros l [|a b c]; [by left|].
      right. exists a, b, c. split; [done|]. apply parse_row.
Qed.

End Build.

End Report.


(** ** Values thrown and JSON

    What a [catch] clause may receive, and the values [JSON.parse]
    returns. *)

Module Exn.

(** A thrown value: an [Error] object with its message, or anything
    else. *)
Inductive thrown :=
| ErrorObject (message : jsstring)
| OtherValue.

(** [error instanceof Error ? error.message : ""] *)
Definition message_of (error : thrown) : jsstring :=
  match error with
  | ErrorObject m => m
  | OtherValue => []
  end.

(** JSON values.  An object lists its own properties, one entry per
    key; a number is kept as its source text. *)
#[warnings="-register-all"]
Inductive json :=
| JNull
| JBool (b : bool)
| JNumber (text : jsstring)
| JString (s : jsstring)
| JArray (items : list json)
| JObject (members : list (jsstring * json)).

(** [parsed && typeof parsed === "object"] *)
Definition is_object (parsed : json) : bool :=
  match parsed with
  | JArray _ | JObject _ => true
  | _ => false
  end.

Fixpoint lookup_member (key : jsstring) (members : list (jsstring * json)) : option json :=
  match members with
  | [] => None
  | (k, v) :: rest => if bool_decide (k = key) then Some v else lookup_member key rest
  end.

(** [key in parsed && typeof parsed[key] === "string" && parsed[key]]
    for one of the keys the sources read: the string when it is a
    non-empty string member, a falsy value (here the empty string)
    otherwise.  An array has none of these keys. *)
Definition string_member (key : jsstring) (parsed : json) : jsstring :=
  match parsed with
  | JObject members =>
      match lookup_member key members with
      | Some (JString s) => s
      | _ => []
      end
  | _ => []
  end.

End Exn.

(** ** Upload: the message of a failed upload

    The [catch] clause of [handleUpload] in
    [components/data-upload.tsx], and the failure path of
    [handleResponse] in [lib/api-client.ts] it receives its error from. *)

Module Upload.

Import Exn.

(** The entries of the [dataUpload] translations the handler reads. *)
Record Copy := {
  toastErrorTitle : jsstring;
  toastGenericDescription : jsstring;
  toastDuplicateDescription : jsstring;
}.

(** The destructive toast of the [catch] clause. *)
Record Toast := {
  title : jsstring;
  description : jsstring;
}.

Section Handler.
Context (JSON_parse : jsstring -> option json).   (* None: a SyntaxError *)
Context (toLowerCase : jsstring -> jsstring).

(** [rawMessage.trim().startsWith("{") || rawMessage.trim().startsWith("[")] *)
Definition looks_like_json (rawMessage : jsstring) : bool :=
  startsWith (lit "{") (trim rawMessage) || startsWith (lit "[") (trim rawMessage).

(** [a || b]: [a] when it is truthy, [b] otherwise. *)
Definition or_else (a b : jsstring) : jsstring := if truthy a then a else b.

(** The value of [message] when the toast is shown. *)
Definition error_description (copy : Copy) (error : thrown) : jsstring :=
  let rawMessage := message_of error in
  let message := rawMessage in
  let message :=
    if looks_like_json rawMessage then
      match JSON_parse rawMessage with
      | Some parsed =>
          if is_object parsed then
            or_else (string_member (lit "detail") parsed)
              (or_else (string_member (lit "message") parsed)
                 (or_else (string_member (lit "error") parsed)
                    (toastGenericDescription copy)))
          else message
      | None => toastGenericDescription copy
      end
    else message in
  let message :=
    if includes (lit "duplicate") (toLowerCase message)
    then toastDuplicateDescription copy else message in
  let message :=
    if negb (truthy message) then toastGenericDescription copy else message in
  message.

Definition error_toast (copy : Copy) (error : thrown) : Toast :=
  {| title := toastErrorTitle copy; description := error_description copy error |}.

(** *** The handler as the specification words it

    The detail the handler extracts from the error: the message as it
    is, or, when the message looks like JSON, the first non-empty
    string among the members [detail], [message] and [error] of the
    parsed object.  There is none when the text does not parse or the
    object has no such member. *)
Inductive extraction :=
| Detail (d : jsstring)
| NoDetail.

Definition first_member (parsed : json) : extraction :=
  match string_member (lit "detail") parsed,
        string_member (lit "message") parsed,
        string_member (lit "error") parsed with
  | (_ :: _) as d, _, _ => Detail d
  | [], (_ :: _) as m, _ => Detail m
  | [], [], (_ :: _) as e => Detail e
  | [], [], [] => NoDetail
  end.

Definition extract_detail (error : thrown) : extraction :=
  let rawMessage := message_of error in
  if looks_like_json rawMessage then
    match JSON_parse rawMessage with
    | Some parsed => if is_object parsed then first_member parsed else Detail rawMessage
    | None => NoDetail
    end
  else Detail rawMessage.

(** A detail mentions a duplicate when its lower-cased text includes
    the word. *)
Definition mentions_duplicate (d : jsstring) : bool :=
  includes (lit "duplicate") (toLowerCase d).

(** The [||] chain picks the first member, or the generic text. *)
Lemma or_else_chain parsed generic :
  or_else (string_member (lit "detail") parsed)
    (or_else (string_member (lit "message") parsed)
       (or_else (string_member (lit "error") parsed) generic))
  = match first_member parsed with Detail d => d | NoDetail => generic end.
Proof.
  unfold first_member, or_else.
  destruct (string_member (lit "detail") parsed); [|done].
  destruct (string_member (lit "message") parsed); [|done].
  by destruct (string_member (lit "error") parsed).
Qed.

Lemma first_member_truthy parsed d : first_member parsed = Detail d -> truthy d = true.
Proof.
  unfold first_member.
  destruct (string_member (lit "detail") parsed); [|by intros [= <-]].
  destruct (string_member (lit "message") parsed); [|by intros [= <-]].
  destruct (string_member (lit "error") parsed); [done|by intros [= <-]].
Qed.

(** The message before the two final tests. *)
Lemma error_description_eq copy error :
  error_description copy error =
  let message :=
    match extract_detail error with
    | Detail d => d
    | NoDetail => toastGenericDescription copy
    end in
  let message :=
    if mentions_duplicate message then toastDuplicateDescription copy else message in
  if negb (truthy message) then toastGenericDescription copy else message.
Proof.
  unfold error_description, extract_detail, mentions_duplicate.
  destruct (looks_like_json _); [|done].
  destruct (JSON_parse _) as [parsed|]; [|done].
  destruct (is_object parsed); [|done].
  rewrite or_else_chain. by destruct (first_member parsed).
Qed.

Section Message.
Context (copy : Copy).
Hypothesis duplicate_text_not_empty : toastDuplicateDescription copy <> [].
Hypothesis generic_text_is_neutral :
  mentions_duplicate (toastGenericDescription copy) = false.
Hypothesis toLowerCase_empty : toLowerCase [] = [].

(** A member that is not a non-empty string is passed over by the
    [||] chain. *)
Definition no_text (key : jsstring) (members : list (jsstring * json)) : Prop :=
  forall s, lookup_member key members = Some (JString s) -> s = [].

Lemma no_text_string_member key members :
  no_text key members -> string_member key (JObject members) = [].
Proof.
  intros H. simpl.
  destruct (lookup_member key members) as [[| | |s| |]|] eqn:Hkey; try done.
  by apply H.
Qed.

Lemma text_string_member key members d :
  lookup_member key members = Some (JString d) -> string_member key (JObject members) = d.
Proof. intros H. simpl. by rewrite H. Qed.

(** What the two final tests make of a text that is not empty. *)
Lemma shown_text copy0 d :
  toastDuplicateDescription copy0 <> [] -> d <> [] ->
  (let message :=
     if mentions_duplicate d then toastDuplicateDescription copy0 else d in
   if negb (truthy message) then toastGenericDescription copy0 else message)
  = if includes (lit "duplicate") (toLowerCase d) then toastDuplicateDescription copy0 else d.
Proof.
  intros Hdup Hd. unfold mentions_duplicate. simpl.
  destruct (includes _ _); [by destruct (toastDuplicateDescription copy0)|by destruct d].
Qed.

(** C6. The toast of a failed upload carries the error title, and its
    description is read off the message of the error.  When the
    message is a JSON object text, the detail is its [detail] member,
    or failing that its [message] member, or failing that its [error]
    member, each counting only as a non-empty string; when the message
    is not JSON-like, the detail is the message itself.  A detail
    whose lower-cased text includes the word duplicate is replaced by
    the dedicated already-uploaded text; any other detail is shown as
    it is.  The generic text is shown when the message is empty, when
    a JSON-like message does not parse, and when the object has none
    of the three members, or is an array. *)
Theorem upload_failure_message error :
  title (error_toast copy error) = toastErrorTitle copy
  /\ (forall members d,
        looks_like_json (message_of error) = true ->
        JSON_parse (message_of error) = Some (JObject members) ->
        d <> [] ->
        lookup_member (lit "detail") members = Some (JString d)
        \/ (no_text (lit "detail") members
            /\ lookup_member (lit "message") members = Some (JString d))
        \/ (no_text (lit "detail") members /\ no_text (lit "message") members
            /\ lookup_member (lit "error") members = Some (JString d)) ->
        description (error_toast copy error)
        = if includes (lit "duplicate") (toLowerCase d)
          then toastDuplicateDescription copy else d)
  /\ (looks_like_json (message_of error) = false -> message_of error <> [] ->
      description (error_toast copy error)
      = if includes (lit "duplicate") (toLowerCase (message_of error))
        then toastDuplicateDescription copy else message_of error)
  /\ (message_of error = [] ->
      description (error_toast copy error) = toastGenericDescription copy)
  /\ (looks_like_json (message_of error) = true -> JSON_parse (message_of error) = None ->
      description (error_toast copy error) = toastGenericDescription copy)
  /\ (forall members,
        looks_like_json (message_of error) = true ->
        JSON_parse (message_of error) = Some (JObject members) ->
        no_text (lit "detail") members -> no_text (lit "message") members ->
        no_text (lit "error") members ->
        description (error_toast copy error) = toastGenericDescription copy)
  /\ (forall items,
        looks_like_json (message_of error) = true ->
        JSON_parse (message_of error) = Some (JArray items) ->
        description (error_toast copy error) = toastGenericDescription copy).
Proof.
  split; [done|]. simpl description. rewrite error_description_eq.
  assert (Hgeneric :
    (let message := toastGenericDescription copy in
     let message :=
       if mentions_duplicate message then toastDuplicateDescription copy else message in
     if negb (truthy message) then toastGenericDescription copy else message)
    = toastGenericDescription copy).
  { simpl. rewrite generic_text_is_neutral. by destruct (toastGenericDescription copy). }
  unfold extract_detail.
  split; [|split; [|split; [|split; [|split]]]].
  - intros members d Hlooks Hparse Hd Hmember. rewrite Hlooks, Hparse.
    simpl is_object. cbv iota.
    assert (first_member (JObject members) = Detail d) as ->.
    { unfold first_member.
      destruct Hmember as [H|[(H1 & H)|(H1 & H2 & H)]].
      - rewrite (text_string_member _ _ _ H). by destruct d.
      - rewrite (no_text_string_member _ _ H1), (text_string_member _ _ _ H). by destruct d.
      - rewrite (no_text_string_member _ _ H1), (no_text_string_member _ _ H2),
          (text_string_member _ _ _ H). by destruct d. }
    by apply shown_text.
  - intros Hlooks Hm. rewrite Hlooks. by apply shown_text.
  - intros Hm. rewrite Hm. simpl. unfold mentions_duplicate.
    by rewrite toLowerCase_empty.
  - intros Hlooks Hparse. rewrite Hlooks, Hparse. exact Hgeneric.
  - intros members Hlooks Hparse H1 H2 H3. rewrite Hlooks, Hparse.
    simpl is_object. cbv iota.
    assert (first_member (JObject members) = NoDetail) as ->.
    { unfold first_member.
      by rewrite (no_text_string_member _ _ H1), (no_text_string_member _ _ H2),
        (no_text_string_member _ _ H3). }
    exact Hgeneric.
  - intros items Hlooks Hparse. rewrite Hlooks, Hparse. exact Hgeneric.
Qed.

End Message.

End Handler.

(** *** The error [handleResponse] throws for a response that is not ok

    The [throw] of the detail sits inside the [try] whose [catch]
    rethrows the whole body, so a non-empty body is always the
    message; the status line is used for an empty body, and for a body
    that parses to a value without a string [detail]. *)
Section Response.
Context {num : Type} (Number_toString : num -> jsstring).
Context (JSON_parse : jsstring -> option json).

(** [payload && typeof payload.detail === 'string'] *)
Definition has_string_detail (payload : json) : bool :=
  match payload with
  | JObject members =>
      match lookup_member (lit "detail") members with
      | Some (JString _) => true
      | _ => false
      end
  | _ => false
  end.

Definition handleResponse_error (status : num) (text : jsstring) : thrown :=
  let status_line := ErrorObject (lit "Request failed with status " ++ Number_toString status) in
  match JSON_parse text with
  | Some payload =>
      if has_string_detail payload then
        (* thrown inside the try, caught by its catch *)
        if truthy text then ErrorObject text else status_line
      else status_line
  | None => if truthy text then ErrorObject text else status_line
  end.

End Response.

End Upload.

(** ** Chat page: submitting a prompt

    [submitPrompt] of [app/chat/page.tsx], with [ChatResponse] of
    [types/chat.ts]. *)

Module Chat.

Import Exn.

Inductive Role := user | assistant.

(** A part of a message; every part the page builds has type [text]. *)
Record Part := { text : jsstring }.

Record ChatMessage := {
  id : jsstring;
  role : Role;
  parts : list Part;
}.

Record ChatResponse := {
  response_id : jsstring;            (* id *)
  content : jsstring;
  analysis : option jsstring;
  sql : option jsstring;
}.

(** The entries of the [chatPage] translations the handler reads. *)
Record Copy := {
  errorPrefix : jsstring;
  authRequired : jsstring;
}.

(** The state of the page. *)
Record State := {
  messages : list ChatMessage;
  isThinking : bool;
  pendingPrompt : option jsstring;
  errorMessage : option jsstring;
}.

(** How [await sendChatMessage(...)] ends: with the value
    [handleResponse] returned, which is [undefined] for a response
    without a body, or with a thrown value. *)
Inductive outcome :=
| Responded (response : option ChatResponse)
| Failed (error : thrown).

(** How a block of statements ends. *)
Inductive completion (A : Type) :=
| Normal (a : A)
| Throw (error : thrown).
Arguments Normal {A} a.
Arguments Throw {A} error.

(** [try { body } catch (error) { handler } finally { cleanup }] over a
    state: the handler runs on the state the body left when it threw
    (here the body throws before it changes anything), and the cleanup
    runs in every case. *)
Definition try_catch_finally (st : State) (body : State -> completion State)
    (handler : thrown -> State -> completion State) (cleanup : State -> State)
  : completion State :=
  match body st with
  | Normal st' => Normal (cleanup st')
  | Throw error =>
      match handler error st with
      | Normal st' => Normal (cleanup st')
      | Throw error' => Throw error'
      end
  end.

(** The destructive banner under the form, [errorMessage && ...]: the
    text it shows, if it is shown. *)
Definition error_banner (st : State) : option jsstring :=
  match errorMessage st with
  | Some ((_ :: _) as message) => Some message
  | _ => None
  end.

Section Submit.
Context (copy : Copy).
Context (accessToken : option jsstring).
(** The message of the [TypeError] raised by reading a property of
    [undefined]. *)
Context (type_error_message : jsstring).
(** [sendChatMessage(prompt, history, accessToken)] *)
Context (sendChatMessage : jsstring -> list (Role * jsstring) -> jsstring -> outcome).

(** The [content] of a history entry: the texts of the parts joined by
    line feeds. *)
Definition history_entry (message : ChatMessage) : Role * jsstring :=
  (role message, join [LF] (map text (parts message))).

Definition assistant_message (message_id body : jsstring) : ChatMessage :=
  {| id := message_id; role := assistant; parts := [ {| text := body |} ] |}.

Definition append_message (m : ChatMessage) (st : State) : State :=
  {| messages := messages st ++ [m];
     isThinking := isThinking st;
     pendingPrompt := pendingPrompt st;
     errorMessage := errorMessage st |}.

(** The body of the [try]: the request, then the reply appended. *)
Definition request_and_reply (trimmed token fresh_id : jsstring)
    (nextMessages : list ChatMessage) (st : State) : completion State :=
  let historyPayload := map history_entry nextMessages in
  match sendChatMessage trimmed historyPayload token with
  | Failed error => Throw error
  | Responded None => Throw (ErrorObject type_error_message)
  | Responded (Some response) =>
      let message_id :=
        if truthy (response_id response) then response_id response
        else lit "assistant-" ++ fresh_id in
      Normal (append_message (assistant_message message_id (content response)) st)
  end.

(** The [catch] clause: the error text goes to the banner and into an
    assistant message. *)
Definition recover (fresh_id : jsstring) (error : thrown) (st : State) : completion State :=
  let fallback := message_of error in
  let composed := errorPrefix copy ++ fallback in
  let st :=
    {| messages := messages st;
       isThinking := isThinking st;
       pendingPrompt := pendingPrompt st;
       errorMessage := Some composed |} in
  Normal (append_message (assistant_message (lit "assistant-" ++ fresh_id) composed) st).

(** The [finally] clause. *)
Definition settle (st : State) : State :=
  {| messages := messages st;
     isThinking := false;
     pendingPrompt := None;
     errorMessage := errorMessage st |}.

(** [submitPrompt(prompt)] run on the state [st]; [user_id] and
    [fresh_id] are what [generateId()] returns for the user message
    and for the assistant message. *)
Definition submitPrompt (user_id fresh_id : jsstring) (st : State) (prompt : jsstring)
  : completion State :=
  let trimmed := trim prompt in
  if negb (truthy trimmed) then Normal st
  else
    match accessToken with
    | Some ((_ :: _) as token) =>
        let userMessage :=
          {| id := lit "user-" ++ user_id; role := user;
             parts := [ {| text := trimmed |} ] |} in
        let nextMessages := messages st ++ [userMessage] in
        let st1 :=
          {| messages := nextMessages;
             isThinking := true;
             pendingPrompt := Some trimmed;
             errorMessage := None |} in
        try_catch_finally st1
          (request_and_reply trimmed token fresh_id nextMessages)
          (recover fresh_id)
          settle
    | _ =>
        Normal {| messages := messages st;
                  isThinking := isThinking st;
                  pendingPrompt := pendingPrompt st;
                  errorMessage := Some (errorPrefix copy ++ authRequired copy) |}
    end.

(** The error a failed request leaves in the [catch] clause. *)
Definition failure_of (o : outcome) : option thrown :=
  match o with
  | Failed error => Some error
  | Responded None => Some (ErrorObject type_error_message)
  | Responded (Some _) => None
  end.

(** C7 (amended: the failure is shown to the user).  When the request
    of a submitted prompt fails, whatever was thrown, [submitPrompt]
    still completes normally; the conversation is the old one, the
    user's message, and an assistant message that carries the error
    text behind the error prefix; the thinking flag and the pending
    prompt are cleared.  The failure is not hidden: the same text is
    the error message of the page, which the destructive banner shows
    whenever it is not empty. *)
Theorem failed_request_is_answered user_id fresh_id st prompt token error :
  trim prompt <> [] ->
  accessToken = Some token -> token <> [] ->
  failure_of (sendChatMessage (trim prompt)
                (map history_entry
                   (messages st ++ [ {| id := lit "user-" ++ user_id; role := user;
                                        parts := [ {| text := trim prompt |} ] |} ]))
                token) = Some error ->
  exists st',
    submitPrompt user_id fresh_id st prompt = Normal st'
    /\ messages st' =
         messages st
         ++ [ {| id := lit "user-" ++ user_id; role := user;
                 parts := [ {| text := trim prompt |} ] |};
              {| id := lit "assistant-" ++ fresh_id; role := assistant;
                 parts := [ {| text := errorPrefix copy ++ message_of error |} ] |} ]
    /\ isThinking st' = false
    /\ pendingPrompt st' = None
    /\ errorMessage st' = Some (errorPrefix copy ++ message_of error)
    /\ error_banner st' =
         (if truthy (errorPrefix copy ++ message_of error)
          then Some (errorPrefix copy ++ message_of error) else None).
Proof.
  intros Hp Hacc Ht Hfail. unfold submitPrompt. rewrite Hacc.
  destruct (trim prompt) as [|c p] eqn:Htrim; [done|]. simpl negb. cbv iota.
  destruct token as [|t token]; [done|].
  unfold try_catch_finally, request_and_reply.
  destruct (sendChatMessage _ _ _) as [[r|]|e]; cbn in Hfail; [done| |];
    injection Hfail as <-; cbn;
    (eexists; split; [reflexivity|]); cbn;
    (split; [by rewrite <- app_assoc|]);
    (do 3 (split; [done|])); unfold error_banner; cbn;
    by destruct (errorPrefix copy ++ _).
Qed.

(** Whatever the request does, a submitted prompt leaves the page out
    of the thinking state, with an assistant message last. *)
Lemma submitPrompt_settles user_id fresh_id st prompt token :
  trim prompt <> [] -> accessToken = Some token -> token <> [] ->
  exists st' m,
    submitPrompt user_id fresh_id st prompt = Normal st'
    /\ last (messages st') = Some m /\ role m = assistant
    /\ isThinking st' = false /\ pendingPrompt st' = None.
Proof.
  intros Hp Hacc Ht. unfold submitPrompt. rewrite Hacc.
  destruct (trim prompt) as [|c p] eqn:Htrim; [done|]. simpl negb. cbv iota.
  destruct token as [|t token]; [done|].
  unfold try_catch_finally, request_and_reply.
  destruct (sendChatMessage _ _ _) as [[r|]|e]; cbn;
    (eexists _, _; split; [reflexivity|]); cbn;
    rewrite last_snoc; done.
Qed.

End Submit.

End Chat.

(** ** The analytics dashboard

    What [AnalyticsPage] of [app/analytics/page.tsx] renders, through
    [StatsCards], [AIRecommendations], [ChartsSection] and
    [CostBreakdownChart] of [components/].  A component's output is
    the record of the data it puts on the page; layout and class names
    that do not depend on the data are left out. *)

Module Dashboard.

Import Analytics Format.

Inductive Icon := Zap | DollarSign | Leaf | TrendingUp | TrendingDown.

(** The names of the members every plain object inherits from
    [Object.prototype]: a lookup by key finds them on an object
    literal such as [iconMap] as it finds the object's own members. *)
Definition inherited_members : list jsstring :=
  [ lit "constructor"; lit "__defineGetter__"; lit "__defineSetter__";
    lit "hasOwnProperty"; lit "__lookupGetter__"; lit "__lookupSetter__";
    lit "isPrototypeOf"; lit "propertyIsEnumerable"; lit "toString";
    lit "valueOf"; lit "__proto__"; lit "toLocaleString" ].

Definition inherited (key : jsstring) : bool := bool_decide (key ∈ inherited_members).

(** What stands in the icon slot of a card: an icon component, or a
    text. *)
Inductive IconSlot :=
| Glyph (icon : Icon)
| Printed (text : jsstring).

(** [iconMap[stat.title] ?? Zap], rendered as [<Icon />]: nothing
    when the render throws.  The default is taken only for a title
    that is no member at all; an inherited member is found and is no
    icon.  React calls a function in the slot with the props and no
    receiver: [toString] then returns a text, which is rendered;
    [constructor] returns the props object, which React refuses as a
    child; the other functions throw a [TypeError] for the missing
    receiver; and [__proto__] is an object, which React refuses as an
    element type. *)
Definition stat_icon (title : jsstring) : option IconSlot :=
  if bool_decide (title = lit "Total Consumption") then Some (Glyph Zap)
  else if bool_decide (title = lit "Total Cost") then Some (Glyph DollarSign)
  else if bool_decide (title = lit "CO" ++ [8322] ++ lit " Emission") then Some (Glyph Leaf)
  else if bool_decide (title = lit "Peak Usage Day") then Some (Glyph TrendingUp)
  else if bool_decide (title = lit "toString") then Some (Printed (lit "[object Undefined]"))
  else if inherited title then None
  else Some (Glyph Zap).

(** [changeTone[stat.change_type]] *)
Definition changeTone (c : ChangeType) : jsstring :=
  match c with
  | increase => lit "bg-warning/10 text-warning"
  | decrease => lit "bg-success/10 text-success"
  | neutral => lit "bg-muted text-muted-foreground"
  end.

Record StatCard := {
  card_icon : IconSlot;
  card_title : jsstring;
  card_value : jsstring;
  card_unit : option jsstring;
  card_tone : jsstring;
  card_change : jsstring;
  card_trend : jsstring;
}.

Definition badgePalette : list jsstring :=
  [ lit "text-success bg-success/10";
    lit "text-primary bg-primary/10";
    lit "text-accent bg-accent/10";
    lit "text-muted-foreground bg-muted/20" ].

Definition colorPalette : list jsstring :=
  [ lit "hsl(var(--chart-3))";
    lit "hsl(var(--chart-1))";
    lit "hsl(var(--chart-2))";
    lit "hsl(var(--chart-4))" ].

(** [palette[index % palette.length]] *)
Definition pick (palette : list jsstring) (index : nat) : jsstring :=
  nth (index mod length palette) palette [].

Record BadgeChip := {
  chip_class : jsstring;
  chip_text : jsstring;
}.

(** [recommendationVisualMeta[rec.category] ?? recommendationVisualMeta.efficiency],
    for a category that is not the name of a member every object has. *)
Record Visual := {
  visual_icon : Icon;
  visual_gradient : jsstring;
  visual_color : jsstring;
}.

Definition efficiency_visual : Visual :=
  {| visual_icon := Zap;
     visual_gradient := lit "from-primary/15 via-accent/10 to-primary/25";
     visual_color := lit "text-primary" |}.

Definition recommendationVisualMeta (category : jsstring) : Visual :=
  if bool_decide (category = lit "cost_saving") then
    {| visual_icon := TrendingDown;
       visual_gradient := lit "from-success/20 via-success/10 to-success/20";
       visual_color := lit "text-success" |}
  else if bool_decide (category = lit "co2_reduction") then
    {| visual_icon := Leaf;
       visual_gradient := lit "from-emerald-200/30 via-emerald-200/20 to-emerald-300/40";
       visual_color := lit "text-success" |}
  else efficiency_visual.

(** [getLocalizedContent(rec, language)] *)
Definition getLocalizedContent (rec : Recommendation) (language : Language)
  : RecommendationLocalizedText :=
  let fallback :=
    {| loc_title := category rec;
       loc_impact := impact_value (rec_impact rec);
       loc_tips := match rec_tips rec with [] => [category rec] | tips => tips end |} in
  match rec_content rec with
  | Some content =>
      let localized :=
        match language with
        | fr => match content_fr content with Some l => Some l | None => content_en content end
        | en => match content_en content with Some l => Some l | None => content_fr content end
        end in
      match localized with
      | Some l => l
      | None => fallback
      end
  | None => fallback
  end.

Record RecommendationCard := {
  rc_key : jsstring;
  rc_visual : Visual;
  rc_title : jsstring;
  rc_impact : jsstring;
  rc_tips : list jsstring;
}.

Inductive RecommendationsBody :=
| Notice (message : jsstring)
| Grid (cards : list RecommendationCard).

(** The entries of the [aiRecommendationsCopy] translations, each of
    which may be missing. *)
Record PanelCopy := {
  copy_title : option jsstring;
  copy_description : option jsstring;
  copy_chatAria : option jsstring;
  copy_chatCta : option jsstring;
}.

Record RecommendationsPanel := {
  panel_title : jsstring;
  panel_description : jsstring;
  panel_chatAria : jsstring;
  panel_chatCta : jsstring;
  panel_badges : list BadgeChip;
  panel_body : RecommendationsBody;
}.

(** The notice shown in place of the recommendations. *)
Definition neutral_notice (language : Language) : jsstring :=
  match language with
  | fr => lit "Importer davantage de donn" ++ [233]
          ++ lit "es pour activer les recommandations."
  | en => lit "Upload more data to unlock tailored recommendations."
  end.

Definition badge_chips (bs : list SummaryBadge) : list BadgeChip :=
  imap (fun index badge =>
          {| chip_class := pick badgePalette index;
             chip_text := badge_label badge ++ lit ": " ++ badge_value badge |}) bs.

Definition recommendation_card (language : Language) (rec : Recommendation)
  : RecommendationCard :=
  let localized := getLocalizedContent rec language in
  {| rc_key := category rec ++ lit "-" ++ loc_title localized;
     rc_visual := recommendationVisualMeta (category rec);
     rc_title := loc_title localized;
     rc_impact := loc_impact localized;
     rc_tips := loc_tips localized |}.

Section Components.
Context {num : Type}.
Context (Number_toString : num -> jsstring).
Context (Number_ : jsstring -> num).
Context (isNaN : num -> bool).
Context (is_integer : num -> bool).              (* n % 1 === 0 *)
Context (toLowerCase : jsstring -> jsstring).
Context (Intl_NumberFormat : jsstring -> NumberFormatOptions -> num -> jsstring).
Context (statsTitles : jsstring -> option jsstring).   (* the [statsTitles] translations *)
Context (panelCopy : PanelCopy).
Context (language : Language).

(** One card of [StatsCards], or nothing when rendering it throws.
    The labels are an object of the translations, so that for a title
    that names an inherited member the label found is no string; it is
    a function, which React leaves out of the output. *)
Definition stat_card (stat : StatCardData num) : option StatCard :=
  let translatedTitle :=
    if inherited (stat_title stat) then []
    else
      match statsTitles (stat_title stat) with
      | Some l => l
      | None => stat_title stat
      end in
  let numericValue : option num :=
    match stat_value stat with
    | inl n => Some n
    | inr s =>
        let cleaned := Number_ (List.filter Report.numeric_char s) in
        if negb (isNaN cleaned) then Some cleaned else None
    end in
  let isCost := includes (lit "cost") (toLowerCase (stat_title stat)) in
  let displayValue :=
    match numericValue with
    | Some n =>
        if isCost then formatCurrency Intl_NumberFormat n language
        else formatNumber Intl_NumberFormat n language
               (Some (if is_integer n then 0 else 1)%nat)
    | None =>
        match stat_value stat with
        | inl n => Number_toString n
        | inr s => s
        end
    end in
  slot ← stat_icon (stat_title stat);
  Some {| card_icon := slot;
          card_title := translatedTitle;
          card_value := displayValue;
          card_unit := if truthy (stat_unit stat) then Some (stat_unit stat) else None;
          card_tone := changeTone (stat_change_type stat);
          card_change := stat_change stat;
          card_trend := stat_trend stat |}.

(** [StatsCards]: a card that throws takes the whole list with it. *)
Definition StatsCards (stats : list (StatCardData num)) : option (list StatCard) :=
  mapM stat_card stats.

Definition or_default (o : option jsstring) (d : jsstring) : jsstring :=
  match o with
  | Some s => s
  | None => d
  end.

Definition AIRecommendations (summary : AnalyticsSummary num) : RecommendationsPanel :=
  let recommendations := recommendations summary in
  {| panel_title := or_default (copy_title panelCopy) (lit "AI Recommendations");
     panel_description :=
       or_default (copy_description panelCopy)
         (lit "Curated improvements driven by your latest usage trends.");
     panel_chatAria :=
       or_default (copy_chatAria panelCopy) (lit "Open the conversational assistant");
     panel_chatCta := or_default (copy_chatCta panelCopy) (lit "Chat with your data");
     panel_badges := badge_chips (badges summary);
     panel_body :=
       if (length recommendations =? 0)%nat then Notice (neutral_notice language)
       else Grid (map (recommendation_card language) recommendations) |}.

(** The data of [CostBreakdownChart]: a pie cell and a legend entry per
    segment. *)
Record CostCell := {
  cell_name : jsstring;
  cell_value : num;
  cell_color : jsstring;
  cell_legend : jsstring;
}.

Definition CostBreakdownChart (data : list (CostSegment num)) : list CostCell :=
  imap (fun index seg =>
          {| cell_name := segment seg;
             cell_value := segment_value seg;
             cell_color := pick colorPalette index;
             cell_legend :=
               formatCurrencyWith Intl_NumberFormat (Some 0%nat) (segment_value seg) language |})
       data.

Record Charts := {
  usage_chart : list (UsagePoint num);       (* the data of [UsageChart] *)
  cost_chart : list CostCell;
}.

Definition ChartsSection (usage : list (UsagePoint num)) (costSegments : list (CostSegment num))
  : Charts :=
  {| usage_chart := usage; cost_chart := CostBreakdownChart costSegments |}.

Inductive PageBody :=
| Loading
| Board (cards : list StatCard) (panel : RecommendationsPanel) (charts : Charts)
| EmptyState
| RenderError.                       (* a component threw while rendering *)

(** The body of [AnalyticsPage] for the states [isLoading] and
    [analytics]. *)
Definition page_body (isLoading : bool) (analytics : option (AnalyticsSummary num)) : PageBody :=
  if isLoading then Loading
  else
    match analytics with
    | Some a =>
        match StatsCards (stats a) with
        | Some cards =>
            Board cards (AIRecommendations a) (ChartsSection (usage a) (cost_breakdown a))
        | None => RenderError
        end
    | None => EmptyState
    end.

(** The summary with other recommendations. *)
Definition with_recommendations (rs : list Recommendation) (summary : AnalyticsSummary num)
  : AnalyticsSummary num :=
  {| stats := stats summary;
     usage := usage summary;
     cost_breakdown := cost_breakdown summary;
     badges := badges summary;
     recommendations := rs;
     insights := insights summary |}.

Lemma imap_length_eq {A B} (f : nat -> A -> B) (l : list A) : length (imap f l) = length l.
Proof. revert f. induction l as [|x l IH]; intros f; simpl; [done|]. by rewrite IH. Qed.

Lemma Forall2_imap {A B} (P : A -> B -> Prop) (f : nat -> A -> B) (l : list A) :
  (forall i x, P x (f i x)) -> Forall2 P l (imap f l).
Proof.
  revert f. induction l as [|x l IH]; intros f H; simpl; constructor; [done|].
  apply IH. intros i y. apply H.
Qed.

(** The card of a stat whose title is no inherited member. *)
Lemma stat_card_regular (stat : StatCardData num) :
  inherited (stat_title stat) = false ->
  exists card icon,
    stat_card stat = Some card
    /\ card_icon card = Glyph icon
    /\ card_title card = match statsTitles (stat_title stat) with
                         | Some l => l
                         | None => stat_title stat
                         end
    /\ card_change card = stat_change stat
    /\ card_trend card = stat_trend stat
    /\ (forall n, stat_value stat = inl n ->
          card_value card
          = if includes (lit "cost") (toLowerCase (stat_title stat))
            then formatCurrency Intl_NumberFormat n language
            else formatNumber Intl_NumberFormat n language
                   (Some (if is_integer n then 0 else 1)%nat)).
Proof.
  intros Hreg. unfold stat_card, stat_icon. rewrite Hreg.
  assert (Hts : bool_decide (stat_title stat = lit "toString") = false).
  { apply bool_decide_eq_false. intros Heq. rewrite Heq in Hreg. done. }
  rewrite Hts.
  repeat case_bool_decide; simpl; eexists _, _;
    (split; [reflexivity|]); simpl; (do 4 (split; [reflexivity|]));
    by intros n ->.
Qed.

Lemma cards_regular (stats : list (StatCardData num)) cards :
  Forall (fun stat => inherited (stat_title stat) = false) stats ->
  mapM stat_card stats = Some cards ->
  Forall2
    (fun stat card =>
       (exists icon, card_icon card = Glyph icon)
       /\ card_title card = match statsTitles (stat_title stat) with
                            | Some l => l
                            | None => stat_title stat
                            end
       /\ card_change card = stat_change stat
       /\ card_trend card = stat_trend stat
       /\ (forall n, stat_value stat = inl n ->
             card_value card
             = if includes (lit "cost") (toLowerCase (stat_title stat))
               then formatCurrency Intl_NumberFormat n language
               else formatNumber Intl_NumberFormat n language
                      (Some (if is_integer n then 0 else 1)%nat)))
    stats cards.
Proof.
  intros Hreg Hmap. apply mapM_Some in Hmap.
  induction Hmap as [|stat card l k Hcard _ IH]; [constructor|].
  apply Forall_cons in Hreg as [Hs Hreg]. constructor; [|by apply IH].
  destruct (stat_card_regular stat Hs) as (c & icon & Hc & Hi & Ht & Hch & Htr & Hv).
  rewrite Hc in Hcard. injection Hcard as <-. eauto 10.
Qed.

(** With no recommendation the dashboard is rendered as with any, the
    notice standing for the cards of the recommendations: for stats
    whose titles are no inherited members there is one card per stat,
    with an icon, the translated title, the change and the trend of
    the stat and its value formatted, one chip per badge, the usage
    points and one cell per cost segment. *)
Lemma empty_recommendations_render (summary : AnalyticsSummary num) :
  recommendations summary = [] ->
  Forall (fun stat => inherited (stat_title stat) = false) (stats summary) ->
  exists cards panel,
    page_body false (Some summary) =
      Board cards panel
            {| usage_chart := usage summary;
               cost_chart := CostBreakdownChart (cost_breakdown summary) |}
    /\ Forall2
         (fun stat card =>
            (exists icon, card_icon card = Glyph icon)
            /\ card_title card = match statsTitles (stat_title stat) with
                                 | Some l => l
                                 | None => stat_title stat
                                 end
            /\ card_change card = stat_change stat
            /\ card_trend card = stat_trend stat
            /\ (forall n, stat_value stat = inl n ->
                  card_value card
                  = if includes (lit "cost") (toLowerCase (stat_title stat))
                    then formatCurrency Intl_NumberFormat n language
                    else formatNumber Intl_NumberFormat n language
                           (Some (if is_integer n then 0 else 1)%nat)))
         (stats summary) cards
    /\ panel_body panel =
         Notice (match language with
                 | fr => lit "Importer davantage de donn" ++ [233]
                         ++ lit "es pour activer les recommandations."
                 | en => lit "Upload more data to unlock tailored recommendations."
                 end)
    /\ Forall2 (fun badge chip =>
                  chip_text chip = badge_label badge ++ lit ": " ++ badge_value badge)
               (badges summary) (panel_badges panel)
    /\ Forall2 (fun seg cell =>
                  cell_name cell = segment seg /\ cell_value cell = segment_value seg)
               (cost_breakdown summary) (CostBreakdownChart (cost_breakdown summary)).
Proof.
  intros Hrec Hreg.
  assert (is_Some (mapM stat_card (stats summary))) as [cards Hmap].
  { apply mapM_is_Some. eapply Forall_impl; [exact Hreg|].
    intros stat Hs. simpl. destruct (stat_card_regular stat Hs) as (c & ? & -> & _).
    eauto. }
  exists cards, (AIRecommendations summary).
  split; [unfold page_body, StatsCards; by rewrite Hmap|].
  split; [by apply cards_regular|].
  split; [unfold AIRecommendations; rewrite Hrec; simpl; by destruct language|].
  split; [by apply Forall2_imap|by apply Forall2_imap].
Qed.

(** A title that names an inherited member other than [toString] has
    no card. *)
Lemma stat_card_inherited (stat : StatCardData num) :
  inherited (stat_title stat) = true -> stat_title stat <> lit "toString" ->
  stat_card stat = None.
Proof.
  intros Hin Hts. unfold stat_card.
  assert (stat_icon (stat_title stat) = None) as ->; [|done].
  unfold stat_icon. rewrite Hin.
  rewrite (bool_decide_false (stat_title stat = lit "toString")) by done.
  unfold inherited in Hin. apply bool_decide_eq_true in Hin.
  unfold inherited_members in Hin.
  repeat (apply elem_of_cons in Hin as [->|Hin]; [done|]).
  by apply elem_of_nil in Hin.
Qed.


End Components.

End Dashboard.

(** ** The backend core

    The FastAPI services ([backend/services/analytics.py],
    [chat_agent.py], [supabase_storage.py]) are not part of the sources
    at hand; from here to the concrete examples everything is modelled
    from the specification.  Texts are sequences of code points,
    calendar days are day numbers counted from 1970-01-01, energy and
    cost are exact rationals. *)

Module Core.

(** Modelled from the spec: the Reading of the data model,
    [{date, time?, kwh >= 0, cost >= 0}]; the time of day is in minutes
    since midnight. *)
Record Reading := {
  date : Z;
  time : option nat;
  kwh : Qc;
  cost : Qc;
}.

(** Modelled from the spec: a stored reading, which carries the
    [user_id] of the dataset it belongs to. *)
Record StoredRow := {
  user_id : jsstring;
  reading : Reading;
}.

End Core.

(** ** The scoped query sandbox *)

Module Sandbox.

Import Core.

(** Modelled from the spec: the verbs that statement validation
    refuses anywhere in the text, in any letter case
    ([insert|update|delete|drop|alter|attach|pragma]). *)
Definition forbidden_verbs : list jsstring :=
  [ lit "insert"; lit "update"; lit "delete"; lit "drop";
    lit "alter"; lit "attach"; lit "pragma" ].

(** Modelled from the spec: the case-insensitive search of the text
    for a refused verb. *)
Definition mentions_forbidden_verb (sql : jsstring) : bool :=
  existsb (fun verb => includes verb (lower sql)) forbidden_verbs.

(** Modelled from the spec: the single-statement rule of the missing
    validator; a single statement has no statement separator before its
    end. *)
Fixpoint single_statement (sql : jsstring) : bool :=
  match sql with
  | [] => true
  | c :: rest =>
      if c =? SEMICOLON then negb (truthy (trim rest)) else single_statement rest
  end.

(** Modelled from the spec: the failure taxonomy and the result of the
    Sandbox Executor. *)
Record SandboxResult := {
  rows : list StoredRow;
  row_count : nat;
  truncated : bool;
}.

Inductive outcome :=
| Answered (result : SandboxResult)
| RejectedStatement
| ExecutionTimeout
| ExecutionError.

(** Modelled from the spec: what the SQL engine of the missing chat
    service does with a statement on a database instance. *)
Inductive engine_result :=
| Returned (rows : list StoredRow)
| TimedOut
| Failed.

(** Modelled from the spec: the world a request runs in.  [durable] is
    the store of the storage collaborator; [instance] is the ephemeral
    database of the request under way, if any; [executed] lists the
    statements handed to the engine so far. *)
Record World := {
  durable : list StoredRow;
  instance : option (list StoredRow);
  executed : list jsstring;
}.

Section Executor.
(** Modelled from the spec: the SQL engine of the ephemeral database;
    it may change the instance it runs on. *)
Context (engine : jsstring -> list StoredRow -> list StoredRow * engine_result).
(** Modelled from the spec: the checks of the allowed schema and of the
    scoping predicate, rules (b) and (c) of statement validation. *)
Context (policy : jsstring -> jsstring -> bool).
(** Modelled from the spec: the row cap of rule (d). *)
Context (max_rows : nat).

(** Modelled from the spec: the rows of a user, the only ones loaded
    into the instance of that user's request. *)
Definition rows_of (caller : jsstring) (store : list StoredRow) : list StoredRow :=
  List.filter (fun r => bool_decide (user_id r = caller)) store.

(** Modelled from the spec: statement validation, rules (a) to (c). *)
Definition validate (caller sql : jsstring) : bool :=
  single_statement sql && negb (mentions_forbidden_verb sql) && policy caller sql.

(** Modelled from the spec: step 3, truncation at the cap. *)
Definition cap (returned : list StoredRow) : SandboxResult :=
  {| rows := take max_rows returned;
     row_count := length (take max_rows returned);
     truncated := (max_rows <? length returned)%nat |}.

(** Modelled from the spec: step 1, the instance of the request holds
    the caller's rows and no other. *)
Definition populate (caller : jsstring) (w : World) : World :=
  {| durable := durable w;
     instance := Some (rows_of caller (durable w));
     executed := executed w |}.

(** Modelled from the spec: step 3, the statement handed to the
    engine on the instance of the request. *)
Definition execute (sql : jsstring) (w : World) : World * engine_result :=
  match instance w with
  | Some db =>
      let '(db', r) := engine sql db in
      ({| durable := durable w; instance := Some db'; executed := executed w ++ [sql] |}, r)
  | None => (w, Failed)
  end.

(** Modelled from the spec: step 4, the instance does not outlive the
    request. *)
Definition tear_down (w : World) : World :=
  {| durable := durable w; instance := None; executed := executed w |}.

(** Modelled from the spec: the Sandbox Executor, steps 1 to 4:
    populate the instance with the caller's rows, validate, execute,
    tear down on every path. *)
Definition run (caller sql : jsstring) (w : World) : World * outcome :=
  let w1 := populate caller w in
  if validate caller sql then
    let '(w2, r) := execute sql w1 in
    (tear_down w2,
     match r with
     | Returned returned => Answered (cap returned)
     | TimedOut => ExecutionTimeout
     | Failed => ExecutionError
     end)
  else (tear_down w1, RejectedStatement).

Lemma lower_app a b : lower (a ++ b) = lower a ++ lower b.
Proof. apply map_app. Qed.

Lemma mentions_forbidden_verb_intro verb before word after :
  verb ∈ forbidden_verbs -> lower word = verb ->
  mentions_forbidden_verb (before ++ word ++ after) = true.
Proof.
  intros Hin Hw. unfold mentions_forbidden_verb.
  apply existsb_exists. exists verb. split; [by apply list_elem_of_In|].
  rewrite !lower_app, Hw. apply includes_app.
Qed.

Lemma validate_forbidden caller sql :
  mentions_forbidden_verb sql = true -> validate caller sql = false.
Proof.
  intros H. unfold validate. rewrite H. simpl. by rewrite andb_false_r.
Qed.

Lemma rows_of_owner caller store r :
  r ∈ rows_of caller store <-> r ∈ store /\ user_id r = caller.
Proof.
  unfold rows_of. rewrite !list_elem_of_In, filter_In.
  by rewrite bool_decide_eq_true.
Qed.

(** Modelled from the spec: the verbs the testable property of the
    Sandbox Executor names. *)
Definition named_verbs : list jsstring :=
  [ lit "drop"; lit "delete"; lit "update"; lit "insert"; lit "attach"; lit "pragma" ].

Lemma named_verbs_forbidden verb : verb ∈ named_verbs -> verb ∈ forbidden_verbs.
Proof.
  unfold named_verbs, forbidden_verbs. rewrite !elem_of_cons.
  intros [->|[->|[->|[->|[->|[->|H]]]]]]; [tauto..|].
  by apply elem_of_nil in H.
Qed.

(** C2.  A statement whose text holds one of DROP, DELETE, UPDATE,
    INSERT, ATTACH or PRAGMA, in any letter case and at any place, is
    answered with [RejectedStatement]; the durable store is as before,
    nothing was handed to the engine, and no instance is left. *)
Theorem forbidden_statement_rejected caller sql w verb before word after :
  verb ∈ named_verbs ->
  lower word = verb ->
  sql = before ++ word ++ after ->
  run caller sql w =
    ({| durable := durable w; instance := None; executed := executed w |},
     RejectedStatement).
Proof.
  intros Hverb Hword ->. unfold run.
  rewrite validate_forbidden; [done|].
  eapply mentions_forbidden_verb_intro; [|done].
  by apply named_verbs_forbidden.
Qed.

(** A rejected or answered request leaves no instance behind and the
    durable store as it was. *)
Lemma run_frame caller sql w :
  durable (fst (run caller sql w)) = durable w
  /\ instance (fst (run caller sql w)) = None.
Proof.
  unfold run. destruct (validate caller sql); [|done].
  unfold execute. simpl. by destruct (engine _ _).
Qed.

Section Isolation.
(** A read statement returns rows of the instance it runs on. *)
Hypothesis engine_selects :
  forall sql db db' returned,
    engine sql db = (db', Returned returned) -> Forall (fun r => r ∈ db) returned.

(** C1.  Every row a request of user [A] is answered with is a stored
    row of [A], never one of another user [B], whatever the statement
    says; and the answer is the same in every world where [A] has the
    same rows, whatever the other users' rows are. *)
Theorem sandbox_isolation (A B sql : jsstring) w w' result :
  A <> B ->
  run A sql w = (w', Answered result) ->
  Forall (fun r => r ∈ durable w /\ user_id r = A /\ user_id r <> B) (rows result)
  /\ (forall v, rows_of A (durable v) = rows_of A (durable w) ->
        snd (run A sql v) = Answered result).
Proof.
  intros HAB. unfold run.
  destruct (validate A sql); [|done].
  unfold execute. simpl.
  destruct (engine sql (rows_of A (durable w))) as [db' r] eqn:Heng.
  destruct r as [returned| |]; [|done..].
  intros [= <- <-]. split.
  - apply engine_selects in Heng. simpl.
    apply Forall_take. eapply Forall_impl; [exact Heng|].
    intros r [Hr <-]%rows_of_owner. done.
  - intros v Hv. rewrite Hv, Heng. done.
Qed.

End Isolation.

End Executor.

End Sandbox.

(** ** Metric aggregation and insights *)

Module Insight.

Import Core.
Local Open Scope Qc_scope.

(** Modelled from the spec: [total_kwh] of the Metric Aggregator, the
    sum of the energy of the readings. *)
Definition total_kwh (rs : list Reading) : Qc := foldr (fun r acc => kwh r + acc) 0 rs.

(** Modelled from the spec: [total_cost], the sum of the costs. *)
Definition total_cost (rs : list Reading) : Qc := foldr (fun r acc => cost r + acc) 0 rs.

(** Modelled from the spec: a day put at its place among distinct days
    in ascending order. *)
Fixpoint insert_day (d : Z) (ds : list Z) : list Z :=
  match ds with
  | [] => [d]
  | e :: ds' =>
      if (d <? e)%Z then d :: ds
      else if (d =? e)%Z then ds
      else e :: insert_day d ds'
  end.

(** Modelled from the spec: the distinct days of the readings, in
    ascending order. *)
Definition days (rs : list Reading) : list Z :=
  foldr (fun r acc => insert_day (date r) acc) [] rs.

(** Modelled from the spec: the readings of one day. *)
Definition on_day (d : Z) (rs : list Reading) : list Reading :=
  List.filter (fun r => (date r =? d)%Z) rs.

(** Modelled from the spec: a day with its energy and cost. *)
Record DailyCostSnapshot := {
  day : Z;
  day_kwh : Qc;
  day_cost : Qc;
}.

(** Modelled from the spec: the daily series, one point per distinct
    date present, sums over the readings of the day, by date ascending. *)
Definition daily (rs : list Reading) : list DailyCostSnapshot :=
  map (fun d => {| day := d;
                   day_kwh := total_kwh (on_day d rs);
                   day_cost := total_cost (on_day d rs) |})
      (days rs).

(** Modelled from the spec: the day with maximum kWh, ties broken by
    the earliest date. *)
Fixpoint peak_of (best : DailyCostSnapshot) (rest : list DailyCostSnapshot)
  : DailyCostSnapshot :=
  match rest with
  | [] => best
  | s :: rest' =>
      peak_of (if Qclt_le_dec (day_kwh best) (day_kwh s) then s else best) rest'
  end.

(** Modelled from the spec: the peak day of the readings, if there is
    a day at all. *)
Definition peak (rs : list Reading) : option DailyCostSnapshot :=
  match daily rs with
  | [] => None
  | s :: rest => Some (peak_of s rest)
  end.

(** Modelled from the spec: the ISO weekday of a day number, Monday 1
    to Sunday 7; day 0, 1970-01-01, is a Thursday. *)
Definition iso_weekday (d : Z) : Z := ((d + 3) mod 7 + 1)%Z.

(** Modelled from the spec: Saturday and Sunday make the weekend. *)
Definition is_weekend (s : DailyCostSnapshot) : bool := (6 <=? iso_weekday (day s))%Z.

(** Modelled from the spec: the energy and the cost of a set of days. *)
Definition sum_kwh (ss : list DailyCostSnapshot) : Qc := foldr (fun s acc => day_kwh s + acc) 0 ss.

(** Modelled from the spec: the cost of a set of days. *)
Definition sum_cost (ss : list DailyCostSnapshot) : Qc := foldr (fun s acc => day_cost s + acc) 0 ss.

(** Modelled from the spec: a count as a rational, to divide by. *)
Definition count (n : nat) : Qc := Qc_of_Z (Z.of_nat n).

(** Modelled from the spec: [cost / kwh] when [kwh > 0], else [0]. *)
Definition cost_per_kwh (c k : Qc) : Qc :=
  if Qclt_le_dec 0 k then c / k else 0.

(** Modelled from the spec: the weekend against weekday comparison. *)
Record WeekendWeekdayComparison := {
  weekend_avg_cost_per_kwh : Qc;
  weekday_avg_cost_per_kwh : Qc;
  weekend_avg_daily_cost : Qc;
  weekday_avg_daily_cost : Qc;
  weekend_days : nat;
  weekday_days : nat;
}.

(** Modelled from the spec: weekend against weekday; it needs at least
    one day in each partition. *)
Definition weekend_vs_weekday_of (rs : list Reading) : option WeekendWeekdayComparison :=
  let weekend := List.filter is_weekend (daily rs) in
  let weekday := List.filter (fun s => negb (is_weekend s)) (daily rs) in
  match weekend, weekday with
  | _ :: _, _ :: _ =>
      Some {| weekend_avg_cost_per_kwh := cost_per_kwh (sum_cost weekend) (sum_kwh weekend);
              weekday_avg_cost_per_kwh := cost_per_kwh (sum_cost weekday) (sum_kwh weekday);
              weekend_avg_daily_cost := sum_cost weekend / count (length weekend);
              weekday_avg_daily_cost := sum_cost weekday / count (length weekday);
              weekend_days := length weekend;
              weekday_days := length weekday |}
  | _, _ => None
  end.

(** Modelled from the spec: the quarter usage comparison. *)
Record QuarterUsageComparison := {
  start_kwh : Qc;
  end_kwh : Qc;
  delta_kwh : Qc;
  delta_percent : option Qc;
}.

(** Modelled from the spec: the quarter usage delta.  The range from
    the first to the last day is split in two halves by elapsed time;
    it needs a range of more than one day. *)
Definition quarter_usage_of (rs : list Reading) : option QuarterUsageComparison :=
  match days rs with
  | first :: (_ :: _) as later =>
      let final := List.last later first in
      let first_half :=
        List.filter (fun r => (2 * (date r - first) <? final - first + 1)%Z) rs in
      let second_half :=
        List.filter (fun r => negb (2 * (date r - first) <? final - first + 1)%Z) rs in
      let s := total_kwh first_half in
      let e := total_kwh second_half in
      Some {| start_kwh := s;
              end_kwh := e;
              delta_kwh := e - s;
              delta_percent :=
                if Qclt_le_dec 0 s then Some ((e - s) / s * count 100) else None |}
  | _ => None
  end.

(** Modelled from the spec: the Insights record, with the fields the
    properties below read; the peak window, the shift estimate and the
    top expensive days, whose thresholds the specification leaves open,
    are not part of the model. *)
Record Insights := {
  peak_day : DailyCostSnapshot;
  weekend_vs_weekday : option WeekendWeekdayComparison;
  quarter_usage : option QuarterUsageComparison;
  average_cost_per_kwh : Qc;
  days_covered : nat;
  co2_factor : Qc;
}.

(** Modelled from the spec: the Insight Generator; it fails
    ([InsufficientData]) when there is no day of data. *)
Definition compute_insights (factor : Qc) (rs : list Reading) : option Insights :=
  match peak rs with
  | None => None
  | Some p =>
      Some {| peak_day := p;
              weekend_vs_weekday := weekend_vs_weekday_of rs;
              quarter_usage := quarter_usage_of rs;
              average_cost_per_kwh := cost_per_kwh (total_cost rs) (total_kwh rs);
              days_covered := length (days rs);
              co2_factor := factor |}
  end.

Lemma insert_day_not_nil d ds : insert_day d ds <> [].
Proof. destruct ds as [|e ds]; simpl; [done|]. by repeat case_match. Qed.

Lemma days_not_nil rs : rs <> [] -> days rs <> [].
Proof. destruct rs; [done|]. intros _. apply insert_day_not_nil. Qed.

(** Insights are computed for every non-empty reading sequence. *)
Lemma compute_insights_total factor rs :
  rs <> [] -> is_Some (compute_insights factor rs).
Proof.
  intros H. unfold compute_insights, peak, daily.
  destruct (days rs) eqn:E; [by apply days_not_nil in E|]. simpl. eauto.
Qed.

(** C4.  In every computed Insights record the average cost per kWh
    is the total cost over the total energy when that energy is
    positive, which makes it the factor that gives the total cost back,
    and it is zero when the total energy is zero. *)
Theorem average_cost_per_kwh_spec factor rs ins :
  compute_insights factor rs = Some ins ->
  (0 < total_kwh rs ->
     average_cost_per_kwh ins = total_cost rs / total_kwh rs
     /\ average_cost_per_kwh ins * total_kwh rs = total_cost rs)
  /\ (total_kwh rs = 0 -> average_cost_per_kwh ins = 0).
Proof.
  unfold compute_insights. destruct (peak rs); [|done].
  intros [= <-]. simpl. unfold cost_per_kwh. split.
  - intros Hpos. destruct (Qclt_le_dec 0 (total_kwh rs)) as [_|Hle].
    + split; [done|]. rewrite Qcmult_comm. apply Qcmult_div_r.
      intros Hz. rewrite Hz in Hpos. by apply Qclt_not_eq in Hpos.
    + by apply Qcle_not_lt in Hle.
  - intros Hz. rewrite Hz. by destruct (Qclt_le_dec 0 0).
Qed.

(** *** A dataset of a single calendar day *)

Lemma insert_day_same d : insert_day d [d] = [d].
Proof. simpl. by rewrite Z.ltb_irrefl, Z.eqb_refl. Qed.

Lemma days_single d rs :
  rs <> [] -> Forall (fun r => date r = d) rs -> days rs = [d].
Proof.
  intros Hne Hall. induction Hall as [|r rs Hr Hall IH]; [done|].
  simpl. rewrite Hr. destruct rs as [|r' rs]; [done|].
  rewrite IH by done. apply insert_day_same.
Qed.

Lemma on_day_all d rs : Forall (fun r => date r = d) rs -> on_day d rs = rs.
Proof.
  induction 1 as [|r rs Hr _ IH]; [done|].
  unfold on_day in *. simpl. rewrite Hr, Z.eqb_refl. by rewrite IH.
Qed.

Lemma daily_single d rs :
  rs <> [] -> Forall (fun r => date r = d) rs ->
  daily rs = [ {| day := d; day_kwh := total_kwh rs; day_cost := total_cost rs |} ].
Proof.
  intros Hne Hall. unfold daily. rewrite (days_single d) by done.
  simpl. by rewrite on_day_all.
Qed.

(** C5.  For a dataset whose readings all fall on one calendar day
    the insights are computed, the quarter usage and the weekend
    against weekday comparison are absent, the peak day is that day
    with the totals of the dataset, and the average cost per kWh is
    the quotient of the totals (zero for no energy). *)
Theorem single_day_insights factor d rs :
  rs <> [] ->
  Forall (fun r => date r = d) rs ->
  exists ins,
    compute_insights factor rs = Some ins
    /\ quarter_usage ins = None
    /\ weekend_vs_weekday ins = None
    /\ peak_day ins = {| day := d; day_kwh := total_kwh rs; day_cost := total_cost rs |}
    /\ average_cost_per_kwh ins = cost_per_kwh (total_cost rs) (total_kwh rs)
    /\ days_covered ins = 1%nat.
Proof.
  intros Hne Hall.
  pose proof (daily_single d rs Hne Hall) as Hdaily.
  pose proof (days_single d rs Hne Hall) as Hdays.
  unfold compute_insights, peak. rewrite Hdaily. simpl.
  eexists. split; [reflexivity|]. simpl.
  split; [unfold quarter_usage_of; by rewrite Hdays|].
  split.
  { unfold weekend_vs_weekday_of. rewrite Hdaily. simpl.
    by destruct (is_weekend _). }
  split; [done|]. split; [done|]. by rewrite Hdays.
Qed.

End Insight.

(** ** The fingerprint of a dataset *)

Module Fingerprint.

Import Core.

(** Modelled from the spec: the order the tuples are sorted by is the
    lexicographic one; here for pairs, over two orders. *)
Definition lex {A B : Type} (RA : relation A) (RB : relation B) : relation (A * B) :=
  fun p q => (p.1 <> q.1 /\ RA p.1 q.1) \/ (p.1 = q.1 /\ RB p.2 q.2).

Section Lex.
Context {A B : Type} (RA : relation A) (RB : relation B).
Context `{!EqDecision A}.

#[export] Instance lex_dec `{!RelDecision RA, !RelDecision RB} : RelDecision (lex RA RB).
Proof. intros p q. unfold lex. apply _. Defined.

#[export] Instance lex_total `{!Total RA, !Total RB} : Total (lex RA RB).
Proof.
  intros [a b] [a' b']. unfold lex. simpl.
  destruct (decide (a = a')) as [->|Hne].
  - destruct (total RB b b'); [left|right]; right; done.
  - destruct (total RA a a'); [left|right]; left; split; congruence.
Qed.

#[export] Instance lex_trans `{!Transitive RA, !AntiSymm (=) RA, !Transitive RB} :
  Transitive (lex RA RB).
Proof.
  intros [a b] [a' b'] [a'' b'']. unfold lex. simpl.
  intros [[Hne H]|[-> H]] [[Hne' H']|[-> H']].
  - left. split; [|by etrans].
    intros ->. apply Hne. by apply (anti_symm RA).
  - left. done.
  - left. done.
  - right. split; [done|by etrans].
Qed.

#[export] Instance lex_antisymm `{!AntiSymm (=) RA, !AntiSymm (=) RB} :
  AntiSymm (=) (lex RA RB).
Proof.
  intros [a b] [a' b']. unfold lex. simpl.
  intros [[Hne H]|[Heq H]] [[Hne' H']|[Heq' H']]; try congruence.
  - destruct Hne. by apply (anti_symm RA).
  - subst a'. f_equal. by apply (anti_symm RB).
Qed.

End Lex.

(** Modelled from the spec: the order of the times of day; no time
    comes first. *)
Definition option_le (o1 o2 : option nat) : Prop :=
  match o1, o2 with
  | None, _ => True
  | Some _, None => False
  | Some a, Some b => (a <= b)%nat
  end.

#[export] Instance option_le_dec : RelDecision option_le.
Proof. intros [a|] [b|]; simpl; apply _. Defined.

#[export] Instance option_le_total : Total option_le.
Proof. intros [a|] [b|]; simpl; auto. lia. Qed.

#[export] Instance option_le_trans : Transitive option_le.
Proof. intros [a|] [b|] [c|]; simpl; try done. lia. Qed.

#[export] Instance option_le_antisymm : AntiSymm (=) option_le.
Proof. intros [a|] [b|]; simpl; try done. intros. f_equal. lia. Qed.

(** Modelled from the spec: the semantic content of a reading, the
    tuple [(date, time-or-null, kwh, cost)]. *)
Definition tuple : Type := Z * (option nat * (Qc * Qc)).

Definition tuple_of (r : Reading) : tuple := (date r, (time r, (kwh r, cost r))).

(** Modelled from the spec: the order of the tuples, by date, then
    time, then energy, then cost. *)
Definition tuple_le : relation tuple := lex Z.le (lex option_le (lex Qcle Qcle)).

#[export] Instance tuple_le_dec : RelDecision tuple_le.
Proof. unfold tuple_le. apply _. Defined.
#[export] Instance tuple_le_total : Total tuple_le.
Proof. unfold tuple_le. apply _. Qed.
#[export] Instance tuple_le_trans : Transitive tuple_le.
Proof. unfold tuple_le. apply _. Qed.
#[export] Instance tuple_le_antisymm : AntiSymm (=) tuple_le.
Proof. unfold tuple_le. apply _. Qed.

(** Modelled from the spec: the sorted tuples of the readings. *)
Definition canonical (rs : list Reading) : list tuple :=
  merge_sort tuple_le (map tuple_of rs).

Lemma canonical_Permutation rs : canonical rs ≡ₚ map tuple_of rs.
Proof. apply merge_sort_Permutation. Qed.

Lemma canonical_eq_iff rs rs' :
  canonical rs = canonical rs' <-> map tuple_of rs ≡ₚ map tuple_of rs'.
Proof.
  split.
  - intros H. by rewrite <- (canonical_Permutation rs), H, canonical_Permutation.
  - intros H. apply (Sorted_unique tuple_le).
    + apply (Sorted_merge_sort tuple_le).
    + apply (Sorted_merge_sort tuple_le).
    + by rewrite !canonical_Permutation.
Qed.

Section Digest.
(** Modelled from the spec: the digest function of the missing
    Fingerprint Engine, over the user identity and the sorted tuples. *)
Context {D : Type} (digest : jsstring * list tuple -> D).

(** Modelled from the spec: what the digest is taken of, the sorted
    tuples combined with the [user_id] as a scoping component. *)
Definition digest_input (uid : jsstring) (rs : list Reading) : jsstring * list tuple :=
  (uid, canonical rs).

(** Modelled from the spec: the fingerprint of the readings of a
    user. *)
Definition fingerprint (uid : jsstring) (rs : list Reading) : D :=
  digest (digest_input uid rs).

End Digest.

(** The input of the digest tells the user and the tuples, up to their
    order, and nothing else. *)
Lemma digest_input_eq_iff uid uid' rs rs' :
  digest_input uid rs = digest_input uid' rs'
  <-> uid = uid' /\ map tuple_of rs ≡ₚ map tuple_of rs'.
Proof.
  unfold digest_input. rewrite <- canonical_eq_iff. split.
  - by intros [= -> ->].
  - by intros [-> ->].
Qed.

End Fingerprint.

(** ** The reading normalizer *)

Module Normalizer.

Import Core.
Local Open Scope Qc_scope.

(** Modelled from the spec: two header cells name the same column when
    they differ by letter case only, the header match being
    case-insensitive. *)
Definition same_name (a b : jsstring) : Prop := lower a = lower b.

(** Modelled from the spec: the position of the column of a name in
    the header, the match being case-insensitive. *)
Fixpoint column (name : jsstring) (header : list jsstring) : option nat :=
  match header with
  | [] => None
  | c :: rest =>
      if bool_decide (lower c = name) then Some 0%nat else S <$> column name rest
  end.

(** Modelled from the spec: the two accepted column layouts,
    [datetime,kwh[,cost]] and [date,time,kwh[,cost]], found by header
    name; other columns are ignored. *)
Inductive layout :=
| DateTimeLayout (datetime_at kwh_at : nat) (cost_at : option nat)
| DateAndTimeLayout (date_at time_at kwh_at : nat) (cost_at : option nat).

Definition detect_layout (header : list jsstring) : option layout :=
  match column (lit "kwh") header with
  | None => None
  | Some k =>
      match column (lit "datetime") header with
      | Some dt => Some (DateTimeLayout dt k (column (lit "cost") header))
      | None =>
          match column (lit "date") header, column (lit "time") header with
          | Some d, Some t => Some (DateAndTimeLayout d t k (column (lit "cost") header))
          | _, _ => None
          end
      end
  end.

(** Modelled from the spec: the diagnostics record, without the
    reasons. *)
Record Diagnostics := {
  parsed_count : nat;
  skipped_count : nat;
}.

(** Modelled from the spec: the result of the Reading Normalizer, or
    one of its two fatal validation errors. *)
Inductive normalized :=
| Parsed (readings : list Reading) (diagnostics : Diagnostics)
| UnknownLayout
| EmptyDataset.

Section Parsers.
(** Modelled from the spec: the readers of a date, a time of day, a
    date with time and a decimal number from the text of a cell, which
    the missing normalizer takes from its platform.  The spec does not
    say which texts they accept. *)
Context (parse_date : jsstring -> option Z).
Context (parse_time : jsstring -> option nat).
Context (parse_datetime : jsstring -> option (Z * option nat)).
Context (parse_number : jsstring -> option Qc).

(** Modelled from the spec: two texts of a cell that every reader
    reads alike; a change from one to the other is incidental
    formatting, which leaves the semantic content as it is. *)
Definition reads_alike (a b : jsstring) : Prop :=
  parse_date a = parse_date b
  /\ parse_time a = parse_time b
  /\ parse_datetime a = parse_datetime b
  /\ parse_number a = parse_number b.

(** Modelled from the spec: the cell of a column in a row, as it is in
    the source; empty when the row is too short. *)
Definition field (i : nat) (row : list jsstring) : jsstring := nth i row [].

(** Modelled from the spec: a non-negative number. *)
Definition amount (i : nat) (row : list jsstring) : option Qc :=
  n ← parse_number (field i row);
  if decide (0 <= n) then Some n else None.

(** Modelled from the spec: a missing cost column gives cost 0. *)
Definition cost_of (cost_at : option nat) (row : list jsstring) : option Qc :=
  match cost_at with
  | None => Some 0
  | Some i => amount i row
  end.

(** Modelled from the spec: one data row to a Reading, or nothing when
    the row is skipped. *)
Definition normalize_row (l : layout) (row : list jsstring) : option Reading :=
  match l with
  | DateTimeLayout a k c =>
      dt ← parse_datetime (field a row);
      e ← amount k row;
      p ← cost_of c row;
      Some {| date := dt.1; time := dt.2; kwh := e; cost := p |}
  | DateAndTimeLayout d t k c =>
      day ← parse_date (field d row);
      minute ← parse_time (field t row);
      e ← amount k row;
      p ← cost_of c row;
      Some {| date := day; time := Some minute; kwh := e; cost := p |}
  end.

(** Modelled from the spec: the Reading Normalizer over the header and
    the data rows of the source. *)
Definition normalize (header : list jsstring) (rows : list (list jsstring)) : normalized :=
  match detect_layout header with
  | None => UnknownLayout
  | Some l =>
      match omap (normalize_row l) rows with
      | [] => EmptyDataset
      | parsed =>
          Parsed parsed {| parsed_count := length parsed;
                           skipped_count := length rows - length parsed |}
      end
  end.

Lemma column_equiv name header header' :
  Forall2 same_name header header' -> column name header = column name header'.
Proof.
  induction 1 as [|c c' header header' Hc _ IH]; simpl; [done|].
  unfold same_name in Hc. by rewrite Hc, IH.
Qed.

Lemma detect_layout_equiv header header' :
  Forall2 same_name header header' -> detect_layout header = detect_layout header'.
Proof.
  intros H. unfold detect_layout. by rewrite !(column_equiv _ header header' H).
Qed.

Lemma reads_alike_refl a : reads_alike a a.
Proof. by repeat split. Qed.

Lemma field_alike i row row' :
  Forall2 reads_alike row row' -> reads_alike (field i row) (field i row').
Proof.
  intros H. revert i. induction H as [|c c' row row' Hc _ IH]; intros i.
  - apply reads_alike_refl.
  - destruct i as [|i]; [exact Hc|apply IH].
Qed.

Lemma normalize_row_alike l row row' :
  Forall2 reads_alike row row' -> normalize_row l row = normalize_row l row'.
Proof.
  intros H. unfold normalize_row, cost_of, amount.
  pose proof (fun i => proj1 (field_alike i row row' H)) as Hdate.
  pose proof (fun i => proj1 (proj2 (field_alike i row row' H))) as Htime.
  pose proof (fun i => proj1 (proj2 (proj2 (field_alike i row row' H)))) as Hdatetime.
  pose proof (fun i => proj2 (proj2 (proj2 (field_alike i row row' H)))) as Hnumber.
  destruct l as [a k [c|]|d t k [c|]];
    by rewrite ?Hdate, ?Htime, ?Hdatetime, ?Hnumber.
Qed.

Lemma normalize_alike header header' rows rows' :
  Forall2 same_name header header' ->
  Forall2 (Forall2 reads_alike) rows rows' ->
  normalize header rows = normalize header' rows'.
Proof.
  intros Hh Hr. unfold normalize. rewrite (detect_layout_equiv _ _ Hh).
  destruct (detect_layout header') as [l|]; [|done].
  assert (omap (normalize_row l) rows = omap (normalize_row l) rows') as ->.
  { induction Hr as [|row row' rows rows' Hrow _ IH]; [done|].
    simpl. rewrite (normalize_row_alike l _ _ Hrow).
    destruct (normalize_row l row'); [f_equal|]; exact IH. }
  by rewrite (Forall2_length _ _ _ Hr).
Qed.

End Parsers.

(** Modelled from the spec: the text of a cell without the white space
    around it and without regard to letter case, which is all a reader
    sees that ignores both. *)
Definition canon (cell : jsstring) : jsstring := lower (trim cell).

(** Modelled from the spec: two cells that differ by surrounding white
    space and letter case only. *)
Definition cell_equiv (a b : jsstring) : Prop := canon a = canon b.

(** *** Cells that differ by padding or by letter case *)

Lemma ascii_lower_space c : is_js_space (ascii_lower c) = is_js_space c.
Proof.
  unfold ascii_lower.
  destruct ((65 <=? c) && (c <=? 90))%N eqn:H; [|done].
  apply andb_true_iff in H as [H1 H2].
  apply N.leb_le in H1, H2. unfold is_js_space.
  repeat match goal with
  | |- context [(?a =? ?b)%N] =>
      let E := fresh in destruct (N.eqb_spec a b) as [E|E]; [lia|clear E]
  | |- context [(?a <=? ?b)%N] =>
      let E := fresh in destruct (N.leb_spec a b) as [E|E]; [try lia|try lia]
  end; simpl; try done; lia.
Qed.

Lemma trimStart_lower s : trimStart (lower s) = lower (trimStart s).
Proof.
  induction s as [|c s IH]; simpl; [done|].
  rewrite ascii_lower_space. by destruct (is_js_space c).
Qed.

Lemma lower_rev s : lower (rev s) = rev (lower s).
Proof. apply map_rev. Qed.

Lemma trim_lower s : trim (lower s) = lower (trim s).
Proof.
  unfold trim, trimEnd.
  by rewrite trimStart_lower, <- lower_rev, trimStart_lower, lower_rev.
Qed.

(** Letter case does not matter. *)
Lemma cell_equiv_case a b : lower a = lower b -> cell_equiv a b.
Proof.
  intros H. unfold cell_equiv, canon. by rewrite <- !trim_lower, H.
Qed.

Lemma trimStart_pad ws s :
  Forall (fun c => is_js_space c = true) ws -> trimStart (ws ++ s) = trimStart s.
Proof. induction 1 as [|c ws Hc _ IH]; simpl; [done|]. by rewrite Hc. Qed.

Lemma trimStart_app_keep s t :
  trimStart s <> [] -> trimStart (s ++ t) = trimStart s ++ t.
Proof.
  induction s as [|c s IH]; simpl; [done|].
  destruct (is_js_space c); [apply IH|done].
Qed.

Lemma trimStart_all_space s :
  trimStart s = [] -> Forall (fun c => is_js_space c = true) s.
Proof.
  induction s as [|c s IH]; simpl; [constructor|].
  destruct (is_js_space c) eqn:Hc; [|done]. constructor; auto.
Qed.

Lemma trimEnd_pad s ws :
  Forall (fun c => is_js_space c = true) ws -> trimEnd (s ++ ws) = trimEnd s.
Proof.
  intros H. unfold trimEnd. rewrite rev_app_distr.
  by rewrite trimStart_pad by (by apply Forall_rev).
Qed.

(** White space around a cell does not matter. *)
Lemma cell_equiv_pad before cell after :
  Forall (fun c => is_js_space c = true) before ->
  Forall (fun c => is_js_space c = true) after ->
  cell_equiv (before ++ cell ++ after) cell.
Proof.
  intros Hb Ha. unfold cell_equiv, canon. f_equal. unfold trim.
  rewrite trimStart_pad by done.
  destruct (trimStart cell) as [|c t] eqn:Hcell.
  - pose proof (trimStart_all_space _ Hcell) as Hall.
    rewrite <- (app_nil_r (cell ++ after)), trimStart_pad; [done|].
    apply Forall_app. by split.
  - rewrite trimStart_app_keep by (by rewrite Hcell).
    rewrite Hcell. by apply trimEnd_pad.
Qed.

End Normalizer.

(** ** The upload path: from a source to its fingerprint *)

Module Ingest.

Import Core Fingerprint Normalizer.

(** Modelled from the spec: a change of white space or letter case in
    a cell of the source is another letter case, or white space put
    around it, or any chain of such changes in either direction. *)
Inductive incidental : relation jsstring :=
| incidental_case a b : lower a = lower b -> incidental a b
| incidental_pad before a after :
    Forall (fun c => is_js_space c = true) before ->
    Forall (fun c => is_js_space c = true) after ->
    incidental a (before ++ a ++ after)
| incidental_sym a b : incidental a b -> incidental b a
| incidental_trans a b c : incidental a b -> incidental b c -> incidental a c.

Lemma incidental_cell_equiv a b : incidental a b -> cell_equiv a b.
Proof.
  induction 1 as [a b H|before a after Hb Ha|a b _ IH|a b c _ IH1 _ IH2].
  - by apply cell_equiv_case.
  - symmetry. by apply cell_equiv_pad.
  - by symmetry.
  - by etrans.
Qed.

Section Upload.
Context (parse_date : jsstring -> option Z).
Context (parse_time : jsstring -> option nat).
Context (parse_datetime : jsstring -> option (Z * option nat)).
Context (parse_number : jsstring -> option Qc).
Context {D : Type} (digest : jsstring * list tuple -> D).

Local Abbreviation normalize :=
  (normalize parse_date parse_time parse_datetime parse_number).
Local Abbreviation reads_alike :=
  (reads_alike parse_date parse_time parse_datetime parse_number).
Local Abbreviation fingerprint := (fingerprint digest).

(** Modelled from the spec: the fingerprint of an upload, when its
    source normalizes to readings. *)
Definition source_fingerprint (uid : jsstring) (header : list jsstring)
    (rows : list (list jsstring)) : option D :=
  match normalize header rows with
  | Parsed rs _ => Some (fingerprint uid rs)
  | _ => None
  end.

Lemma fingerprint_tuples uid rs rs' :
  map tuple_of rs ≡ₚ map tuple_of rs' -> fingerprint uid rs = fingerprint uid rs'.
Proof.
  intros H. unfold Fingerprint.fingerprint. f_equal.
  by apply digest_input_eq_iff.
Qed.

Lemma source_fingerprint_rows_Permutation uid header rows rows' :
  rows ≡ₚ rows' ->
  source_fingerprint uid header rows = source_fingerprint uid header rows'.
Proof.
  intros H. unfold source_fingerprint, Normalizer.normalize.
  destruct (detect_layout header) as [l|]; [|done].
  pose proof (omap_Permutation (normalize_row parse_date parse_time
                                  parse_datetime parse_number l) _ _ H) as Hp.
  destruct (omap _ rows) as [|r rs] eqn:E1, (omap _ rows') as [|r' rs'] eqn:E2.
  - done.
  - by apply Permutation_nil_cons in Hp.
  - symmetry in Hp. by apply Permutation_nil_cons in Hp.
  - f_equal. apply fingerprint_tuples. by rewrite Hp.
Qed.

Lemma source_fingerprint_alike uid header header' rows rows' :
  Forall2 same_name header header' ->
  Forall2 (Forall2 reads_alike) rows rows' ->
  source_fingerprint uid header rows = source_fingerprint uid header' rows'.
Proof.
  intros Hh Hr. unfold source_fingerprint.
  by rewrite (normalize_alike _ _ _ _ header header' rows rows').
Qed.


End Upload.

(** *** A digest of a fixed size

    A digest has finitely many values, and there are more contents
    than that: some two contents of one user, and some two users of
    one content, have the same fingerprint.  The readings used are
    single readings on different days, and the users have names of
    different lengths. *)

Definition reading_on (day : nat) : Reading :=
  {| date := Z.of_nat day; time := None; kwh := 0%Qc; cost := 0%Qc |}.

Definition user_named (n : nat) : jsstring := replicate n 97%N.

Lemma reading_on_tuples i j :
  map tuple_of [reading_on i] ≡ₚ map tuple_of [reading_on j] -> i = j.
Proof.
  intros H. apply Permutation_singleton_inj in H.
  injection H as H. by apply Nat2Z.inj in H.
Qed.

Lemma user_named_inj i j : user_named i = user_named j -> i = j.
Proof.
  intros H. apply (f_equal length) in H. unfold user_named in H.
  by rewrite !length_replicate in H.
Qed.


End Ingest.

(** ** A concrete platform, and the properties at concrete inputs

    Numbers are integers printed in decimal, lower-casing is that of
    the ASCII letters, the formatters print the number or hand the date
    back, and [JSON.parse] is a reader of flat objects with string
    members. *)

Module Sample.

Import Exn.

Definition decimal (z : Z) : jsstring :=
  lit (NilZero.string_of_int (Z.to_int z)).

Definition digits_value (s : jsstring) : Z :=
  fold_left (fun acc c => (10 * acc + Z.of_N (c - 48))%Z)
            (List.filter (fun c => (48 <=? c) && (c <=? 57)) s) 0%Z.

Definition number_format (locale : jsstring) (o : Format.NumberFormatOptions) (z : Z)
  : jsstring := decimal z.

Definition date_format (locale : jsstring) (o : Format.DateTimeFormatOptions) (d : jsstring)
  : option jsstring := Some d.

(** *** Report export *)

Definition sample_values : list (Csv.value Z) :=
  [ Csv.VStr (lit "Peak day, evening" ++ [LF] ++ lit " tariff ");
    Csv.VNum 42%Z;
    Csv.VStr (lit "say " ++ [DQUOTE] ++ lit "hi" ++ [DQUOTE]) ].

Example sample_line :
  Csv.csvLine decimal sample_values =
  [DQUOTE] ++ lit "Peak day, evening  tariff" ++ [DQUOTE] ++ lit ",42,"
  ++ [DQUOTE] ++ lit "say " ++ [DQUOTE; DQUOTE] ++ lit "hi" ++ [DQUOTE; DQUOTE; DQUOTE].
Proof. reflexivity. Qed.

Lemma csv_export_round_trip_witness :
  Csv.parse_record (Csv.csvLine decimal sample_values)
  = Some (map (Csv.field_text decimal) sample_values).
Proof.
  apply (proj1 (proj2 (Report.csv_export_round_trip decimal digits_value (fun _ => true)
                         Z.of_nat lower number_format date_format))).
  discriminate.
Defined.

(** The record of no field at all is the empty text, which is also the
    record of one empty field: it does not read back as no field. *)
Lemma csvLine_no_field_not_recovered :
  Csv.parse_record (Csv.csvLine decimal []) <> Some (map (Csv.field_text decimal) []).
Proof. discriminate. Qed.

Lemma csvLine_no_field_ambiguous :
  Csv.csvLine decimal [] = Csv.csvLine decimal [Csv.VStr []].
Proof. reflexivity. Qed.

(** Hence no reader at all gives back the fields of every record. *)
Lemma no_reader_for_every_record :
  ~ exists reader : jsstring -> option (list jsstring),
      forall vs, reader (Csv.csvLine decimal vs) = Some (map (Csv.field_text decimal) vs).
Proof.
  intros [reader H].
  pose proof (H []) as H0. pose proof (H [Csv.VStr []]) as H1.
  rewrite <- csvLine_no_field_ambiguous, H0 in H1. discriminate.
Qed.

(** The report ends with its last line, with no CR LF after it. *)
Example report_of_empty_summary :
  Report.buildReportCsv decimal digits_value (fun _ => true) Z.of_nat lower
    number_format date_format
    {| Analytics.stats := []; Analytics.usage := []; Analytics.cost_breakdown := [];
       Analytics.badges := [{| Analytics.badge_label := lit "Days";
                               Analytics.badge_value := lit "1; 2" |}];
       Analytics.recommendations := []; Analytics.insights := None |}
    Format.en
  = Some (lit "Section,Metric,Value" ++ Csv.CRLF
          ++ Csv.CRLF
          ++ lit "Badges,Label,Value" ++ Csv.CRLF
          ++ lit "Badge,Days," ++ [DQUOTE] ++ lit "1; 2" ++ [DQUOTE]).
Proof. reflexivity. Qed.

(** *** A reader of flat JSON objects *)

Definition is_json_space (c : N) : bool :=
  (c =? 32) || (c =? 9) || (c =? 10) || (c =? 13).

Fixpoint skip_space (s : jsstring) : jsstring :=
  match s with
  | c :: s' => if is_json_space c then skip_space s' else s
  | [] => []
  end.

(** The characters up to the closing double quote, and what follows
    it; escapes are not read. *)
Fixpoint read_string (s : jsstring) : option (jsstring * jsstring) :=
  match s with
  | [] => None
  | c :: s' =>
      if c =? DQUOTE then Some ([], s')
      else if c =? 92 then None
      else
        match read_string s' with
        | Some (t, r) => Some (c :: t, r)
        | None => None
        end
  end.

(** After a character: the rest, when the text starts with it. *)
Definition expect (c : N) (s : jsstring) : option jsstring :=
  match skip_space s with
  | d :: s' => if d =? c then Some s' else None
  | [] => None
  end.

Fixpoint read_members (fuel : nat) (s : jsstring) : option (list (jsstring * json)) :=
  match fuel with
  | O => None
  | S fuel' =>
      s1 ← expect DQUOTE s;
      k ← read_string s1;
      s2 ← expect 58 k.2;
      s3 ← expect DQUOTE s2;
      v ← read_string s3;
      match skip_space v.2 with
      | c :: s4 =>
          if c =? COMMA then
            ms ← read_members fuel' s4;
            Some ((k.1, JString v.1) :: ms)
          else if c =? 125 then
            match skip_space s4 with
            | [] => Some [(k.1, JString v.1)]
            | _ => None
            end
          else None
      | [] => None
      end
  end.

(** A member set on an object: the value replaces the one of the same
    key, which keeps its place, or the member comes last. *)
Fixpoint set_member (key : jsstring) (value : json) (members : list (jsstring * json))
  : list (jsstring * json) :=
  match members with
  | [] => [(key, value)]
  | (k, v) :: rest =>
      if bool_decide (k = key) then (k, value) :: rest
      else (k, v) :: set_member key value rest
  end.

(** The properties of the object a list of members in source order
    makes: of a repeated key the last value is the one kept. *)
Definition own_properties (members : list (jsstring * json)) : list (jsstring * json) :=
  fold_left (fun object member => set_member member.1 member.2 object) members [].

Definition parse_flat (s : jsstring) : option json :=
  s1 ← expect 123 s;
  match expect 125 s1 with
  | Some rest =>
      match skip_space rest with
      | [] => Some (JObject [])
      | _ => None
      end
  | None => (fun members => JObject (own_properties members)) <$> read_members (length s) s1
  end.

(** A JSON object text with one string member. *)
Definition object1 (key value : jsstring) : jsstring :=
  lit "{" ++ [DQUOTE] ++ key ++ [DQUOTE] ++ lit ":" ++ [DQUOTE] ++ value ++ [DQUOTE] ++ lit "}".

Example parse_flat_detail :
  parse_flat (object1 (lit "detail") (lit "Duplicate dataset"))
  = Some (JObject [(lit "detail", JString (lit "Duplicate dataset"))]).
Proof. reflexivity. Qed.

(** Of a key that comes twice the last value is read. *)
Example parse_flat_repeated_key :
  parse_flat (lit "{" ++ [DQUOTE] ++ lit "detail" ++ [DQUOTE] ++ lit ":" ++ [DQUOTE]
              ++ lit "first" ++ [DQUOTE] ++ lit "," ++ [DQUOTE] ++ lit "detail" ++ [DQUOTE]
              ++ lit ":" ++ [DQUOTE] ++ lit "last" ++ [DQUOTE] ++ lit "}")
  = Some (JObject [(lit "detail", JString (lit "last"))]).
Proof. reflexivity. Qed.

(** *** A failed upload *)

Definition upload_copy : Upload.Copy :=
  {| Upload.toastErrorTitle := lit "Upload failed";
     Upload.toastGenericDescription := lit "Something went wrong. Please try again.";
     Upload.toastDuplicateDescription := lit "This dataset has already been uploaded." |}.

(** The error of a 409 response whose body is the conflict detail. *)
Definition conflict_error : thrown :=
  Upload.handleResponse_error decimal parse_flat 409%Z
    (object1 (lit "detail") (lit "Duplicate dataset for this user")).

Definition validation_error : thrown :=
  Upload.handleResponse_error decimal parse_flat 400%Z
    (object1 (lit "detail") (lit "CSV must include a kwh column")).

Example conflict_error_message :
  conflict_error = ErrorObject (object1 (lit "detail") (lit "Duplicate dataset for this user")).
Proof. reflexivity. Qed.

Example conflict_toast :
  Upload.description (Upload.error_toast parse_flat lower upload_copy conflict_error)
  = lit "This dataset has already been uploaded.".
Proof. reflexivity. Qed.

Example validation_toast :
  Upload.description (Upload.error_toast parse_flat lower upload_copy validation_error)
  = lit "CSV must include a kwh column".
Proof. reflexivity. Qed.

Example unparsable_toast :
  Upload.description
    (Upload.error_toast parse_flat lower upload_copy (ErrorObject (lit "{ oops")))
  = lit "Something went wrong. Please try again.".
Proof. reflexivity. Qed.

Example empty_body_toast :
  Upload.description
    (Upload.error_toast parse_flat lower upload_copy
       (Upload.handleResponse_error decimal parse_flat 500%Z []))
  = lit "Request failed with status 500".
Proof. reflexivity. Qed.

(** The conflict and the validation error of the server, a body that
    is no JSON, a plain message and an error without message. *)
Lemma upload_failure_message_witness :
  Upload.description (Upload.error_toast parse_flat lower upload_copy conflict_error)
  = lit "This dataset has already been uploaded."
  /\ Upload.description (Upload.error_toast parse_flat lower upload_copy validation_error)
     = lit "CSV must include a kwh column"
  /\ Upload.description
       (Upload.error_toast parse_flat lower upload_copy (ErrorObject (lit "{ oops")))
     = lit "Something went wrong. Please try again."
  /\ Upload.description
       (Upload.error_toast parse_flat lower upload_copy (ErrorObject (lit "Failed to fetch")))
     = lit "Failed to fetch"
  /\ Upload.description (Upload.error_toast parse_flat lower upload_copy OtherValue)
     = lit "Something went wrong. Please try again.".
Proof.
  assert (Hdup : Upload.toastDuplicateDescription upload_copy <> []) by discriminate.
  assert (Hgen : Upload.mentions_duplicate lower (Upload.toastGenericDescription upload_copy)
                 = false) by reflexivity.
  assert (Hlow : lower [] = []) by reflexivity.
  pose proof (Upload.upload_failure_message parse_flat lower upload_copy Hdup Hgen Hlow) as T.
  split; [|split; [|split; [|split]]].
  - destruct (T conflict_error) as (_ & Hjson & _).
    apply (Hjson [(lit "detail", JString (lit "Duplicate dataset for this user"))]
                 (lit "Duplicate dataset for this user"));
      [reflexivity|reflexivity|discriminate|left; reflexivity].
  - destruct (T validation_error) as (_ & Hjson & _).
    apply (Hjson [(lit "detail", JString (lit "CSV must include a kwh column"))]
                 (lit "CSV must include a kwh column"));
      [reflexivity|reflexivity|discriminate|left; reflexivity].
  - destruct (T (ErrorObject (lit "{ oops"))) as (_ & _ & _ & _ & Hbad & _).
    apply Hbad; reflexivity.
  - destruct (T (ErrorObject (lit "Failed to fetch"))) as (_ & _ & Hplain & _).
    apply Hplain; [reflexivity|discriminate].
  - destruct (T OtherValue) as (_ & _ & _ & Hempty & _).
    apply Hempty. reflexivity.
Defined.

(** *** A chat request that fails *)

Definition chat_copy : Chat.Copy :=
  {| Chat.errorPrefix := lit "Error: ";
     Chat.authRequired := lit "Please sign in to chat." |}.

Definition failing_backend (prompt : jsstring) (history : list (Chat.Role * jsstring))
    (token : jsstring) : Chat.outcome :=
  Chat.Failed (ErrorObject (lit "Request failed with status 500")).

Definition empty_page : Chat.State :=
  {| Chat.messages := [];
     Chat.isThinking := false;
     Chat.pendingPrompt := None;
     Chat.errorMessage := None |}.

Definition sample_submit : Chat.completion Chat.State :=
  Chat.submitPrompt chat_copy (Some (lit "token")) (lit "TypeError") failing_backend
    (lit "1-2") (lit "3-4") empty_page (lit "  What was my most expensive day? ").

Lemma failed_request_is_answered_witness :
  exists st',
    sample_submit = Chat.Normal st'
    /\ Chat.messages st' =
         [ {| Chat.id := lit "user-1-2"; Chat.role := Chat.user;
              Chat.parts := [ {| Chat.text := lit "What was my most expensive day?" |} ] |};
           {| Chat.id := lit "assistant-3-4"; Chat.role := Chat.assistant;
              Chat.parts :=
                [ {| Chat.text := lit "Error: Request failed with status 500" |} ] |} ]
    /\ Chat.isThinking st' = false
    /\ Chat.pendingPrompt st' = None
    /\ Chat.errorMessage st' = Some (lit "Error: Request failed with status 500")
    /\ Chat.error_banner st' = Some (lit "Error: Request failed with status 500").
Proof.
  apply (Chat.failed_request_is_answered chat_copy (Some (lit "token")) (lit "TypeError")
           failing_backend (lit "1-2") (lit "3-4") empty_page
           (lit "  What was my most expensive day? ") (lit "token")
           (ErrorObject (lit "Request failed with status 500"))).
  - discriminate.
  - reflexivity.
  - discriminate.
  - reflexivity.
Defined.

(** The failed request is not kept from the user: the page ends with
    the destructive banner shown, and the banner holds the message of
    the failure. *)
Lemma failed_request_shows_banner :
  (exists st',
     sample_submit = Chat.Normal st'
     /\ Chat.error_banner st' = Some (lit "Error: Request failed with status 500"))
  /\ ~ (forall st', sample_submit = Chat.Normal st' -> Chat.error_banner st' = None).
Proof.
  split.
  - eexists. split; reflexivity.
  - intros H. by specialize (H _ eq_refl).
Qed.

(** *** A summary without recommendations *)

Definition sample_summary : Analytics.AnalyticsSummary Z :=
  {| Analytics.stats :=
       [ {| Analytics.stat_title := lit "Total Cost";
            Analytics.stat_value := inl 14%Z;
            Analytics.stat_unit := lit "EUR";
            Analytics.stat_change := lit "0%";
            Analytics.stat_change_type := Analytics.neutral;
            Analytics.stat_trend := lit "no previous dataset" |} ];
     Analytics.usage :=
       [ {| Analytics.usage_date := lit "2025-03-01"; Analytics.usage_kwh := 41%Z |} ];
     Analytics.cost_breakdown :=
       [ {| Analytics.segment := lit "Peak"; Analytics.segment_value := 8%Z |};
         {| Analytics.segment := lit "Off-peak"; Analytics.segment_value := 6%Z |} ];
     Analytics.badges :=
       [ {| Analytics.badge_label := lit "Days"; Analytics.badge_value := lit "1" |} ];
     Analytics.recommendations := [];
     Analytics.insights := None |}.

Definition no_copy : Dashboard.PanelCopy :=
  {| Dashboard.copy_title := None;
     Dashboard.copy_description := None;
     Dashboard.copy_chatAria := None;
     Dashboard.copy_chatCta := None |}.

Example sample_notice :
  Dashboard.panel_body
    (Dashboard.AIRecommendations no_copy Format.en sample_summary)
  = Dashboard.Notice (lit "Upload more data to unlock tailored recommendations.").
Proof. reflexivity. Qed.

(** The summary above is rendered: its stat has a regular title. *)
Example sample_dashboard :
  exists cards panel charts,
    Dashboard.page_body decimal digits_value (fun _ => false) (fun _ => true) lower
      number_format (fun _ => None) no_copy Format.en false (Some sample_summary)
    = Dashboard.Board cards panel charts
    /\ map Dashboard.card_title cards = [lit "Total Cost"]
    /\ map Dashboard.card_icon cards = [Dashboard.Glyph Dashboard.DollarSign]
    /\ map Dashboard.card_value cards = [lit "14"].
Proof. eexists _, _, _. split; [reflexivity|]. by repeat split. Qed.

(** The same summary with its stat under the title [constructor]. *)
Definition constructor_summary : Analytics.AnalyticsSummary Z :=
  {| Analytics.stats :=
       [ {| Analytics.stat_title := lit "constructor";
            Analytics.stat_value := inl 14%Z;
            Analytics.stat_unit := lit "EUR";
            Analytics.stat_change := lit "0%";
            Analytics.stat_change_type := Analytics.neutral;
            Analytics.stat_trend := lit "no previous dataset" |} ];
     Analytics.usage := Analytics.usage sample_summary;
     Analytics.cost_breakdown := Analytics.cost_breakdown sample_summary;
     Analytics.badges := Analytics.badges sample_summary;
     Analytics.recommendations := [];
     Analytics.insights := None |}.


(** *** Two users in one store *)

Definition reading_at (d : Z) (minute : nat) (e p : Q) : Core.Reading :=
  {| Core.date := d; Core.time := Some minute; Core.kwh := Q2Qc e; Core.cost := Q2Qc p |}.

(** The two rows of 2025-03-01, day 20148, a Saturday. *)
Definition morning : Core.Reading := reading_at 20148 420 (37 # 2) (59 # 10).
Definition evening : Core.Reading := reading_at 20148 1140 (221 # 10) (81 # 10).

Definition sample_readings : list Core.Reading := [morning; evening].

Definition sample_world : Sandbox.World :=
  {| Sandbox.durable :=
       [ {| Core.user_id := lit "ana"; Core.reading := morning |};
         {| Core.user_id := lit "ben"; Core.reading := morning |};
         {| Core.user_id := lit "ana"; Core.reading := evening |} ];
     Sandbox.instance := None;
     Sandbox.executed := [] |}.

(** An engine that answers every statement with all the rows of the
    instance. *)
Definition select_all (sql : jsstring) (db : list Core.StoredRow)
  : list Core.StoredRow * Sandbox.engine_result := (db, Sandbox.Returned db).

Definition allow (caller sql : jsstring) : bool := true.

Definition unscoped_sql : jsstring := lit "SELECT * FROM readings".

Definition sample_answer : Sandbox.SandboxResult :=
  {| Sandbox.rows :=
       [ {| Core.user_id := lit "ana"; Core.reading := morning |};
         {| Core.user_id := lit "ana"; Core.reading := evening |} ];
     Sandbox.row_count := 2;
     Sandbox.truncated := false |}.

Lemma select_all_selects sql db db' returned :
  select_all sql db = (db', Sandbox.Returned returned) ->
  Forall (fun r => r ∈ db) returned.
Proof. intros [= _ <-]. by apply Forall_forall. Qed.

Lemma sandbox_isolation_witness :
  Forall (fun r => r ∈ Sandbox.durable sample_world
                   /\ Core.user_id r = lit "ana" /\ Core.user_id r <> lit "ben")
         (Sandbox.rows sample_answer)
  /\ (forall v,
        Sandbox.rows_of (lit "ana") (Sandbox.durable v)
        = Sandbox.rows_of (lit "ana") (Sandbox.durable sample_world) ->
        snd (Sandbox.run select_all allow 100 (lit "ana") unscoped_sql v)
        = Sandbox.Answered sample_answer).
Proof.
  apply (Sandbox.sandbox_isolation select_all allow 100 select_all_selects
           (lit "ana") (lit "ben") unscoped_sql sample_world
           (Sandbox.tear_down
              (fst (Sandbox.execute select_all unscoped_sql
                      (Sandbox.populate (lit "ana") sample_world))))).
  - discriminate.
  - reflexivity.
Defined.

Lemma forbidden_statement_rejected_witness :
  Sandbox.run select_all allow 100 (lit "ana")
    (lit "select 1; DrOp table readings") sample_world
  = ({| Sandbox.durable := Sandbox.durable sample_world;
        Sandbox.instance := None;
        Sandbox.executed := Sandbox.executed sample_world |},
     Sandbox.RejectedStatement).
Proof.
  apply (Sandbox.forbidden_statement_rejected select_all allow 100 (lit "ana")
           (lit "select 1; DrOp table readings") sample_world
           (lit "drop") (lit "select 1; ") (lit "DrOp") (lit " table readings")).
  - unfold Sandbox.named_verbs. constructor.
  - reflexivity.
  - reflexivity.
Defined.

(** *** The insights of a single day *)

Definition co2 : Qc := Q2Qc (45 # 100).

Example sample_total_kwh : Insight.total_kwh sample_readings = Q2Qc (203 # 5).
Proof. apply Qc_is_canon. reflexivity. Qed.

Example sample_total_cost : Insight.total_cost sample_readings = Q2Qc 14.
Proof. apply Qc_is_canon. reflexivity. Qed.

Example sample_days : Insight.days sample_readings = [20148%Z].
Proof. reflexivity. Qed.

Lemma average_cost_per_kwh_spec_witness :
  exists ins,
    Insight.compute_insights co2 sample_readings = Some ins
    /\ ((0 < Insight.total_kwh sample_readings ->
           Insight.average_cost_per_kwh ins
           = Insight.total_cost sample_readings / Insight.total_kwh sample_readings
           /\ Insight.average_cost_per_kwh ins * Insight.total_kwh sample_readings
              = Insight.total_cost sample_readings)
        /\ (Insight.total_kwh sample_readings = 0 ->
            Insight.average_cost_per_kwh ins = 0))%Qc.
Proof.
  eexists. split; [reflexivity|].
  apply (Insight.average_cost_per_kwh_spec co2 sample_readings). reflexivity.
Defined.

Lemma single_day_insights_witness :
  exists ins,
    Insight.compute_insights co2 sample_readings = Some ins
    /\ Insight.quarter_usage ins = None
    /\ Insight.weekend_vs_weekday ins = None
    /\ Insight.peak_day ins =
         {| Insight.day := 20148;
            Insight.day_kwh := Insight.total_kwh sample_readings;
            Insight.day_cost := Insight.total_cost sample_readings |}
    /\ Insight.average_cost_per_kwh ins
       = Insight.cost_per_kwh (Insight.total_cost sample_readings)
           (Insight.total_kwh sample_readings)
    /\ Insight.days_covered ins = 1%nat.
Proof.
  apply (Insight.single_day_insights co2 20148 sample_readings).
  - discriminate.
  - repeat constructor.
Defined.

(** *** The fingerprint of an upload *)

Definition all_digits (s : jsstring) : bool :=
  truthy s && forallb (fun c => (48 <=? c) && (c <=? 57)) s.

(** The readers of the sample read a cell through its trimmed,
    lower-cased text. *)
Definition read_day (s : jsstring) : option Z :=
  let t := Normalizer.canon s in
  if all_digits t then Some (digits_value t) else None.

Definition read_minute (s : jsstring) : option nat :=
  let t := Normalizer.canon s in
  if all_digits t then Some (Z.to_nat (digits_value t)) else None.

Definition read_datetime (s : jsstring) : option (Z * option nat) :=
  (fun d => (d, None)) <$> read_day s.

Definition read_number (s : jsstring) : option Qc :=
  let t := Normalizer.canon s in
  if all_digits t then Some (Qc_of_Z (digits_value t)) else None.

(** Such readers ignore white space around a cell and letter case. *)
Lemma sample_readers_ignore_form a b :
  Ingest.incidental a b ->
  Normalizer.reads_alike read_day read_minute read_datetime read_number a b.
Proof.
  intros H. apply Ingest.incidental_cell_equiv in H.
  unfold Normalizer.cell_equiv in H.
  unfold Normalizer.reads_alike, read_datetime, read_day, read_minute, read_number.
  by rewrite H.
Qed.

(** The digest that is the canonical content itself. *)
Definition plain_digest (x : jsstring * list Fingerprint.tuple)
  : jsstring * list Fingerprint.tuple := x.

Definition tidy_header : list jsstring := [lit "date"; lit "time"; lit "kwh"; lit "cost"].
Definition untidy_header : list jsstring := [lit "Date"; lit "TIME"; lit "kWh"; lit "Cost"].

Definition tidy_rows : list (list jsstring) :=
  [ [lit "20148"; lit "420"; lit "18"; lit "6"];
    [lit "20148"; lit "1140"; lit "22"; lit "8"] ].
Definition untidy_rows : list (list jsstring) :=
  [ [lit "20148 "; lit " 1140"; lit "22"; lit "8"];
    [lit "20148"; lit "420"; lit " 18 "; lit "6"] ].

Example tidy_normalizes :
  exists rs,
    Normalizer.normalize read_day read_minute read_datetime read_number tidy_header tidy_rows
    = Normalizer.Parsed rs {| Normalizer.parsed_count := 2; Normalizer.skipped_count := 0 |}
    /\ map Core.date rs = [20148%Z; 20148%Z]
    /\ map Core.time rs = [Some 420%nat; Some 1140%nat].
Proof. eexists. split; [reflexivity|]. split; reflexivity. Qed.

Example untidy_same_fingerprint :
  Ingest.source_fingerprint read_day read_minute read_datetime read_number plain_digest
    (lit "ana") untidy_header untidy_rows
  = Ingest.source_fingerprint read_day read_minute read_datetime read_number plain_digest
    (lit "ana") tidy_header tidy_rows.
Proof. vm_compute. reflexivity. Qed.

(** A cell and the same cell with white space around it. *)
Lemma padded before a after :
  forallb is_js_space before = true -> forallb is_js_space after = true ->
  Ingest.incidental (before ++ a ++ after) a.
Proof.
  intros Hb Ha. apply Ingest.incidental_sym, Ingest.incidental_pad.
  - apply Forall_forall. intros c Hc. rewrite forallb_forall in Hb.
    apply Hb. by apply list_elem_of_In.
  - apply Forall_forall. intros c Hc. rewrite forallb_forall in Ha.
    apply Ha. by apply list_elem_of_In.
Qed.

Lemma same a : Ingest.incidental a a.
Proof. by apply Ingest.incidental_case. Qed.


End Sample.

(** * Further properties of the frontend sources *)

(** ** History page: how deletions compose *)

Module HistoryList.

Import History.

Section Compose.
Context {num : Type}.
Implicit Types (history : list (DatasetRecord num)).

(** Removing a dataset from the list twice is removing it once, and the
    order in which two datasets are removed does not matter. *)
Theorem deletions_compose d e history :
  onDeleted d (onDeleted d history) = onDeleted d history
  /\ onDeleted d (onDeleted e history) = onDeleted e (onDeleted d history).
Proof.
  split.
  - apply onDeleted_all_kept, onDeleted_none_left.
  - unfold onDeleted. induction history as [|x history IH]; [done|].
    simpl. destruct (negb (id x =? e)%Z) eqn:He, (negb (id x =? d)%Z) eqn:Hd;
      simpl; rewrite ?He, ?Hd, IH; done.
Qed.

(** When the identifiers of the listed datasets are distinct, deleting
    a listed dataset takes exactly its row out: the rows before it and
    the rows after it stay as they are. *)
Theorem delete_one_row d history :
  NoDup (map id history) ->
  d ∈ map id history ->
  exists before x after,
    history = before ++ x :: after
    /\ id x = d
    /\ fst (onDelete true Deleted d history) = before ++ after
    /\ (length (fst (onDelete true Deleted d history)) + 1 = length history)%nat.
Proof.
  intros Hnd Hin. apply list_elem_of_fmap in Hin as (x & Hx & Hin).
  apply list_elem_of_split in Hin as (before & after & ->).
  exists before, x, after. split; [done|]. split; [done|].
  rewrite map_app in Hnd. simpl in Hnd.
  apply NoDup_app in Hnd as (_ & Hb & Ha).
  apply NoDup_cons in Ha as [Ha _].
  assert (Forall (fun y => id y <> d) before) as Hbefore.
  { apply Forall_forall. intros y Hy Hyd. apply (Hb (id y)).
    - apply list_elem_of_fmap. eauto.
    - rewrite Hyd, Hx. left. }
  assert (Forall (fun y => id y <> d) after) as Hafter.
  { apply Forall_forall. intros y Hy Hyd. apply Ha.
    rewrite <- Hx, <- Hyd. apply list_elem_of_fmap. eauto. }
  assert (onDeleted d (before ++ x :: after) = before ++ after) as Heq.
  { change (x :: after) with ([x] ++ after).
    rewrite !onDeleted_app, (onDeleted_drop d x) by done.
    by rewrite !onDeleted_all_kept. }
  simpl. rewrite Heq. split; [done|]. rewrite !length_app. simpl. lia.
Qed.

End Compose.

End HistoryList.

(** ** The API client

    [lib/api-client.ts]: [buildHeaders], [handleResponse] and the
    request functions.  [fetch] and [JSON] are the platform's. *)

Module Api.

Import Exn.

(** A response as the client reads it: the status, the body text, and
    the [content-length] header.  A response is [ok] when its status is
    in the range 200 to 299. *)
Record Response := {
  status : Z;
  body : jsstring;
  content_length : option jsstring;
}.

Definition ok (response : Response) : bool :=
  ((200 <=? status response) && (status response <=? 299))%Z.

(** How [fetch] ends: it rejects, or resolves with a response. *)
Inductive fetched :=
| Rejected (error : thrown)
| Got (response : Response).

(** How [handleResponse] ends: with a value, [undefined] being [None],
    or with a thrown error. *)
Inductive handled :=
| Returned (value : option json)
| Thrown (error : thrown).

(** The body of a request. *)
Inductive Body {File : Type} :=
| TextBody (text : jsstring)
| FormBody (file : File).
Arguments Body : clear implicits.

Record Request {File : Type} := {
  url : jsstring;
  method : jsstring;
  headers : list (jsstring * jsstring);
  request_body : option (Body File);
  revalidate : option nat;          (* next: { revalidate } *)
}.
Arguments Request : clear implicits.

(** [{ ...base, [key]: value }]: the property replaces one of the same
    key, or comes last. *)
Fixpoint set_property (key value : jsstring) (base : list (jsstring * jsstring))
  : list (jsstring * jsstring) :=
  match base with
  | [] => [(key, value)]
  | (k, v) :: rest =>
      if bool_decide (k = key) then (key, value) :: rest
      else (k, v) :: set_property key value rest
  end.

Definition jsonHeaders : list (jsstring * jsstring) :=
  [(lit "Content-Type", lit "application/json")].

(** [buildHeaders(accessToken, base)] *)
Definition buildHeaders (accessToken : option jsstring) (base : list (jsstring * jsstring))
  : list (jsstring * jsstring) :=
  match accessToken with
  | Some ((_ :: _) as token) => set_property (lit "Authorization") (lit "Bearer " ++ token) base
  | _ => base
  end.

Section Client.
Context {File : Type}.
Context (API_BASE_URL : jsstring).
Context (Number_toString : Z -> jsstring).
Context (JSON_parse : jsstring -> option json).
(** The message of the [SyntaxError] of [response.json()]. *)
Context (syntax_error_message : jsstring).
(** [JSON.stringify({ prompt, context })] *)
Context (stringify_chat : jsstring -> list (Chat.Role * jsstring) -> jsstring).
(** The [ChatResponse] a parsed body is read as; there is none when
    the body is [null]. *)
Context (as_ChatResponse : json -> option Chat.ChatResponse).
Context (fetch : Request File -> fetched).

(** [handleResponse(response, expectJson)] *)
Definition handleResponse (response : Response) (expectJson : bool) : handled :=
  if negb (ok response) then
    Thrown (Upload.handleResponse_error Number_toString JSON_parse
              (status response) (body response))
  else if negb expectJson || (status response =? 204)%Z then Returned None
  else if (status response =? 202)%Z
          || bool_decide (content_length response = Some (lit "0")) then Returned None
  else
    match JSON_parse (body response) with
    | Some value => Returned (Some value)
    | None => Thrown (ErrorObject syntax_error_message)
    end.

(** A request function: [fetch], then [handleResponse]. *)
Definition call (request : Request File) (expectJson : bool) : handled :=
  match fetch request with
  | Rejected error => Thrown error
  | Got response => handleResponse response expectJson
  end.

Definition chat_request (prompt : jsstring) (history : list (Chat.Role * jsstring))
    (accessToken : option jsstring) : Request File :=
  {| url := API_BASE_URL ++ lit "/api/chat";
     method := lit "POST";
     headers := buildHeaders accessToken jsonHeaders;
     request_body := Some (TextBody (stringify_chat prompt history));
     revalidate := None |}.

(** [sendChatMessage(prompt, history, accessToken)], as the chat page
    awaits it. *)
Definition sendChatMessage (prompt : jsstring) (history : list (Chat.Role * jsstring))
    (accessToken : jsstring) : Chat.outcome :=
  match call (chat_request prompt history (Some accessToken)) true with
  | Thrown error => Chat.Failed error
  | Returned None => Chat.Responded None
  | Returned (Some value) => Chat.Responded (as_ChatResponse value)
  end.

Definition upload_request (file : File) (accessToken : option jsstring) : Request File :=
  {| url := API_BASE_URL ++ lit "/api/upload";
     method := lit "POST";
     headers := buildHeaders accessToken [];
     request_body := Some (FormBody file);
     revalidate := None |}.

(** [uploadDataset(file, accessToken)] *)
Definition uploadDataset (file : File) (accessToken : option jsstring) : handled :=
  call (upload_request file accessToken) true.

Definition history_request (limit : Z) (accessToken : option jsstring) : Request File :=
  {| url := API_BASE_URL ++ lit "/api/analytics/history?limit=" ++ Number_toString limit;
     method := lit "GET";
     headers := buildHeaders accessToken [];
     request_body := None;
     revalidate := Some 0%nat |}.

(** [fetchAnalyticsHistory(limit, accessToken)] *)
Definition fetchAnalyticsHistory (limit : Z) (accessToken : option jsstring) : handled :=
  call (history_request limit accessToken) true.

Definition dataset_request (verb : jsstring) (id : Z) (accessToken : option jsstring)
  : Request File :=
  {| url := API_BASE_URL ++ lit "/api/analytics/datasets/" ++ Number_toString id;
     method := verb;
     headers := buildHeaders accessToken [];
     request_body := None;
     revalidate := if bool_decide (verb = lit "GET") then Some 0%nat else None |}.

(** [fetchAnalyticsDataset(id, accessToken)] *)
Definition fetchAnalyticsDataset (id : Z) (accessToken : option jsstring) : handled :=
  call (dataset_request (lit "GET") id accessToken) true.

(** [deleteDataset(id, accessToken)]: no value is expected. *)
Definition deleteDataset (id : Z) (accessToken : option jsstring) : handled :=
  call (dataset_request (lit "DELETE") id accessToken) false.

(** *** The message of the error of a response that is not ok *)

Definition status_line (response : Response) : jsstring :=
  lit "Request failed with status " ++ Number_toString (status response).

Lemma handleResponse_not_ok response expectJson :
  ok response = false ->
  handleResponse response expectJson =
    Thrown (ErrorObject
      (if truthy (body response)
          && match JSON_parse (body response) with
             | Some payload => Upload.has_string_detail payload
             | None => true
             end
       then body response else status_line response)).
Proof.
  intros Hok. unfold handleResponse, Upload.handleResponse_error, status_line.
  rewrite Hok. simpl.
  destruct (JSON_parse (body response)) as [payload|].
  - destruct (Upload.has_string_detail payload), (truthy (body response)); done.
  - rewrite andb_true_r. by destruct (truthy (body response)).
Qed.

End Client.

(** *** The value of an answer, as the pages test it

    [handleResponse] returns whatever JSON value the body holds; the
    pages test it before they read it as a value of its declared
    type. *)
Section Values.
(** Whether the number that a JSON number text stands for is 0. *)
Context (is_zero : jsstring -> bool).

(** [value ? ... : ...] for a parsed JSON value: [null], [false], 0 and
    the empty string are falsy. *)
Definition truthy_value (v : json) : bool :=
  match v with
  | JNull => false
  | JBool b => b
  | JNumber text => negb (is_zero text)
  | JString s => truthy s
  | JArray _ | JObject _ => true
  end.

(** What a page shows of [value ? value : null], where [undefined]
    is falsy too. *)
Definition when_truthy (data : option json) : option json :=
  match data with
  | Some v => if truthy_value v then Some v else None
  | None => None
  end.

(** The items of a value that is shown as a list by
    [value.length === 0 ? ... : value.map(...)]: the items of an
    array; none for the empty string and for an object whose [length]
    member is 0; nothing when the expression throws, as it does for
    [null], which has no [length], and for every other value, which
    has no [map]. *)
Definition items_of (v : json) : option (list json) :=
  match v with
  | JArray items => Some items
  | JString [] => Some []
  | JObject members =>
      match lookup_member (lit "length") members with
      | Some (JNumber text) => if is_zero text then Some [] else None
      | _ => None
      end
  | _ => None
  end.

End Values.

End Api.

(** ** The chat page over the API client *)

Module ChatFlow.

Import Exn Chat.

(** What a submitted prompt adds to the conversation: nothing, or the
    user's message followed by one assistant message. *)
Section Growth.
Context (copy : Copy) (accessToken : option jsstring) (type_error_message : jsstring).
Context (backend : jsstring -> list (Role * jsstring) -> jsstring -> outcome).

Local Abbreviation submit := (submitPrompt copy accessToken type_error_message backend).

(** The user message [submitPrompt] builds. *)
Definition user_message (user_id prompt : jsstring) : ChatMessage :=
  {| id := lit "user-" ++ user_id; role := user; parts := [ {| text := trim prompt |} ] |}.

(** The text of the assistant message for each way the request ends. *)
Definition reply_text (o : outcome) : jsstring :=
  match o with
  | Responded (Some response) => content response
  | Responded None => errorPrefix copy ++ type_error_message
  | Failed error => errorPrefix copy ++ message_of error
  end.

Definition reply_id (fresh_id : jsstring) (o : outcome) : jsstring :=
  match o with
  | Responded (Some response) =>
      if truthy (response_id response) then response_id response
      else lit "assistant-" ++ fresh_id
  | _ => lit "assistant-" ++ fresh_id
  end.

(** [submitPrompt] when the prompt is not blank and there is a token. *)
Lemma submitPrompt_sent user_id fresh_id st prompt token :
  trim prompt <> [] -> accessToken = Some token -> token <> [] ->
  let o := backend (trim prompt)
             (map history_entry (messages st ++ [user_message user_id prompt])) token in
  submit user_id fresh_id st prompt =
    Normal {| messages :=
                messages st ++ [ user_message user_id prompt;
                                 assistant_message (reply_id fresh_id o) (reply_text o) ];
              isThinking := false;
              pendingPrompt := None;
              errorMessage :=
                match o with
                | Responded (Some _) => None
                | _ => Some (reply_text o)
                end |}.
Proof.
  intros Hp Hacc Ht. unfold submitPrompt, user_message. rewrite Hacc.
  destruct (trim prompt) as [|c p] eqn:Htrim; [done|]. simpl negb. cbv iota.
  destruct token as [|t token]; [done|].
  unfold try_catch_finally, request_and_reply.
  destruct (backend _ _ _) as [[r|]|e];
    unfold recover, settle, append_message; cbn; rewrite <- ?app_assoc; reflexivity.
Qed.

(** [submitPrompt] when the prompt is blank or there is no token. *)
Lemma submitPrompt_not_sent user_id fresh_id st prompt :
  trim prompt = [] \/ accessToken = None \/ accessToken = Some [] ->
  exists st',
    submit user_id fresh_id st prompt = Normal st'
    /\ messages st' = messages st
    /\ isThinking st' = isThinking st
    /\ pendingPrompt st' = pendingPrompt st
    /\ (trim prompt = [] -> st' = st)
    /\ (trim prompt <> [] ->
        errorMessage st' = Some (errorPrefix copy ++ authRequired copy)).
Proof.
  intros H. unfold submitPrompt.
  destruct (trim prompt) as [|c p] eqn:Htrim; simpl.
  - exists st. by repeat split.
  - destruct H as [H|[-> | ->]]; [done| |];
      (eexists; split; [reflexivity|]; by repeat split).
Qed.

(** A submitted prompt always completes.  When the prompt is blank or
    there is no token, no request is made and the conversation is
    left as it was.  Otherwise exactly two messages are added to the
    conversation so far: the trimmed prompt as a user message, and
    one assistant message, which holds what the request gave, the
    reply or the text of the failure; and the page is left out of the
    thinking state. *)
Theorem conversation_grows_by_pairs user_id fresh_id st prompt :
  exists st',
    submit user_id fresh_id st prompt = Normal st'
    /\ (((trim prompt = [] \/ accessToken = None \/ accessToken = Some [])
         /\ messages st' = messages st
         /\ isThinking st' = isThinking st
         /\ pendingPrompt st' = pendingPrompt st)
        \/
        (exists token,
           trim prompt <> [] /\ accessToken = Some token /\ token <> []
           /\ (let o := backend (trim prompt)
                          (map history_entry (messages st ++ [user_message user_id prompt]))
                          token in
               messages st'
               = messages st ++ [ user_message user_id prompt;
                                  assistant_message (reply_id fresh_id o) (reply_text o) ])
           /\ text <$> parts (user_message user_id prompt) = [trim prompt]
           /\ isThinking st' = false
           /\ pendingPrompt st' = None)).
Proof.
  destruct (decide (trim prompt = [])) as [Hp|Hp].
  { destruct (submitPrompt_not_sent user_id fresh_id st prompt)
      as (st' & H & Hm & Ht & Hpp & _); [by left|].
    exists st'. split; [done|]. left. by repeat split; try left. }
  destruct accessToken as [[|t token]|] eqn:Hacc.
  - destruct (submitPrompt_not_sent user_id fresh_id st prompt)
      as (st' & H & Hm & Ht & Hpp & _); [right; right; by rewrite Hacc|].
    rewrite <- Hacc. exists st'. split; [done|]. left.
    rewrite Hacc. by repeat split; try (right; right).
  - rewrite <- Hacc. rewrite (submitPrompt_sent user_id fresh_id st prompt (t :: token)) by done.
    eexists. split; [reflexivity|]. right. exists (t :: token). by repeat split.
  - destruct (submitPrompt_not_sent user_id fresh_id st prompt)
      as (st' & H & Hm & Ht & Hpp & _); [right; left; by rewrite Hacc|].
    rewrite <- Hacc. exists st'. split; [done|]. left.
    rewrite Hacc. by repeat split; try (right; left).
Qed.

End Growth.

End ChatFlow.

Module ChatApi.

Import Exn Chat.

Section OverFetch.
Context {File : Type}.
Context (API_BASE_URL : jsstring).
Context (Number_toString : Z -> jsstring).
Context (JSON_parse : jsstring -> option json).
Context (syntax_error_message : jsstring).
Context (stringify_chat : jsstring -> list (Role * jsstring) -> jsstring).
Context (as_ChatResponse : json -> option ChatResponse).
Context (copy : Copy) (type_error_message : jsstring).

(** The chat page with [sendChatMessage] of the API client, over a
    given [fetch]. *)
Definition submit (fetch : Api.Request File -> Api.fetched) (token : jsstring) :=
  submitPrompt copy (Some token) type_error_message
    (Api.sendChatMessage API_BASE_URL Number_toString JSON_parse syntax_error_message
       stringify_chat as_ChatResponse fetch).

(** The one request of a submitted prompt. *)
Definition request_of (user_id : jsstring) (st : State) (prompt token : jsstring)
  : Api.Request File :=
  Api.chat_request API_BASE_URL stringify_chat (trim prompt)
    (map history_entry (messages st ++ [ChatFlow.user_message user_id prompt]))
    (Some token).

(** The last message of the conversation is this assistant message,
    and the banner shows its text. *)
Definition answered_with (fresh_id body_text : jsstring) (c : completion State) : Prop :=
  exists st',
    c = Normal st'
    /\ last (messages st') = Some (assistant_message (lit "assistant-" ++ fresh_id) body_text)
    /\ errorMessage st' = Some body_text
    /\ isThinking st' = false.

(** When the server answers a prompt with a status that is not ok and a
    body that is not JSON, or is JSON with a string [detail], the
    assistant message is the error prefix followed by the whole body
    text, not by the detail alone. *)
Theorem chat_shows_raw_error_body fetch user_id fresh_id st prompt token response :
  trim prompt <> [] -> token <> [] ->
  fetch (request_of user_id st prompt token) = Api.Got response ->
  Api.ok response = false ->
  Api.body response <> [] ->
  (JSON_parse (Api.body response) = None
   \/ exists payload, JSON_parse (Api.body response) = Some payload
                      /\ Upload.has_string_detail payload = true) ->
  answered_with fresh_id (errorPrefix copy ++ Api.body response)
    (submit fetch token user_id fresh_id st prompt).
Proof.
  intros Hp Ht Hfetch Hok Hbody Hparse. unfold submit.
  rewrite (ChatFlow.submitPrompt_sent _ _ _ _ user_id fresh_id st prompt token) by done.
  unfold Api.sendChatMessage, Api.call. fold (request_of user_id st prompt token).
  rewrite Hfetch, (Api.handleResponse_not_ok _ _ _ _ _ Hok).
  assert (truthy (Api.body response) = true) as -> by (by destruct (Api.body response)).
  assert (match JSON_parse (Api.body response) with
          | Some payload => Upload.has_string_detail payload
          | None => true
          end = true) as ->.
  { destruct Hparse as [->|(payload & -> & ->)]; done. }
  cbn. eexists. split; [reflexivity|]. cbn.
  by rewrite cons_middle, app_assoc, last_snoc.
Qed.

(** When the server answers a prompt with an ok response that carries
    no body for the client (status 204 or 202, or a content length of
    zero), reading the reply fails and the assistant message is the
    error prefix followed by the message of that [TypeError]. *)
Theorem chat_reply_without_body fetch user_id fresh_id st prompt token response :
  trim prompt <> [] -> token <> [] ->
  fetch (request_of user_id st prompt token) = Api.Got response ->
  Api.ok response = true ->
  (Api.status response = 204%Z \/ Api.status response = 202%Z
   \/ Api.content_length response = Some (lit "0")) ->
  answered_with fresh_id (errorPrefix copy ++ type_error_message)
    (submit fetch token user_id fresh_id st prompt).
Proof.
  intros Hp Ht Hfetch Hok Hempty. unfold submit.
  rewrite (ChatFlow.submitPrompt_sent _ _ _ _ user_id fresh_id st prompt token) by done.
  unfold Api.sendChatMessage, Api.call. fold (request_of user_id st prompt token).
  rewrite Hfetch.
  assert (Api.handleResponse Number_toString JSON_parse
            syntax_error_message response true = Api.Returned None) as ->.
  { unfold Api.handleResponse. rewrite Hok. simpl.
    destruct Hempty as [-> | [-> | ->]]; [done|done|].
    destruct (Api.status response =? 204)%Z; [done|].
    rewrite bool_decide_true by done. by rewrite orb_true_r. }
  cbn. eexists. split; [reflexivity|]. cbn.
  by rewrite cons_middle, app_assoc, last_snoc.
Qed.

(** A submitted prompt makes at most one request, the one of
    [request_of]: two networks that answer that request alike leave
    the page in the same state; and a blank prompt, or an empty token,
    makes none, so that the network does not matter at all. *)
Theorem chat_makes_one_request fetch1 fetch2 user_id fresh_id st prompt token :
  fetch1 (request_of user_id st prompt token) = fetch2 (request_of user_id st prompt token)
  \/ trim prompt = [] \/ token = [] ->
  submit fetch1 token user_id fresh_id st prompt
  = submit fetch2 token user_id fresh_id st prompt.
Proof.
  intros Hsame. unfold submit.
  destruct (decide (trim prompt = [])) as [Hp|Hp].
  { unfold submitPrompt. by rewrite Hp. }
  destruct token as [|t token]; [done|].
  destruct Hsame as [Hsame|[?|?]]; [|done..].
  rewrite !(ChatFlow.submitPrompt_sent _ _ _ _ user_id fresh_id st prompt (t :: token))
    by done.
  unfold Api.sendChatMessage, Api.call. fold (request_of user_id st prompt (t :: token)).
  by rewrite Hsame.
Qed.

End OverFetch.

End ChatApi.

(** ** The upload card

    [handleUpload] of [components/data-upload.tsx], over [uploadDataset]
    of the API client. *)

Module UploadFlow.

Import Exn.

(** The entries of the [dataUpload] translations of the success toast. *)
Record SuccessCopy := {
  toastSuccessTitle : jsstring;
  toastSuccessDescription : jsstring;
}.

Inductive Shown :=
| SuccessToast (title description : jsstring)
| DestructiveToast (toast : Upload.Toast).

(** What an attempt does besides changing the state: the route
    prefetched and pushed, and the toast shown. *)
Record Effects := {
  prefetched : option jsstring;
  pushed : option jsstring;
  shown : option Shown;
}.

Section Card.
Context {File : Type}.
Context (API_BASE_URL : jsstring).
Context (Number_toString : Z -> jsstring).
Context (JSON_parse : jsstring -> option json).
Context (syntax_error_message : jsstring).
Context (toLowerCase : jsstring -> jsstring).
Context (fetch : Api.Request File -> Api.fetched).
Context (copy : Upload.Copy) (success : SuccessCopy).
Context (accessToken : option jsstring).

(** The state of the card. *)
Record State := {
  file : option File;
  isUploading : bool;
}.

Definition upload (f : File) : Api.handled :=
  Api.uploadDataset API_BASE_URL Number_toString JSON_parse syntax_error_message fetch
    f accessToken.

(** [handleUpload()] run to its end on the state [st]. *)
Definition handleUpload (st : State) : State * Effects :=
  match file st with
  | None => (st, {| prefetched := None; pushed := None; shown := None |})
  | Some f =>
      match upload f with
      | Api.Returned _ =>
          ({| file := None; isUploading := false |},
           {| prefetched := Some (lit "/analytics");
              pushed := Some (lit "/analytics");
              shown := Some (SuccessToast (toastSuccessTitle success)
                                          (toastSuccessDescription success)) |})
      | Api.Thrown error =>
          ({| file := file st; isUploading := false |},
           {| prefetched := None;
              pushed := None;
              shown := Some (DestructiveToast
                               (Upload.error_toast JSON_parse toLowerCase copy error)) |})
      end
  end.

(** The responses [handleResponse] takes for a success when it expects
    JSON. *)
Definition accepted (response : Api.Response) : bool :=
  Api.ok response
  && ((Api.status response =? 204)%Z || (Api.status response =? 202)%Z
      || bool_decide (Api.content_length response = Some (lit "0"))
      || bool_decide (is_Some (JSON_parse (Api.body response)))).

Lemma upload_Returned f :
  (exists value, upload f = Api.Returned value)
  <-> exists response,
        fetch (Api.upload_request API_BASE_URL f accessToken) = Api.Got response
        /\ accepted response = true.
Proof.
  unfold upload, Api.uploadDataset, Api.call.
  destruct (fetch _) as [e|response].
  { split; [by intros [? ?]|by intros (? & ? & _)]. }
  trans (accepted response = true).
  2:{ split; [eauto|]. by intros (r & [= <-] & H). }
  unfold accepted, Api.handleResponse.
  destruct (Api.ok response); simpl.
  2:{ split; [by intros [? ?]|done]. }
  destruct (Api.status response =? 204)%Z; simpl; [by split; eauto|].
  destruct (Api.status response =? 202)%Z; simpl; [by split; eauto|].
  destruct (bool_decide (Api.content_length response = Some (lit "0"))); simpl; [by split; eauto|].
  destruct (JSON_parse (Api.body response)) as [value|] eqn:Hparse.
  - rewrite bool_decide_true by eauto. split; eauto.
  - split; [by intros [? ?]|]. intros H.
    rewrite bool_decide_false in H; [done|]. by intros [? ?].
Qed.

(** An attempt with a file selected always ends out of the uploading
    state and shows exactly one toast.  It succeeds, which clears the
    file and pushes the analytics route, exactly when the network
    answers with a response the client accepts: ok, and without body
    for the client or with a body that parses.  Otherwise the file
    stays selected, no route is pushed, and the toast is the
    destructive one. *)
Theorem upload_attempt st f :
  file st = Some f ->
  let (st', effects) := handleUpload st in
  isUploading st' = false
  /\ ((exists response,
         fetch (Api.upload_request API_BASE_URL f accessToken) = Api.Got response
         /\ accepted response = true)
      /\ file st' = None
      /\ pushed effects = Some (lit "/analytics")
      /\ (exists t d, shown effects = Some (SuccessToast t d))
      \/
      (~ exists response,
         fetch (Api.upload_request API_BASE_URL f accessToken) = Api.Got response
         /\ accepted response = true)
      /\ file st' = Some f
      /\ pushed effects = None
      /\ (exists t, shown effects = Some (DestructiveToast t))).
Proof.
  intros Hf. unfold handleUpload. rewrite Hf.
  destruct (upload f) as [value|error] eqn:Hup; (split; [done|]).
  - left. split; [apply upload_Returned; eauto|]. simpl. eauto 10.
  - right. split.
    + intros H. apply upload_Returned in H as [value H]. congruence.
    + simpl. eauto 10.
Qed.

(** Without a file nothing happens, and no request is made. *)
Lemma upload_without_file st :
  file st = None ->
  handleUpload st = (st, {| prefetched := None; pushed := None; shown := None |}).
Proof. intros H. unfold handleUpload. by rewrite H. Qed.

(** The toast of a failed upload is never blank, as long as the generic
    text is not. *)
Theorem upload_toast_never_blank error :
  Upload.toastGenericDescription copy <> [] ->
  Upload.description (Upload.error_toast JSON_parse toLowerCase copy error) <> [].
Proof.
  intros Hg. simpl. unfold Upload.error_description.
  match goal with |- (if negb (truthy ?m) then _ else _) <> [] => destruct m end; done.
Qed.

(** From the response to the toast: when the server refuses an upload
    with a JSON object whose [detail] is a non-empty string, the toast
    shows the dedicated text if the detail mentions a duplicate, and
    the detail itself otherwise (the generic text standing in for an
    empty one). *)
Theorem refused_upload_shows_detail f response members d :
  fetch (Api.upload_request API_BASE_URL f accessToken) = Api.Got response ->
  Api.ok response = false ->
  Upload.looks_like_json (Api.body response) = true ->
  JSON_parse (Api.body response) = Some (JObject members) ->
  lookup_member (lit "detail") members = Some (JString d) ->
  d <> [] ->
  exists error,
    upload f = Api.Thrown error
    /\ message_of error = Api.body response
    /\ Upload.description (Upload.error_toast JSON_parse toLowerCase copy error) =
         Upload.or_else
           (if Upload.mentions_duplicate toLowerCase d
            then Upload.toastDuplicateDescription copy else d)
           (Upload.toastGenericDescription copy).
Proof.
  intros Hfetch Hok Hlooks Hparse Hdetail Hd.
  assert (Api.body response <> []) as Hbody.
  { intros Hnil. rewrite Hnil in Hlooks. done. }
  unfold upload, Api.uploadDataset, Api.call. rewrite Hfetch.
  rewrite (Api.handleResponse_not_ok _ _ _ _ _ Hok), Hparse.
  simpl Upload.has_string_detail. rewrite Hdetail.
  assert (truthy (Api.body response) = true) as -> by (by destruct (Api.body response)).
  eexists. split; [reflexivity|]. split; [reflexivity|].
  simpl Upload.description. rewrite Upload.error_description_eq.
  assert (Upload.extract_detail JSON_parse (ErrorObject (Api.body response))
          = Upload.Detail d) as ->.
  { unfold Upload.extract_detail. simpl message_of. rewrite Hlooks, Hparse.
    simpl is_object. cbv iota. unfold Upload.first_member, string_member.
    rewrite Hdetail. by destruct d. }
  cbv zeta. unfold Upload.or_else. by destruct (truthy _).
Qed.

End Card.

End UploadFlow.

(** ** History page: loading the list

    The effect and the body of [AnalyticsHistoryPage] in
    [app/analytics/history/page.tsx]. *)

Module HistoryPage.

Import Exn.

Section Page.
Context {num : Type}.
(** [fetchAnalyticsHistory(100, accessToken)], and the record an item
    of its value is read as. *)
Context (fetchAnalyticsHistory : Z -> option jsstring -> Api.handled).
Context (is_zero : jsstring -> bool).
Context (as_record : json -> History.DatasetRecord num).

(** The state of the page; the list is [None] when [setHistory] was
    given a value the body throws on: [undefined], or a value that is
    no list. *)
Record State := {
  history : option (list (History.DatasetRecord num));
  isLoading : bool;
  error : option jsstring;
}.

(** The effect on [accessToken], run to its end; [cancelled] tells
    that the effect was cleaned up before the request settled. *)
Definition load (accessToken : option jsstring) (cancelled : bool) (st : State) : State :=
  match accessToken with
  | Some (_ :: _) =>
      let st1 := {| history := history st; isLoading := true; error := error st |} in
      if cancelled then st1
      else
        match fetchAnalyticsHistory 100 accessToken with
        | Api.Returned data =>
            {| history := fmap (M:=list) as_record <$> (data ≫= Api.items_of is_zero);
               isLoading := false;
               error := None |}
        | Api.Thrown err =>
            {| history := history st;
               isLoading := false;
               error := Some (Upload.or_else (message_of err) (lit "Unable to load history.")) |}
        end
  | _ => {| history := Some []; isLoading := false; error := error st |}
  end.

(** The body of the page under the heading. *)
Inductive View :=
| Loading
| ErrorPanel (message : jsstring)
| EmptyState
| Table (rows : list (History.DatasetRecord num))
| RenderError.                       (* [history.length] of [undefined] *)

Definition view (st : State) : View :=
  if isLoading st then Loading
  else
    match error st with
    | Some ((_ :: _) as message) => ErrorPanel message
    | _ =>
        match history st with
        | None => RenderError
        | Some [] => EmptyState
        | Some rows => Table rows
        end
    end.

(** A load that fails always names an error: the page shows the error
    panel with a text that is not empty, the message of the error or
    the stock one; the rows loaded earlier are kept in the state but
    not shown. *)
Theorem failed_load_shows_error token st err :
  token <> [] ->
  fetchAnalyticsHistory 100 (Some token) = Api.Thrown err ->
  exists message,
    message <> []
    /\ (message = message_of err \/ message = lit "Unable to load history.")
    /\ error (load (Some token) false st) = Some message
    /\ view (load (Some token) false st) = ErrorPanel message
    /\ history (load (Some token) false st) = history st.
Proof.
  intros Ht Hfail. destruct token as [|t token]; [done|].
  unfold load. rewrite Hfail. unfold view. simpl.
  unfold Upload.or_else. destruct (message_of err) as [|c m] eqn:Hm; simpl.
  - exists (lit "Unable to load history."). by repeat split; try right.
  - exists (c :: m). by repeat split; try left.
Qed.

(** Without a token no request is made and no row is shown: the list is
    emptied, and the page shows the empty state, or the panel of an
    error left from before. *)
Theorem signed_out_shows_no_rows accessToken cancelled st :
  accessToken = None \/ accessToken = Some [] ->
  history (load accessToken cancelled st) = Some []
  /\ (view (load accessToken cancelled st) = EmptyState
      \/ exists message,
           error st = Some message
           /\ view (load accessToken cancelled st) = ErrorPanel message).
Proof.
  intros [-> | ->]; (split; [done|]); unfold view; simpl;
    destruct (error st) as [[|c m]|]; eauto.
Qed.

End Page.

End HistoryPage.

(** ** Dataset page

    The effect and the body of [DatasetDetailPage] in
    [app/analytics/history/[datasetId]/page.tsx]. *)

Module DetailPage.

Import Exn.

Section Page.
Context {num Detail : Type}.
Context (isNaN : num -> bool).
Context (not_positive : num -> bool).            (* datasetId <= 0 *)
(** [fetchAnalyticsDataset(datasetId, accessToken)], and the detail a
    truthy value of it is read as. *)
Context (fetchAnalyticsDataset : num -> option jsstring -> Api.handled).
Context (is_zero : jsstring -> bool).
Context (as_detail : json -> Detail).
(** [copy.error] of the [datasetDetail] translations. *)
Context (copy_error : jsstring).

Record State := {
  detail : option Detail;
  isLoading : bool;
  error : option jsstring;
}.

Definition invalidId (datasetId : num) : bool := isNaN datasetId || not_positive datasetId.

Definition has_token (accessToken : option jsstring) : bool :=
  match accessToken with
  | Some (_ :: _) => true
  | _ => false
  end.

(** The effect, run to its end. *)
Definition load (datasetId : num) (accessToken : option jsstring) (cancelled : bool)
    (st : State) : State :=
  if invalidId datasetId || negb (has_token accessToken) then
    {| detail := None; isLoading := false; error := error st |}
  else
    let st1 := {| detail := detail st; isLoading := true; error := error st |} in
    if cancelled then st1
    else
      match fetchAnalyticsDataset datasetId accessToken with
      | Api.Returned data =>
          {| detail := as_detail <$> Api.when_truthy is_zero data;
             isLoading := false;
             error := None |}
      | Api.Thrown err =>
          {| detail := None;
             isLoading := false;
             error := Some (Upload.or_else (message_of err) copy_error) |}
      end.

Inductive Block :=
| NotFound
| Loading
| ErrorPanel (message : jsstring)
| Dataset (d : Detail).

(** The blocks of the page, in order. *)
Definition view (datasetId : num) (st : State) : list Block :=
  (if invalidId datasetId then [NotFound] else [])
  ++ (if negb (invalidId datasetId) && isLoading st then [Loading]
      else
        match error st with
        | Some ((_ :: _) as message) => [ErrorPanel message]
        | _ =>
            match detail st with
            | Some d => [Dataset d]
            | None => []
            end
        end).

(** The page shows a dataset only when the load of this visit brought
    it: whatever was on the page before, after the effect a dataset
    block is there only if the identifier is valid, there is a token,
    and the request returned that dataset. *)
Theorem dataset_shown_only_when_loaded datasetId accessToken st d :
  Dataset d ∈ view datasetId (load datasetId accessToken false st) ->
  invalidId datasetId = false
  /\ has_token accessToken = true
  /\ exists value,
       fetchAnalyticsDataset datasetId accessToken = Api.Returned (Some value)
       /\ Api.truthy_value is_zero value = true
       /\ d = as_detail value.
Proof.
  unfold view, load.
  destruct (invalidId datasetId) eqn:Hid; simpl.
  { rewrite elem_of_cons. intros [?|H]; [done|].
    destruct (error st) as [[|c m]|]; simpl in H;
      apply elem_of_nil in H || apply list_elem_of_singleton in H; done. }
  destruct (has_token accessToken) eqn:Htok; simpl.
  2:{ intros H. destruct (error st) as [[|c m]|]; simpl in H;
        apply elem_of_nil in H || apply list_elem_of_singleton in H; done. }
  destruct (fetchAnalyticsDataset datasetId accessToken) as [[value|]|err]; simpl.
  - destruct (Api.truthy_value is_zero value) eqn:Hv; simpl.
    + intros [= ->]%list_elem_of_singleton. eauto 10.
    + by intros ?%elem_of_nil.
  - by intros ?%elem_of_nil.
  - intros H. destruct (Upload.or_else _ _); simpl in H;
      apply elem_of_nil in H || apply list_elem_of_singleton in H; done.
Qed.

(** For an identifier that is not a positive number no request is made
    and the page shows the not-found block first. *)
Lemma invalid_id_not_found datasetId accessToken cancelled st :
  invalidId datasetId = true ->
  head (view datasetId (load datasetId accessToken cancelled st)) = Some NotFound
  /\ detail (load datasetId accessToken cancelled st) = None.
Proof. intros H. unfold view, load. rewrite H. done. Qed.

End Page.

End DetailPage.

(** ** Authentication

    [AuthProvider] of [context/auth-context.tsx], and the submit
    handlers of [app/sign-in/page.tsx] and [app/sign-up/page.tsx].  The
    Supabase client is the platform's: how each of its calls ends is an
    input. *)

Module Auth.

Section Provider.
Context {User : Type}.

Record Session := {
  access_token : jsstring;
  user : User;
}.

(** The state of the provider. *)
Record State := {
  session : option Session;
  loading : bool;
  error : option jsstring;
}.

(** [accessToken: session?.access_token ?? null] *)
Definition accessToken (st : State) : option jsstring := access_token <$> session st.

(** [signIn(credentials)].  [sign_in_error] is the message of the error
    of [signInWithPassword], if it gave one; [current] is the session
    [getSession] gives afterwards.  The result is the [error] of the
    returned object. *)
Definition signIn (sign_in_error : option jsstring) (current : option Session) (st : State)
  : State * option jsstring :=
  match sign_in_error with
  | Some message =>
      ({| session := session st; loading := false; error := Some message |}, Some message)
  | None =>
      ({| session := current; loading := false; error := None |}, None)
  end.

(** What [signUp] returns. *)
Record SignUpResult := {
  result_error : option jsstring;             (* error *)
  confirmationEmailSent : option bool;
}.

(** [signUp(credentials)].  [created] is [data.session]. *)
Definition signUp (sign_up_error : option jsstring) (created : option Session) (st : State)
  : State * SignUpResult :=
  match sign_up_error with
  | Some message =>
      ({| session := session st; loading := false; error := Some message |},
       {| result_error := Some message; confirmationEmailSent := None |})
  | None =>
      ({| session := match created with Some s => Some s | None => session st end;
          loading := false;
          error := None |},
       {| result_error := None;
          confirmationEmailSent := Some (negb (bool_decide (is_Some created))) |})
  end.

(** [signOut()] *)
Definition signOut (sign_out_error : option jsstring) (st : State) : State :=
  {| session := None; loading := false; error := sign_out_error |}.

(** *** The sign-in form *)

(** The entries of the [auth] translations the sign-up handler reads. *)
Record Copy := {
  passwordMismatch : jsstring;
  signUpEmailNotice : jsstring;
}.

(** A string that is there and not empty. *)
Definition shown (o : option jsstring) : option jsstring :=
  match o with
  | Some (_ :: _) => o
  | _ => None
  end.

Record SignInForm := {
  in_formError : option jsstring;             (* formError *)
}.

(** [handleSubmit] of the sign-in page: the provider state, the form
    state and the route replaced, if any. *)
Definition signin_submit (sign_in_error : option jsstring) (current : option Session)
    (st : State) : State * SignInForm * option jsstring :=
  let '(st', signInError) := signIn sign_in_error current st in
  match shown signInError with
  | Some message => (st', {| in_formError := Some message |}, None)
  | None => (st', {| in_formError := None |}, Some (lit "/analytics"))
  end.

(** [formError || error], the text behind the error prefix; nothing is
    shown when it is empty. *)
Definition error_line (formError : option jsstring) (st : State) : option jsstring :=
  match shown formError with
  | Some message => Some message
  | None => shown (error st)
  end.

(** A sign-in that Supabase refuses with a message keeps the user on
    the form, shows that message, leaves the session as it was and ends
    the loading state; every other sign-in replaces the route with the
    analytics page. *)
Theorem signin_outcome sign_in_error current st :
  let '(st', form, route) := signin_submit sign_in_error current st in
  loading st' = false
  /\ ((exists message, sign_in_error = Some message /\ message <> []
         /\ route = None
         /\ error_line (in_formError form) st' = Some message
         /\ session st' = session st)
      \/ ((sign_in_error = None \/ sign_in_error = Some [])
          /\ route = Some (lit "/analytics")
          /\ in_formError form = None)).
Proof.
  unfold signin_submit, signIn.
  destruct sign_in_error as [[|c m]|]; simpl; (split; [done|]).
  - right. by repeat split; try right.
  - left. exists (c :: m). by repeat split.
  - right. by repeat split; try left.
Qed.

(** *** The sign-up form *)

Record SignUpForm := {
  up_formError : option jsstring;             (* formError *)
  successMessage : option jsstring;
}.

(** [handleSubmit] of the sign-up page. *)
Definition signup_submit (copy : Copy) (password confirmPassword : jsstring)
    (sign_up_error : option jsstring) (created : option Session) (st : State)
  : State * SignUpForm * option jsstring :=
  if negb (bool_decide (password = confirmPassword)) then
    (st, {| up_formError := Some (passwordMismatch copy); successMessage := None |}, None)
  else
    let '(st', result) := signUp sign_up_error created st in
    match shown (result_error result) with
    | Some message =>
        (st', {| up_formError := Some message; successMessage := None |}, None)
    | None =>
        match confirmationEmailSent result with
        | Some true =>
            (st', {| up_formError := None; successMessage := Some (signUpEmailNotice copy) |},
             None)
        | _ =>
            (st', {| up_formError := None; successMessage := None |}, Some (lit "/analytics"))
        end
    end.

(** The sign-up form replaces the route with the analytics page
    exactly when the two passwords are equal and Supabase either
    created a session without error, or gave an error whose message
    is empty.  When the passwords differ Supabase is not called: the
    provider state is untouched and the form shows the mismatch text. *)
Theorem signup_outcome copy password confirmPassword sign_up_error created st :
  let '(st', form, route) :=
    signup_submit copy password confirmPassword sign_up_error created st in
  (route = Some (lit "/analytics")
   <-> password = confirmPassword
       /\ ((sign_up_error = None /\ is_Some created) \/ sign_up_error = Some []))
  /\ (password <> confirmPassword ->
      st' = st /\ up_formError form = Some (passwordMismatch copy) /\ route = None)
  /\ (password = confirmPassword -> sign_up_error = None -> created = None ->
      successMessage form = Some (signUpEmailNotice copy)
      /\ session st' = session st /\ route = None).
Proof.
  unfold signup_submit, signUp.
  destruct (decide (password = confirmPassword)) as [Heq|Hne].
  - rewrite bool_decide_true by done. simpl.
    destruct sign_up_error as [[|c m]|]; simpl.
    + split; [|done]. split; [intros _; split; [done|by right]|done].
    + split; [|done]. split; [done|]. intros [_ [[? _]|?]]; done.
    + destruct created as [s|]; simpl.
      * split; [|done]. split; [intros _; split; [done|left; eauto]|done].
      * split; [|done]. split; [done|]. intros [_ [[_ [? ?]]|?]]; done.
  - rewrite bool_decide_false by done. simpl.
    split; [|done]. split; [done|]. by intros [? _].
Qed.

(** *** After signing out *)

(** Signing out drops the session whether or not Supabase reports an
    error, so that no access token is left. *)
Lemma signOut_no_token sign_out_error st :
  accessToken (signOut sign_out_error st) = None
  /\ loading (signOut sign_out_error st) = false.
Proof. done. Qed.

End Provider.

End Auth.

(** ** The language of the interface

    [LanguageProvider] of [context/language-context.tsx].  The state is
    the string React holds, whatever the type annotation says; the
    translations object is not part of these sources, so that the test
    [stored in translations] is an input. *)

Module LanguageContext.

Definition LANGUAGE_STORAGE_KEY : jsstring := lit "energy-insight-language".

(** [window.localStorage]: the item under each key. *)
Definition Storage : Type := jsstring -> option jsstring.

Definition setItem (key value : jsstring) (storage : Storage) : Storage :=
  fun k => if bool_decide (k = key) then Some value else storage k.

Section Provider.
Context (in_translations : jsstring -> bool).    (* stored in translations *)

(** The initial state of [useState]. *)
Definition initial : jsstring := lit "fr".

(** The effect that runs once after mounting, in a browser. *)
Definition restore (storage : Storage) (language : jsstring) : jsstring :=
  match storage LANGUAGE_STORAGE_KEY with
  | Some ((_ :: _) as stored) => if in_translations stored then stored else language
  | _ => language
  end.

(** [setLanguage(lang)], in a browser. *)
Definition setLanguage (lang : jsstring) (storage : Storage) : jsstring * Storage :=
  (lang, setItem LANGUAGE_STORAGE_KEY lang storage).

(** [toggleLanguage()] *)
Definition toggleLanguage (language : jsstring) (storage : Storage) : jsstring * Storage :=
  setLanguage (if bool_decide (language = lit "fr") then lit "en" else lit "fr") storage.

(** The provider after mounting on a storage. *)
Definition mounted (storage : Storage) : jsstring := restore storage initial.

(** Toggling always ends in French or English, whatever the language
    was: French gives English and everything else gives French.  So a
    second toggle undoes the first exactly when the language was one of
    the two, and the stored item always is the language shown. *)
Theorem toggle_two_languages language storage :
  let '(language', storage') := toggleLanguage language storage in
  (language = lit "fr" -> language' = lit "en")
  /\ (language <> lit "fr" -> language' = lit "fr")
  /\ (language' = lit "fr" \/ language' = lit "en")
  /\ storage' LANGUAGE_STORAGE_KEY = Some language'
  /\ (forall key, key <> LANGUAGE_STORAGE_KEY -> storage' key = storage key)
  /\ (fst (toggleLanguage language' storage') = language
      <-> language = lit "fr" \/ language = lit "en").
Proof.
  unfold toggleLanguage, setLanguage. cbn [fst snd].
  assert (Hkey : forall v storage0, setItem LANGUAGE_STORAGE_KEY v storage0 LANGUAGE_STORAGE_KEY
                                    = Some v).
  { intros v storage0. unfold setItem. by rewrite bool_decide_true. }
  assert (Hother : forall v key, key <> LANGUAGE_STORAGE_KEY ->
                                 setItem LANGUAGE_STORAGE_KEY v storage key = storage key).
  { intros v key Hk. unfold setItem. by rewrite bool_decide_false. }
  destruct (decide (language = lit "fr")) as [->|Hfr].
  - rewrite (bool_decide_true (lit "fr" = lit "fr")) by done.
    rewrite (bool_decide_false (lit "en" = lit "fr")) by done.
    split; [done|]. split; [done|].
    split; [by right|]. split; [apply Hkey|]. split; [apply Hother|].
    by split; [left|].
  - rewrite (bool_decide_false (language = lit "fr")) by done.
    rewrite (bool_decide_true (lit "fr" = lit "fr")) by done.
    split; [done|]. split; [done|].
    split; [by left|]. split; [apply Hkey|]. split; [apply Hother|].
    split; [by right|]. by intros [?|?].
Qed.

Lemma mounted_setItem lang storage :
  mounted (setItem LANGUAGE_STORAGE_KEY lang storage)
  = if truthy lang && in_translations lang then lang else initial.
Proof.
  unfold mounted, restore, setItem.
  rewrite bool_decide_true by done.
  by destruct lang as [|c lang]; simpl; [|destruct (in_translations _)].
Qed.

(** The chosen language survives a reload: a provider mounted on the
    storage left by [setLanguage] shows the language set, when that
    language is a key of the translations and not the empty string,
    and the initial French otherwise.  Only the last choice counts:
    what was stored before it makes no difference. *)
Theorem language_restored lang lang' storage :
  mounted (snd (setLanguage lang storage))
  = (if truthy lang && in_translations lang then lang else initial)
  /\ mounted (snd (setLanguage lang' (snd (setLanguage lang storage))))
     = mounted (snd (setLanguage lang' storage)).
Proof.
  unfold setLanguage. cbn [snd]. split.
  - apply mounted_setItem.
  - by rewrite !mounted_setItem.
Qed.

(** With French and English among the translations, the language
    reached by toggling is the one a reload shows. *)
Theorem toggle_restored language storage :
  in_translations (lit "fr") = true ->
  in_translations (lit "en") = true ->
  mounted (snd (toggleLanguage language storage)) = fst (toggleLanguage language storage).
Proof.
  intros Hfr Hen. unfold toggleLanguage, setLanguage. cbn [fst snd].
  rewrite mounted_setItem.
  by destruct (bool_decide (language = lit "fr")); rewrite ?Hfr, ?Hen.
Qed.

End Provider.

End LanguageContext.

(** ** Exporting again what was read back

    [escapeCsvValue] and [csvLine] of [app/analytics/page.tsx] applied
    to the fields read from a line they wrote. *)

Module CsvReexport.

Import JS Csv.

Section Stable.
Context {num : Type} (Number_toString : num -> jsstring).

Local Abbreviation field_text := (field_text Number_toString).
Local Abbreviation escapeCsvValue := (escapeCsvValue Number_toString).
Local Abbreviation csvLine := (csvLine Number_toString).

(** The text of a field is a text the cleaning leaves alone. *)
Lemma field_text_idem (v : value num) : field_text (VStr (field_text v)) = field_text v.
Proof.
  unfold Csv.field_text at 1. cbn [String_].
  rewrite replace_newlines_id by apply field_text_no_break.
  unfold Csv.field_text. apply trim_idem.
Qed.

Lemma escapeCsvValue_text (v : value num) :
  escapeCsvValue (VStr (field_text v)) = escapeCsvValue v.
Proof. unfold Csv.escapeCsvValue. by rewrite field_text_idem. Qed.

(** A line of at least one field that is read back and written again
    is the same line: the reader gives as many fields as were
    written, and writing them, as strings, gives the line character
    for character.  In particular numbers lose nothing by passing
    through their text. *)
Theorem reexport_is_stable (v : value num) (vs : list (value num)) :
  exists fields,
    parse_record (csvLine (v :: vs)) = Some fields
    /\ length fields = S (length vs)
    /\ csvLine (map VStr fields) = csvLine (v :: vs)
    /\ parse_record (csvLine (map VStr fields)) = Some fields.
Proof.
  exists (map field_text (v :: vs)).
  assert (Hline : csvLine (map VStr (map field_text (v :: vs))) = csvLine (v :: vs)).
  { unfold Csv.csvLine. f_equal. rewrite !map_map.
    apply map_ext. intros x. apply escapeCsvValue_text. }
  split; [apply parse_csvLine|].
  split; [by rewrite length_map|].
  split; [exact Hline|].
  rewrite Hline. apply parse_csvLine.
Qed.

End Stable.

End CsvReexport.

(** ** The recommendations on the panel and in the export

    [getLocalizedContent] and the palettes of
    [components/ai-recommendations.tsx] and
    [components/cost-breakdown-chart.tsx], beside the recommendation
    lines of [buildReportCsv]. *)

Module Recommendations.

Import JS Analytics Format Dashboard.

Lemma badgePalette_NoDup : NoDup badgePalette.
Proof. apply (bool_decide_unpack _). by vm_compute. Qed.

Lemma colorPalette_NoDup : NoDup colorPalette.
Proof. apply (bool_decide_unpack _). by vm_compute. Qed.

(** Two picks from a palette of distinct entries are equal exactly when
    the indices are congruent modulo its length. *)
Lemma pick_eq palette i j :
  NoDup palette -> palette <> [] ->
  pick palette i = pick palette j
  <-> (i mod length palette = j mod length palette)%nat.
Proof.
  intros Hnd Hne. unfold pick.
  assert (Hlen : (length palette <> 0)%nat) by by destruct palette.
  split; [|by intros ->].
  apply NoDup_ListNoDup in Hnd.
  intros Heq. eapply (proj1 (List.NoDup_nth palette []) Hnd); [| |exact Heq];
    by apply Nat.mod_upper_bound.
Qed.

(** The chips of the badges take the four classes of the palette in
    turn: two chips have the same class exactly when their positions
    differ by a multiple of four. *)
Theorem badge_classes_cycle bs i j chip chip' :
  badge_chips bs !! i = Some chip ->
  badge_chips bs !! j = Some chip' ->
  chip_class chip = chip_class chip' <-> (i mod 4 = j mod 4)%nat.
Proof.
  unfold badge_chips. rewrite !list_lookup_imap.
  destruct (bs !! i) as [b|]; [|done]. destruct (bs !! j) as [b'|]; [|done].
  simpl. intros [= <-] [= <-]. simpl.
  by apply (pick_eq badgePalette i j badgePalette_NoDup).
Qed.

Section Cells.
Context {num : Type}.
Context (Intl_NumberFormat : jsstring -> NumberFormatOptions -> num -> jsstring).
Context (language : Language).

(** The cells of the cost chart take the four colours in turn, and
    each cell keeps the name and the value of its segment. *)
Theorem cost_colours_cycle (data : list (CostSegment num)) i j cell cell' :
  CostBreakdownChart Intl_NumberFormat language data !! i = Some cell ->
  CostBreakdownChart Intl_NumberFormat language data !! j = Some cell' ->
  (cell_color cell = cell_color cell' <-> (i mod 4 = j mod 4)%nat)
  /\ exists seg, data !! i = Some seg
       /\ cell_name cell = segment seg /\ cell_value cell = segment_value seg.
Proof.
  unfold CostBreakdownChart. rewrite !list_lookup_imap.
  destruct (data !! i) as [s|]; [|done]. destruct (data !! j) as [s'|]; [|done].
  simpl. intros [= <-] [= <-]. simpl. split.
  - by apply (pick_eq colorPalette i j colorPalette_NoDup).
  - by exists s.
Qed.

End Cells.

Section Texts.
Context {num : Type}.
Context (Number_toString : num -> jsstring).
Context (of_nat : nat -> num).

Local Abbreviation recommendation_lines := (Report.recommendation_lines Number_toString of_nat).
Local Abbreviation row := (Report.row Number_toString).

(** When the export finds a text for the language, the card of the
    panel shows that same text, and the first export line of the
    recommendation holds the title and the impact of the card. *)
Theorem export_matches_card language index rec l :
  Report.localized_of language rec = Some l ->
  let card := recommendation_card language rec in
  rc_title card = loc_title l
  /\ rc_impact card = loc_impact l
  /\ rc_tips card = loc_tips l
  /\ head (recommendation_lines language index rec)
     = Some (row (lit "Recommendation") (rc_title card) (rc_impact card)).
Proof.
  intros Hl card.
  assert (Hg : getLocalizedContent rec language = l).
  { revert Hl. unfold Report.localized_of, getLocalizedContent.
    destruct (rec_content rec) as [content|]; [|done].
    destruct language, (content_fr content) as [lf|], (content_en content) as [le|];
      simpl; intros [= <-]; done. }
  subst card. unfold recommendation_card, Report.recommendation_lines.
  rewrite Hg, Hl. done.
Qed.

(** In English a recommendation that has a French text only is shown
    on the panel with that French text, while the export falls back on
    the category and the number of the recommendation. *)
Theorem english_export_ignores_french index rec content l :
  rec_content rec = Some content ->
  content_en content = None ->
  content_fr content = Some l ->
  rc_title (recommendation_card en rec) = loc_title l
  /\ rc_tips (recommendation_card en rec) = loc_tips l
  /\ head (recommendation_lines en index rec)
     = Some (row (lit "Recommendation")
                 (category rec ++ lit " #" ++ Number_toString (of_nat (index + 1)))
                 (impact_value (rec_impact rec))).
Proof.
  intros Hc Hen Hfr.
  assert (Hl : Report.localized_of en rec = None).
  { unfold Report.localized_of. by rewrite Hc, Hen. }
  unfold recommendation_card, getLocalizedContent, Report.recommendation_lines.
  rewrite Hl, Hc, Hen, Hfr. done.
Qed.


End Texts.

End Recommendations.

(** ** The analytics page

    The loading effect, the export handler and the export button of
    [app/analytics/page.tsx] around [buildReportCsv] and the board.
    [downloadCsv] is the browser's work and is recorded as an effect. *)

Module AnalyticsPage.

Import JS Exn Analytics Format.

(** The entries of the [analyticsPage] translations the handler reads. *)
Record Copy := {
  exportUnavailable : jsstring;
  exportSuccess : jsstring;
  exportError : jsstring;
}.

Record Toast := {
  toast_title : jsstring;
  toast_description : option jsstring;
  toast_destructive : bool;
}.

Record Effects := {
  toasts : list Toast;
  downloads : list (jsstring * jsstring);      (* file name, content *)
}.

Section Page.
Context {num : Type}.
Context (Number_toString : num -> jsstring).
Context (Number_ : jsstring -> num).
Context (isFinite isNaN is_integer : num -> bool).
Context (of_nat : nat -> num).
Context (toLowerCase : jsstring -> jsstring).
Context (Intl_NumberFormat : jsstring -> NumberFormatOptions -> num -> jsstring).
Context (Intl_DateTimeFormat : jsstring -> DateTimeFormatOptions -> jsstring -> option jsstring).
Context (range_error_message : jsstring).    (* the message of the error of a rejected date *)
Context (statsTitles : jsstring -> option jsstring).
Context (panelCopy : Dashboard.PanelCopy).
Context (language : Language).
Context (fetchAnalyticsSummary : option jsstring -> Api.handled).
Context (is_zero : jsstring -> bool).
Context (as_summary : json -> AnalyticsSummary num).   (* a truthy value, as a summary *)
Context (copy : Copy).
Context (today : jsstring).                  (* the date part of the ISO time of now *)

Local Abbreviation buildReportCsv :=
  (Report.buildReportCsv Number_toString Number_ isFinite of_nat toLowerCase
     Intl_NumberFormat Intl_DateTimeFormat).
Local Abbreviation formatDate := (formatDate Intl_DateTimeFormat).
Local Abbreviation page_body :=
  (Dashboard.page_body Number_toString Number_ isNaN is_integer toLowerCase
     Intl_NumberFormat statsTitles panelCopy language).

Record State := {
  analytics : option (AnalyticsSummary num);
  isLoading : bool;
  isExporting : bool;
}.

(** The effect on [accessToken], run to its end; [cancelled] tells
    that the effect was cleaned up before the request settled. *)
Definition load (accessToken : option jsstring) (cancelled : bool) (st : State) : State :=
  match accessToken with
  | Some (_ :: _) =>
      if cancelled then
        {| analytics := analytics st; isLoading := true; isExporting := isExporting st |}
      else
        match fetchAnalyticsSummary accessToken with
        | Api.Returned data =>
            {| analytics := as_summary <$> Api.when_truthy is_zero data;
               isLoading := false;
               isExporting := isExporting st |}
        | Api.Thrown _ =>
            {| analytics := None; isLoading := false; isExporting := isExporting st |}
        end
  | _ => {| analytics := None; isLoading := false; isExporting := isExporting st |}
  end.

(** [handleExportReport()] *)
Definition handleExportReport (st : State) : State * Effects :=
  match analytics st with
  | None =>
      (st,
       {| toasts := [ {| toast_title := exportUnavailable copy;
                         toast_description := None;
                         toast_destructive := true |} ];
          downloads := [] |})
  | Some a =>
      let st' := {| analytics := analytics st; isLoading := isLoading st;
                    isExporting := false |} in
      match buildReportCsv a language with
      | Some csvContent =>
          (st',
           {| toasts := [ {| toast_title := exportSuccess copy;
                             toast_description := None;
                             toast_destructive := false |} ];
              downloads :=
                [ (lit "energy-insight-report-" ++ today ++ lit ".csv", csvContent) ] |})
      | None =>
          (st',
           {| toasts := [ {| toast_title := exportError copy;
                             toast_description := Some range_error_message;
                             toast_destructive := true |} ];
              downloads := [] |})
      end
  end.

(** [disabled] of the export button. *)
Definition export_disabled (st : State) : bool :=
  negb (bool_decide (is_Some (analytics st))) || isExporting st.

(** The body of the page. *)
Definition body (st : State) : Dashboard.PageBody := page_body (isLoading st) (analytics st).

(** The dates of the insights that the report formats. *)
Definition report_dates (a : AnalyticsSummary num) : list jsstring :=
  match insights a with
  | Some i => day_date (peak_day i) :: map day_date (top_expensive_days i)
  | None => []
  end.

Lemma mapM_id_imap {A} (f : nat -> A -> option jsstring) (P : A -> Prop) (l : list A) :
  (forall i x, is_Some (f i x) <-> P x) ->
  is_Some (mapM id (imap f l)) <-> Forall P l.
Proof.
  intros Hf. rewrite mapM_is_Some. revert f Hf.
  induction l as [|x l IH]; intros f Hf; simpl; [by split; constructor|].
  rewrite !Forall_cons. simpl. rewrite (Hf 0%nat x).
  by rewrite (IH (f ∘ S)) by (intros i y; apply Hf).
Qed.

(** The report is built exactly when the date formatter accepts every
    date of the insights; everything else in a summary is written as
    it is. *)
Lemma buildReportCsv_is_Some a :
  is_Some (buildReportCsv a language)
  <-> Forall (fun d => is_Some (formatDate d language Report.medium)) (report_dates a).
Proof.
  unfold Report.buildReportCsv, Report.report_lines, report_dates, Report.insights_lines.
  destruct (insights a) as [i|]; simpl.
  - rewrite Forall_cons, Forall_map.
    rewrite <- (mapM_id_imap
                  (Report.expensive_day_line Number_toString of_nat Intl_NumberFormat
                     Intl_DateTimeFormat language)
                  (fun x => is_Some (formatDate (day_date x) language Report.medium))
                  (top_expensive_days i)).
    + destruct (formatDate (day_date (peak_day i)) language Report.medium) as [d|]; simpl.
      * destruct (mapM id _) as [days|]; simpl.
        -- split; [intros _; split; eauto|eauto].
        -- split; [by intros [? ?]|by intros [_ [? ?]]].
      * split; [by intros [? ?]|by intros [[? ?] _]].
    + intros idx day. unfold Report.expensive_day_line.
      by destruct (formatDate (day_date day) language Report.medium).
  - split; [by constructor|eauto].
Qed.

(** An export always ends with exactly one toast and the button free
    again.  A file is downloaded exactly when a summary is loaded and
    the formatter accepts every date of its insights; the file is then
    named after the day, every line of it is blank or reads back as a
    record of three fields, and the toast is the success one.  In
    every other case the toast is a destructive one and nothing is
    downloaded. *)
Theorem export_outcome st :
  let '(st', effects) := handleExportReport st in
  analytics st' = analytics st
  /\ isLoading st' = isLoading st
  /\ (is_Some (analytics st) -> isExporting st' = false)
  /\ (exists toast, toasts effects = [toast]
        /\ toast_destructive toast = bool_decide (downloads effects = []))
  /\ ((exists a content,
         analytics st = Some a
         /\ Forall (fun d => is_Some (formatDate d language Report.medium)) (report_dates a)
         /\ downloads effects
            = [(lit "energy-insight-report-" ++ today ++ lit ".csv", content)]
         /\ Forall (Report.report_line Number_toString) (Csv.split_crlf content)
         /\ toast_title <$> toasts effects = [exportSuccess copy])
      \/ (downloads effects = []
          /\ (analytics st = None
              \/ exists a, analytics st = Some a
                   /\ ~ Forall (fun d => is_Some (formatDate d language Report.medium))
                               (report_dates a)))).
Proof.
  unfold handleExportReport.
  destruct (analytics st) as [a|] eqn:Ha.
  - pose proof (buildReportCsv_is_Some a) as Hdates.
    destruct (buildReportCsv a language) as [content|] eqn:Hcsv.
    + simpl. rewrite ?Ha. repeat split; [by eexists|].
      left. exists a, content. split; [done|]. split; [by apply Hdates|].
      split; [done|]. split; [|done].
      destruct (Report.buildReportCsv_records _ _ _ _ _ _ _ _ _ _ Hcsv)
        as (ls & _ & _ & -> & Hok).
      exact Hok.
    + simpl. rewrite ?Ha. repeat split; [by eexists|].
      right. split; [done|]. right. exists a. split; [done|].
      intros Hall. apply Hdates in Hall. by destruct Hall.
  - simpl. rewrite ?Ha. repeat split; [done|by eexists|].
    right. split; [done|by left].
Qed.

(** Once a load has settled the page never shows a board of an
    earlier load: it shows the board of the summary just returned, or
    the empty state with the export button disabled; a request that
    fails, an answer without a body and a missing token all give the
    empty state. *)
Theorem settled_load_shows_latest accessToken st :
  let st' := load accessToken false st in
  isLoading st' = false
  /\ ((exists token data,
         accessToken = Some token /\ token <> []
         /\ fetchAnalyticsSummary accessToken = Api.Returned (Some data)
         /\ Api.truthy_value is_zero data = true
         /\ analytics st' = Some (as_summary data)
         /\ body st' = page_body false (Some (as_summary data))
         /\ export_disabled st' = isExporting st)
      \/ (analytics st' = None
          /\ body st' = Dashboard.EmptyState
          /\ export_disabled st' = true
          /\ downloads (snd (handleExportReport st')) = [])).
Proof.
  unfold load.
  destruct accessToken as [[|c token]|] eqn:Htok.
  - simpl. split; [done|]. by right.
  - rewrite <- Htok.
    destruct (fetchAnalyticsSummary accessToken) as [[data|]|err] eqn:Hfetch; simpl.
    + split; [done|].
      destruct (Api.truthy_value is_zero data) eqn:Hv; simpl.
      * left. exists (c :: token), data. by repeat split.
      * by right.
    + split; [done|]. by right.
    + split; [done|]. by right.
  - simpl. split; [done|]. by right.
Qed.

End Page.

End AnalyticsPage.

(** ** The pages after signing out

    [signOut] of the provider followed by the effects and handlers of
    the pages, which all read [accessToken] from the provider. *)

Module SignedOut.

Import JS Exn.

Section Pages.
Context {User num Detail : Type}.

(** After [signOut], whether Supabase reported an error or not, no
    page reaches the server any more: a chat prompt is answered
    locally and adds no message, and the history, the dashboard and
    the dataset page come up empty, whatever their requests would
    have returned. *)
Theorem sign_out_ends_access (sign_out_error : option jsstring) (auth : Auth.State (User:=User)) :
  let accessToken := Auth.accessToken (Auth.signOut sign_out_error auth) in
  (forall copy type_error_message backend backend' user_id fresh_id st prompt,
      Chat.submitPrompt copy accessToken type_error_message backend user_id fresh_id st prompt
      = Chat.submitPrompt copy accessToken type_error_message backend' user_id fresh_id st prompt
      /\ exists st',
           Chat.submitPrompt copy accessToken type_error_message backend user_id fresh_id
             st prompt = Chat.Normal st'
           /\ Chat.messages st' = Chat.messages st)
  /\ (forall fetchAnalyticsHistory is_zero as_record cancelled st,
        HistoryPage.history
          (HistoryPage.load (num:=num) fetchAnalyticsHistory is_zero as_record accessToken
             cancelled st)
        = Some [])
  /\ (forall fetchAnalyticsSummary is_zero as_summary cancelled st,
        AnalyticsPage.analytics
          (AnalyticsPage.load (num:=num) fetchAnalyticsSummary is_zero as_summary accessToken
             cancelled st)
        = None)
  /\ (forall isNaN not_positive fetchAnalyticsDataset is_zero as_detail copy_error datasetId
             cancelled st,
        DetailPage.detail
          (DetailPage.load (num:=num) (Detail:=Detail) isNaN not_positive
             fetchAnalyticsDataset is_zero as_detail copy_error datasetId accessToken
             cancelled st)
        = None).
Proof.
  simpl. split; [|split; [done|split; [done|]]].
  - intros copy tem backend backend' user_id fresh_id st prompt.
    destruct (ChatFlow.submitPrompt_not_sent copy None tem backend user_id fresh_id st prompt)
      as (st1 & H1 & Hm1 & _); [by right; left|].
    destruct (ChatFlow.submitPrompt_not_sent copy None tem backend' user_id fresh_id st prompt)
      as (st2 & H2 & Hm2 & _); [by right; left|].
    split; [|by exists st1].
    unfold Chat.submitPrompt in *. destruct (trim prompt); done.
  - intros. unfold DetailPage.load. simpl. by rewrite orb_true_r.
Qed.

End Pages.

End SignedOut.

(** ** Worked cases

    The theorems above at concrete inputs: a small history, a server
    that answers 500, 204 or 409, a provider without a token, a
    recommendation with a French text only. *)

Module Scenarios.

Import JS Exn.

(** *** Deleting from a history of three *)

Definition dataset (n : Z) (name : string) : History.DatasetRecord Z :=
  {| History.id := n;
     History.original_filename := lit name;
     History.uploaded_at := lit "2025-03-01T10:00:00Z";
     History.total_kwh := 41%Z;
     History.total_cost := 14%Z;
     History.total_co2 := 18%Z;
     History.row_count := 2%Z |}.

Definition three_datasets : list (History.DatasetRecord Z) :=
  [dataset 1 "january.csv"; dataset 2 "february.csv"; dataset 3 "march.csv"].

Lemma delete_one_row_witness :
  exists before x after,
    three_datasets = before ++ x :: after
    /\ History.id x = 2%Z
    /\ fst (History.onDelete true History.Deleted 2%Z three_datasets) = before ++ after
    /\ (length (fst (History.onDelete true History.Deleted 2%Z three_datasets)) + 1
        = length three_datasets)%nat.
Proof.
  apply (HistoryList.delete_one_row 2%Z three_datasets).
  - apply (bool_decide_unpack _). by vm_compute.
  - apply (bool_decide_unpack _). by vm_compute.
Defined.

(** *** The chat page over the network *)

Definition API_BASE_URL : jsstring := lit "http://127.0.0.1:8000".

Definition stringify_chat (prompt : jsstring) (history : list (Chat.Role * jsstring))
  : jsstring := Sample.object1 (lit "prompt") prompt.

Definition as_ChatResponse (value : json) : option Chat.ChatResponse := None.

Definition server_error : Api.Response :=
  {| Api.status := 500; Api.body := lit "Internal Server Error"; Api.content_length := None |}.

Definition no_content : Api.Response :=
  {| Api.status := 204; Api.body := []; Api.content_length := None |}.

Definition always (response : Api.Response) (request : Api.Request unit) : Api.fetched :=
  Api.Got response.

(** A network that answers POST requests only. *)
Definition post_only (response : Api.Response) (request : Api.Request unit) : Api.fetched :=
  if bool_decide (Api.method request = lit "POST") then Api.Got response
  else Api.Rejected OtherValue.

Definition chat_over (fetch : Api.Request unit -> Api.fetched) : Chat.completion Chat.State :=
  ChatApi.submit API_BASE_URL Sample.decimal Sample.parse_flat (lit "Unexpected token")
    stringify_chat as_ChatResponse Sample.chat_copy (lit "Cannot read properties of undefined")
    fetch (lit "token") (lit "1-2") (lit "3-4") Sample.empty_page (lit "How much did I use?").

Lemma chat_shows_raw_error_body_witness :
  ChatApi.answered_with (lit "3-4") (lit "Error: Internal Server Error")
    (chat_over (always server_error)).
Proof.
  apply (ChatApi.chat_shows_raw_error_body API_BASE_URL Sample.decimal Sample.parse_flat
           (lit "Unexpected token") stringify_chat as_ChatResponse Sample.chat_copy
           (lit "Cannot read properties of undefined") (always server_error)
           (lit "1-2") (lit "3-4") Sample.empty_page (lit "How much did I use?")
           (lit "token") server_error).
  - discriminate.
  - discriminate.
  - reflexivity.
  - reflexivity.
  - discriminate.
  - left. reflexivity.
Defined.

Lemma chat_reply_without_body_witness :
  ChatApi.answered_with (lit "3-4") (lit "Error: Cannot read properties of undefined")
    (chat_over (always no_content)).
Proof.
  apply (ChatApi.chat_reply_without_body API_BASE_URL Sample.decimal Sample.parse_flat
           (lit "Unexpected token") stringify_chat as_ChatResponse Sample.chat_copy
           (lit "Cannot read properties of undefined") (always no_content)
           (lit "1-2") (lit "3-4") Sample.empty_page (lit "How much did I use?")
           (lit "token") no_content).
  - discriminate.
  - discriminate.
  - reflexivity.
  - reflexivity.
  - left. reflexivity.
Defined.

Lemma chat_makes_one_request_witness :
  chat_over (always server_error) = chat_over (post_only server_error).
Proof.
  apply (ChatApi.chat_makes_one_request API_BASE_URL Sample.decimal Sample.parse_flat
           (lit "Unexpected token") stringify_chat as_ChatResponse Sample.chat_copy
           (lit "Cannot read properties of undefined")
           (always server_error) (post_only server_error)
           (lit "1-2") (lit "3-4") Sample.empty_page (lit "How much did I use?")
           (lit "token")).
  left. reflexivity.
Defined.

(** *** The upload card *)

Definition success_copy : UploadFlow.SuccessCopy :=
  {| UploadFlow.toastSuccessTitle := lit "Upload complete";
     UploadFlow.toastSuccessDescription := lit "Your dashboard is ready." |}.

Definition conflict : Api.Response :=
  {| Api.status := 409;
     Api.body := Sample.object1 (lit "detail") (lit "Duplicate dataset for this user");
     Api.content_length := None |}.

Definition card_with_file : UploadFlow.State (File:=unit) :=
  {| UploadFlow.file := Some tt; UploadFlow.isUploading := false |}.

Definition handleUpload_over (fetch : Api.Request unit -> Api.fetched)
  : UploadFlow.State (File:=unit) -> UploadFlow.State (File:=unit) * UploadFlow.Effects :=
  UploadFlow.handleUpload API_BASE_URL Sample.decimal Sample.parse_flat
    (lit "Unexpected token") lower fetch Sample.upload_copy success_copy (Some (lit "token")).

Definition accepted (response : Api.Response) : bool :=
  UploadFlow.accepted Sample.parse_flat response.

Lemma upload_attempt_witness :
  let (st', effects) := handleUpload_over (always conflict) card_with_file in
  UploadFlow.isUploading st' = false
  /\ ((exists response,
         always conflict
           (Api.upload_request API_BASE_URL tt (Some (lit "token"))) = Api.Got response
         /\ accepted response = true)
      /\ UploadFlow.file st' = None
      /\ UploadFlow.pushed effects = Some (lit "/analytics")
      /\ (exists t d, UploadFlow.shown effects = Some (UploadFlow.SuccessToast t d))
      \/
      (~ exists response,
         always conflict
           (Api.upload_request API_BASE_URL tt (Some (lit "token"))) = Api.Got response
         /\ accepted response = true)
      /\ UploadFlow.file st' = Some tt
      /\ UploadFlow.pushed effects = None
      /\ (exists t, UploadFlow.shown effects = Some (UploadFlow.DestructiveToast t))).
Proof.
  apply (UploadFlow.upload_attempt API_BASE_URL Sample.decimal Sample.parse_flat
           (lit "Unexpected token") lower (always conflict) Sample.upload_copy success_copy
           (Some (lit "token")) card_with_file tt).
  reflexivity.
Defined.

Lemma upload_toast_never_blank_witness :
  Upload.description
    (Upload.error_toast Sample.parse_flat lower Sample.upload_copy (ErrorObject []))
  <> [].
Proof.
  apply (UploadFlow.upload_toast_never_blank Sample.parse_flat lower Sample.upload_copy
           (ErrorObject [])).
  discriminate.
Defined.

Lemma refused_upload_shows_detail_witness :
  exists error,
    Api.uploadDataset API_BASE_URL Sample.decimal Sample.parse_flat (lit "Unexpected token")
      (always conflict) tt (Some (lit "token")) = Api.Thrown error
    /\ message_of error = Api.body conflict
    /\ Upload.description (Upload.error_toast Sample.parse_flat lower Sample.upload_copy error)
       = Upload.or_else
           (if Upload.mentions_duplicate lower (lit "Duplicate dataset for this user")
            then Upload.toastDuplicateDescription Sample.upload_copy
            else lit "Duplicate dataset for this user")
           (Upload.toastGenericDescription Sample.upload_copy).
Proof.
  apply (UploadFlow.refused_upload_shows_detail API_BASE_URL Sample.decimal Sample.parse_flat
           (lit "Unexpected token") lower (always conflict) Sample.upload_copy
           (Some (lit "token")) tt conflict
           [(lit "detail", JString (lit "Duplicate dataset for this user"))]
           (lit "Duplicate dataset for this user")).
  - reflexivity.
  - reflexivity.
  - reflexivity.
  - reflexivity.
  - reflexivity.
  - discriminate.
Defined.

(** *** The history page and the dataset page *)

Definition failing_history (limit : Z) (accessToken : option jsstring) : Api.handled :=
  Api.Thrown (ErrorObject (lit "Request failed with status 500")).

(** The number texts without exponent that stand for 0: those with
    no digit other than 0. *)
Definition is_zero (text : jsstring) : bool :=
  forallb (fun c => negb ((49 <=? c) && (c <=? 57))) text.

Definition any_record (value : json) : History.DatasetRecord Z := dataset 0 "unknown.csv".

Definition loaded_history : HistoryPage.State (num:=Z) :=
  {| HistoryPage.history := Some three_datasets;
     HistoryPage.isLoading := false;
     HistoryPage.error := None |}.

Lemma failed_load_shows_error_witness :
  exists message,
    message <> []
    /\ (message = lit "Request failed with status 500"
        \/ message = lit "Unable to load history.")
    /\ HistoryPage.error
         (HistoryPage.load failing_history is_zero any_record (Some (lit "token")) false loaded_history)
       = Some message
    /\ HistoryPage.view
         (HistoryPage.load failing_history is_zero any_record (Some (lit "token")) false loaded_history)
       = HistoryPage.ErrorPanel message
    /\ HistoryPage.history
         (HistoryPage.load failing_history is_zero any_record (Some (lit "token")) false loaded_history)
       = Some three_datasets.
Proof.
  apply (HistoryPage.failed_load_shows_error failing_history is_zero any_record (lit "token")
           loaded_history (ErrorObject (lit "Request failed with status 500"))).
  - discriminate.
  - reflexivity.
Defined.

Lemma signed_out_shows_no_rows_witness :
  HistoryPage.history (HistoryPage.load failing_history is_zero any_record None false loaded_history)
  = Some []
  /\ (HistoryPage.view (HistoryPage.load failing_history is_zero any_record None false loaded_history)
      = HistoryPage.EmptyState
      \/ exists message,
           HistoryPage.error loaded_history = Some message
           /\ HistoryPage.view
                (HistoryPage.load failing_history is_zero any_record None false loaded_history)
              = HistoryPage.ErrorPanel message).
Proof.
  apply (HistoryPage.signed_out_shows_no_rows failing_history is_zero any_record None false
           loaded_history).
  left. reflexivity.
Defined.

Definition isNaN (n : option Z) : bool := bool_decide (n = None).

Definition not_positive (n : option Z) : bool :=
  match n with
  | Some z => (z <=? 0)%Z
  | None => false
  end.

Definition stored_dataset (id : option Z) (accessToken : option jsstring) : Api.handled :=
  Api.Returned (Some (JObject [(lit "dataset", JString (lit "march.csv"))])).

Definition fresh_detail_page : DetailPage.State (Detail:=json) :=
  {| DetailPage.detail := None; DetailPage.isLoading := true; DetailPage.error := None |}.

Lemma dataset_shown_only_when_loaded_witness :
  DetailPage.invalidId isNaN not_positive (Some 3%Z) = false
  /\ DetailPage.has_token (Some (lit "token")) = true
  /\ exists value,
       stored_dataset (Some 3%Z) (Some (lit "token")) = Api.Returned (Some value)
       /\ Api.truthy_value is_zero value = true
       /\ JObject [(lit "dataset", JString (lit "march.csv"))] = id value.
Proof.
  apply (DetailPage.dataset_shown_only_when_loaded isNaN not_positive stored_dataset is_zero id
           (lit "Unable to load dataset.") (Some 3%Z) (Some (lit "token")) fresh_detail_page
           (JObject [(lit "dataset", JString (lit "march.csv"))])).
  apply list_elem_of_singleton. reflexivity.
Defined.

(** *** The language *)

Definition in_translations (key : jsstring) : bool :=
  bool_decide (key = lit "fr") || bool_decide (key = lit "en").

Definition empty_storage : LanguageContext.Storage := fun _ => None.

Lemma toggle_restored_witness :
  LanguageContext.mounted in_translations
    (snd (LanguageContext.toggleLanguage (lit "fr") empty_storage))
  = fst (LanguageContext.toggleLanguage (lit "fr") empty_storage).
Proof.
  apply (LanguageContext.toggle_restored in_translations (lit "fr") empty_storage).
  - reflexivity.
  - reflexivity.
Defined.

(** *** Badges, cost cells and recommendation cards *)

Definition badge (label : string) : Analytics.SummaryBadge :=
  {| Analytics.badge_label := lit label; Analytics.badge_value := lit "1" |}.

Definition six_badges : list Analytics.SummaryBadge :=
  [badge "a"; badge "b"; badge "c"; badge "d"; badge "e"; badge "f"].

Lemma badge_classes_cycle_witness :
  Dashboard.chip_class
    {| Dashboard.chip_class := lit "text-primary bg-primary/10";
       Dashboard.chip_text := lit "b: 1" |}
  = Dashboard.chip_class
      {| Dashboard.chip_class := lit "text-primary bg-primary/10";
         Dashboard.chip_text := lit "f: 1" |}
  <-> (1 mod 4 = 5 mod 4)%nat.
Proof.
  apply (Recommendations.badge_classes_cycle six_badges 1 5).
  - reflexivity.
  - reflexivity.
Defined.

Definition cost_segment (name : string) (value : Z) : Analytics.CostSegment Z :=
  {| Analytics.segment := lit name; Analytics.segment_value := value |}.

Definition five_segments : list (Analytics.CostSegment Z) :=
  [cost_segment "Peak" 8; cost_segment "Off-peak" 6; cost_segment "Weekend" 3;
   cost_segment "Night" 2; cost_segment "Other" 1].

Definition cost_cell (index : nat) (name : string) (value : Z) : Dashboard.CostCell :=
  {| Dashboard.cell_name := lit name;
     Dashboard.cell_value := value;
     Dashboard.cell_color := Dashboard.pick Dashboard.colorPalette index;
     Dashboard.cell_legend := Sample.decimal value |}.

Lemma cost_colours_cycle_witness :
  (Dashboard.cell_color (cost_cell 0 "Peak" 8) = Dashboard.cell_color (cost_cell 4 "Other" 1)
   <-> (0 mod 4 = 4 mod 4)%nat)
  /\ exists seg, five_segments !! 0%nat = Some seg
       /\ Dashboard.cell_name (cost_cell 0 "Peak" 8) = Analytics.segment seg
       /\ Dashboard.cell_value (cost_cell 0 "Peak" 8) = Analytics.segment_value seg.
Proof.
  apply (Recommendations.cost_colours_cycle Sample.number_format Format.en five_segments 0 4).
  - reflexivity.
  - reflexivity.
Defined.

Definition french_text : Analytics.RecommendationLocalizedText :=
  {| Analytics.loc_title := lit "Heures creuses";
     Analytics.loc_impact := lit "12 EUR par mois";
     Analytics.loc_tips := [lit "Lancer le lave-linge la nuit"] |}.

Definition only_french : Analytics.Recommendation :=
  {| Analytics.category := lit "cost_saving";
     Analytics.rec_impact :=
       {| Analytics.impact_value := lit "12 EUR"; Analytics.impact_period := lit "month" |};
     Analytics.rec_tips := [];
     Analytics.rec_content :=
       Some {| Analytics.content_en := None; Analytics.content_fr := Some french_text |} |}.

Definition no_text : Analytics.Recommendation :=
  {| Analytics.category := lit "efficiency";
     Analytics.rec_impact :=
       {| Analytics.impact_value := lit "5%"; Analytics.impact_period := lit "month" |};
     Analytics.rec_tips := [];
     Analytics.rec_content := None |}.

Definition nat_to_Z (n : nat) : Z := Z.of_nat n.

Lemma export_matches_card_witness :
  let card := Dashboard.recommendation_card Format.fr only_french in
  Dashboard.rc_title card = Analytics.loc_title french_text
  /\ Dashboard.rc_impact card = Analytics.loc_impact french_text
  /\ Dashboard.rc_tips card = Analytics.loc_tips french_text
  /\ head (Report.recommendation_lines Sample.decimal nat_to_Z Format.fr 0 only_french)
     = Some (Report.row Sample.decimal (lit "Recommendation")
               (Dashboard.rc_title card) (Dashboard.rc_impact card)).
Proof.
  apply (Recommendations.export_matches_card Sample.decimal nat_to_Z Format.fr 0%nat
           only_french french_text).
  reflexivity.
Defined.

Lemma english_export_ignores_french_witness :
  Dashboard.rc_title (Dashboard.recommendation_card Format.en only_french)
  = Analytics.loc_title french_text
  /\ Dashboard.rc_tips (Dashboard.recommendation_card Format.en only_french)
     = Analytics.loc_tips french_text
  /\ head (Report.recommendation_lines Sample.decimal nat_to_Z Format.en 0 only_french)
     = Some (Report.row Sample.decimal (lit "Recommendation")
               (Analytics.category only_french ++ lit " #"
                ++ Sample.decimal (nat_to_Z (0 + 1)))
               (Analytics.impact_value (Analytics.rec_impact only_french))).
Proof.
  apply (Recommendations.english_export_ignores_french Sample.decimal nat_to_Z 0%nat
           only_french
           {| Analytics.content_en := None; Analytics.content_fr := Some french_text |}
           french_text).
  - reflexivity.
  - reflexivity.
  - reflexivity.
Defined.


End Scenarios.
